(** * Movie-bot: rate window, verification ledger, link shortener, bulk queue

    A shallow embedding of the parts of the bot that carry its timing and
    failure logic:

    - [Database.check_rate_limit]            (src/database.py)
    - [User], [UserVerification]               (src/models.py)
    - [VerificationSystem]                     (src/verification_system.py)
    - [URLShortener.shorten_url]               (src/url_shortener.py)
    - [BulkUploadHandler._process_upload_queue] (src/bulk_upload_handler.py)

    Conventions.  A [datetime] is a [Z] counting microseconds, a [timedelta]
    is a [Z] number of microseconds.  Every call of [datetime.now()] or
    [datetime.utcnow()] in the source is an explicit argument of the
    embedded function, one argument per call, in program order.  Tables
    keyed by a primary key are [gmap]s; tables that are scanned are lists in
    insertion order.  A Python exception that leaves a function is the
    [Raised] outcome of the embedded function. *)

From Stdlib Require Import ZArith String Ascii.
From stdpp Require Import gmap strings list fin_maps.
From Equations Require Import Equations.

Local Open Scope Z_scope.

(** ** Time *)

Module Time.

Definition microsecond : Z := 1.
Definition second : Z := 1000000.

(** [timedelta(minutes=m)] and [timedelta(hours=h)]. *)
Definition timedelta_minutes (m : Z) : Z := m * 60 * second.
Definition timedelta_hours (h : Z) : Z := h * 3600 * second.

Definition timedelta_seconds (s : Z) : Z := s * second.

(** [dt.replace(hour=0, minute=0, second=0, microsecond=0)] *)
Definition start_of_day (dt : Z) : Z := dt - dt `mod` timedelta_hours 24.

End Time.

(** ** Exceptions *)

Inductive exn : Type :=
| TypeError         (* None + 1 *)
| IntegrityError    (* a UNIQUE or NOT NULL constraint fails at commit *)
| ClientError.      (* aiohttp: connection, timeout, undecodable body *)

Inductive outcome (A : Type) : Type :=
| Returned (a : A)
| Raised (e : exn).
Arguments Returned {A} a.
Arguments Raised {A} e.

Definition returned {A} (o : outcome A) : bool :=
  match o with Returned _ => true | Raised _ => false end.

(** ** RateWindow: [Database.check_rate_limit] *)

Module RateLimit.
Import Time.

(** One row of table [rate_limits]; [user_id] is the primary key and is the
    key of the map.  The two timestamps are nullable.  The two counters are
    never NULL: every row is written by one of the two
    [INSERT OR REPLACE] statements below, which give the counter they name
    a [COALESCE(.., 1)] value and leave the other to its [DEFAULT 0]. *)
Record RateLimitRow : Type := mkRow {
  last_search : option Z;
  search_count : Z;
  last_upload : option Z;
  upload_count : Z
}.

(** [SELECT search_count FROM rate_limits WHERE user_id = ? AND last_search > ?]
    followed by [fetchone()].  A NULL [last_search] fails the comparison. *)
Definition select_search_count (tbl : gmap Z RateLimitRow) (user_id since : Z)
  : option Z :=
  match tbl !! user_id with
  | Some r =>
      match last_search r with
      | Some ls => if since <? ls then Some (search_count r) else None
      | None => None
      end
  | None => None
  end.

Definition select_upload_count (tbl : gmap Z RateLimitRow) (user_id since : Z)
  : option Z :=
  match tbl !! user_id with
  | Some r =>
      match last_upload r with
      | Some lu => if since <? lu then Some (upload_count r) else None
      | None => None
      end
  | None => None
  end.

(** The value of
    [COALESCE((SELECT CASE WHEN last_search > ? THEN search_count + 1 ELSE 1 END
               FROM rate_limits WHERE user_id = ?), 1)]. *)
Definition next_search_count (tbl : gmap Z RateLimitRow) (user_id since : Z) : Z :=
  match tbl !! user_id with
  | Some r =>
      match last_search r with
      | Some ls => if since <? ls then search_count r + 1 else 1
      | None => 1
      end
  | None => 1
  end.

Definition next_upload_count (tbl : gmap Z RateLimitRow) (user_id since : Z) : Z :=
  match tbl !! user_id with
  | Some r =>
      match last_upload r with
      | Some lu => if since <? lu then upload_count r + 1 else 1
      | None => 1
      end
  | None => 1
  end.

(** [INSERT OR REPLACE INTO rate_limits (user_id, last_search, search_count)]:
    the old row of the user is deleted and the new one gets the defaults in
    the columns that are not listed. *)
Definition replace_search (tbl : gmap Z RateLimitRow) (user_id now since : Z)
  : gmap Z RateLimitRow :=
  <[user_id := {| last_search := Some now;
                  search_count := next_search_count tbl user_id since;
                  last_upload := None;
                  upload_count := 0 |}]> tbl.

Definition replace_upload (tbl : gmap Z RateLimitRow) (user_id now since : Z)
  : gmap Z RateLimitRow :=
  <[user_id := {| last_search := None;
                  search_count := 0;
                  last_upload := Some now;
                  upload_count := next_upload_count tbl user_id since |}]> tbl.

(** The limits are literals of the source. *)
Definition SEARCH_LIMIT : Z := 5.
Definition UPLOAD_LIMIT : Z := 10.

(** [result and result['count'] >= limit] *)
Definition over_limit (result : option Z) (limit : Z) : bool :=
  match result with
  | Some c => limit <=? c
  | None => false
  end.

(** [check_rate_limit(self, user_id, action)]; [now] is [datetime.now()].
    The early [return False] leaves the connection without a commit. *)
Definition check_rate_limit (tbl : gmap Z RateLimitRow) (user_id : Z)
    (action : string) (now : Z) : bool * gmap Z RateLimitRow :=
  if String.eqb action "search" then
    let minute_ago := now - timedelta_minutes 1 in
    if over_limit (select_search_count tbl user_id minute_ago) SEARCH_LIMIT
    then (false, tbl)
    else (true, replace_search tbl user_id now minute_ago)
  else if String.eqb action "upload" then
    let hour_ago := now - timedelta_hours 1 in
    if over_limit (select_upload_count tbl user_id hour_ago) UPLOAD_LIMIT
    then (false, tbl)
    else (true, replace_upload tbl user_id now hour_ago)
  else (true, tbl).

(** A handler calling the check once per request, at the given instants. *)
Fixpoint run_checks (tbl : gmap Z RateLimitRow) (user_id : Z) (action : string)
    (times : list Z) : list bool * gmap Z RateLimitRow :=
  match times with
  | [] => ([], tbl)
  | t :: ts =>
      let '(b, tbl1) := check_rate_limit tbl user_id action t in
      let '(bs, tbl2) := run_checks tbl1 user_id action ts in
      (b :: bs, tbl2)
  end.

(** The words of the specification: the bucket of the action holds
    limit-or-more uses and is inside its window at [now]. *)
Definition bucket_full (tbl : gmap Z RateLimitRow) (user_id : Z)
    (action : string) (now : Z) : Prop :=
  (action = "search" ∧
   ∃ r ls, tbl !! user_id = Some r ∧ last_search r = Some ls ∧
           now - timedelta_minutes 1 < ls ∧ SEARCH_LIMIT ≤ search_count r)
  ∨
  (action = "upload" ∧
   ∃ r lu, tbl !! user_id = Some r ∧ last_upload r = Some lu ∧
           now - timedelta_hours 1 < lu ∧ UPLOAD_LIMIT ≤ upload_count r).

(** No live search bucket at [now]: no row, a NULL stamp or a stale one. *)
Definition search_bucket_idle (tbl : gmap Z RateLimitRow) (user_id now : Z) : Prop :=
  select_search_count tbl user_id (now - timedelta_minutes 1) = None.

End RateLimit.

(** ** Tables of src/models.py *)

Module Models.
Import Time.

(** [class User]; the key of the table is [user_id].  Only the columns of
    the daily verification are kept.  [verification_count] has
    [default=0], a default applied by the INSERT: a [User(...)] object
    that was never flushed still reads [None]. *)
Record User : Type := mkUser {
  last_verified : option Z;
  verification_count : option Z
}.

(** [User(user_id=...)] before any flush. *)
Definition new_User : User :=
  {| last_verified := None; verification_count := None |}.

(** The row an INSERT stores for a [User]: column defaults filled in. *)
Definition inserted_User (u : User) : User :=
  {| last_verified := last_verified u;
     verification_count :=
       match verification_count u with Some c => Some c | None => Some 0 end |}.

(** [User.is_verified_today]; [now] is [datetime.utcnow()]. *)
Definition is_verified_today (u : User) (now : Z) : bool :=
  match last_verified u with
  | None => false
  | Some lv => now - lv <? timedelta_hours 24
  end.

(** [User.mark_verified]; [now] is [datetime.utcnow()].
    [self.verification_count += 1] raises on [None]. *)
Definition mark_verified (u : User) (now : Z) : outcome User :=
  match verification_count u with
  | Some c => Returned {| last_verified := Some now;
                          verification_count := Some (c + 1) |}
  | None => Raised TypeError
  end.

(** [class UserVerification].  [short_url] is [nullable=False] but the
    Python attribute can hold [None] until the commit rejects it. *)
Record UserVerification : Type := mkVerification {
  verification_id : Z;
  user_id : Z;
  movie_id : Z;
  verification_token : string;
  short_url : option string;
  original_url : string;
  created_at : Z;
  expires_at : Z;
  verified_at : option Z;
  is_verified : bool;
  is_expired : bool
}.

(** [UserVerification.is_valid]; [now] is [datetime.utcnow()]. *)
Definition is_valid (v : UserVerification) (now : Z) : bool :=
  negb (is_expired v) && (now <? expires_at v).

(** [verification.is_expired = True] *)
Definition set_expired (v : UserVerification) : UserVerification :=
  {| verification_id := verification_id v; user_id := user_id v; movie_id := movie_id v;
     verification_token := verification_token v;
     short_url := short_url v; original_url := original_url v;
     created_at := created_at v; expires_at := expires_at v;
     verified_at := verified_at v;
     is_verified := is_verified v; is_expired := true |}.

(** [verification.is_verified = True; verification.verified_at = utcnow()] *)
Definition set_verified (v : UserVerification) (now : Z) : UserVerification :=
  {| verification_id := verification_id v; user_id := user_id v; movie_id := movie_id v;
     verification_token := verification_token v;
     short_url := short_url v; original_url := original_url v;
     created_at := created_at v; expires_at := expires_at v;
     verified_at := Some now;
     is_verified := true; is_expired := is_expired v |}.

(** [class URLShortener] (the table, not the service). *)
Record URLShortenerRow : Type := mkShortRow {
  us_original_url : string;
  us_short_url : option string;
  short_code : string;
  us_expires_at : option Z
}.

(** The committed content of the database. *)
Record Db : Type := mkDb {
  user_verifications : list UserVerification;
  users : gmap Z User;
  url_shorteners : list URLShortenerRow
}.

Definition empty_db : Db :=
  {| user_verifications := []; users := ∅; url_shorteners := [] |}.

Definition with_verifications (d : Db) (rows : list UserVerification) : Db :=
  {| user_verifications := rows; users := users d;
     url_shorteners := url_shorteners d |}.

Definition with_user (d : Db) (uid : Z) (u : User) : Db :=
  {| user_verifications := user_verifications d;
     users := <[uid := u]> (users d);
     url_shorteners := url_shorteners d |}.

End Models.

(** ** VerificationLedger: src/verification_system.py *)

Module Verification.
Import Time Models.

(** The answer of the shortener API to the POST of [_create_short_url].
    [response.json()] is only awaited on status 200; it raises when the
    body is not JSON, and [result.get] raises when the JSON value is not an
    object.  The two [get]s read fields that may be absent. *)
Inductive json_body : Type :=
| JsonUnusable
| JsonObject (status : option string) (shortenedUrl : option string).

Inductive post_outcome : Type :=
| PostRaises (e : exn)
| PostResponse (status : Z) (body : json_body).

(** The three [message] strings of [verify_user_by_token], by role. *)
Inductive message : Type :=
| MsgInvalidOrExpiredLink
| MsgLinkExpired
| MsgVerificationSuccessful.

Record VerifyResult : Type := mkResult {
  success : bool;
  res_user_id : option Z;
  res_movie_id : option Z;
  res_message : message
}.

Record VerificationRequest : Type := mkRequest {
  req_verification_token : string;
  req_short_url : option string;
  req_expires_at : Z;
  req_verification_id : Z
}.

Record VerificationStatus : Type := mkStatus {
  needs_verification : bool;
  status_last_verified : option Z;
  hours_remaining : Z
}.

Record VerificationStats : Type := mkStats {
  total_verifications : nat;
  successful_verifications : nat;
  pending_verifications : nat;
  expired_verifications : nat;
  today_verifications : nat
}.

Section WithConfig.

(** [Config.BOT_USERNAME] *)
Variable BOT_USERNAME : string.

(** f"https://t.me/{Config.BOT_USERNAME}?start=verify_{verification_token}" *)
Definition verify_link (verification_token : string) : string :=
  ("https://t.me/" ++ BOT_USERNAME ++ "?start=verify_" ++ verification_token)%string.

(** f"https://short.link/{verification_token[:8]}" *)
Definition short_link_fallback (verification_token : string) : string :=
  ("https://short.link/" ++ String.substring 0 8 verification_token)%string.

(** [_create_short_url]: the URL it returns and the [URLShortener] rows it
    adds to the session; [now] is the [utcnow()] of the row's expiry. *)
Definition _create_short_url (original_url verification_token : string)
    (resp : post_outcome) (now : Z) : option string * list URLShortenerRow :=
  match resp with
  | PostResponse status body =>
      if status =? 200 then
        match body with
        | JsonObject st shortened =>
            if bool_decide (st = Some "success") then
              (shortened,
               [ {| us_original_url := original_url;
                    us_short_url := shortened;
                    short_code := String.substring 0 10 verification_token;
                    us_expires_at := Some (now + timedelta_hours 24) |} ])
            else (Some (short_link_fallback verification_token), [])
        | JsonUnusable => (Some (verify_link verification_token), [])
        end
      else (Some (short_link_fallback verification_token), [])
  | PostRaises _ => (Some (verify_link verification_token), [])
  end.

(** The SQLite rowid given to a new [user_verifications] row. *)
Definition next_verification_id (rows : list UserVerification) : Z :=
  1 + foldr Z.max 0 (verification_id <$> rows).

(** The constraints checked by the commit of [create_verification_request]:
    [verification_token] UNIQUE, [short_url] NOT NULL, and for a new
    [url_shorteners] row [short_code] UNIQUE and [short_url] NOT NULL. *)
Definition commit_accepts (d : Db) (v : UserVerification)
    (pending : list URLShortenerRow) : bool :=
  bool_decide (verification_token v ∉ verification_token <$> user_verifications d)
  && bool_decide (is_Some (short_url v))
  && forallb (λ r, bool_decide (short_code r ∉ short_code <$> url_shorteners d)
                   && bool_decide (is_Some (us_short_url r))) pending.

(** [create_verification_request].  [verification_token] is the value of
    [_generate_verification_token] (an MD5 digest over the ids, the clock
    and eight random hex digits); [resp] is what the shortener answers;
    [t_short], [t_expires], [t_created] are the readings of [utcnow()]
    in [_create_short_url], at line 77 and for the [created_at] default. *)
Definition create_verification_request (d : Db) (uid mid : Z)
    (verification_token : string) (resp : post_outcome)
    (t_short t_expires t_created : Z) : outcome VerificationRequest * Db :=
  let original_url := verify_link verification_token in
  let '(short, pending) :=
    _create_short_url original_url verification_token resp t_short in
  let expires := t_expires + timedelta_hours 24 in
  let verification :=
    {| verification_id := next_verification_id (user_verifications d);
       user_id := uid;
       movie_id := mid;
       verification_token := verification_token;
       short_url := short;
       original_url := original_url;
       created_at := t_created;
       expires_at := expires;
       verified_at := None;
       is_verified := false;
       is_expired := false |} in
  if commit_accepts d verification pending then
    (Returned {| req_verification_token := verification_token;
                 req_short_url := short;
                 req_expires_at := expires;
                 req_verification_id := verification_id verification |},
     {| user_verifications := user_verifications d ++ [verification];
        users := users d;
        url_shorteners := url_shorteners d ++ pending |})
  else (Raised IntegrityError, d).

End WithConfig.

(** [filter_by(verification_token=token, is_verified=False).first()]:
    position and content of the first such row. *)
Definition first_pending (rows : list UserVerification) (token : string)
  : option (nat * UserVerification) :=
  list_find (λ v, verification_token v = token ∧ is_verified v = false) rows.

Definition not_found_result : VerifyResult :=
  {| success := false; res_user_id := None; res_movie_id := None;
     res_message := MsgInvalidOrExpiredLink |}.

Definition expired_result (v : UserVerification) : VerifyResult :=
  {| success := false; res_user_id := Some (user_id v);
     res_movie_id := Some (movie_id v); res_message := MsgLinkExpired |}.

Definition success_result (v : UserVerification) : VerifyResult :=
  {| success := true; res_user_id := Some (user_id v);
     res_movie_id := Some (movie_id v);
     res_message := MsgVerificationSuccessful |}.

(** [verify_user_by_token].  [t_valid], [t_stamp], [t_mark] are the readings
    of [utcnow()] in [is_valid], for [verified_at] and in [mark_verified].
    An exception leaves before the commit, so the database keeps its
    content. *)
Definition verify_user_by_token (d : Db) (token : string)
    (t_valid t_stamp t_mark : Z) : outcome VerifyResult * Db :=
  match first_pending (user_verifications d) token with
  | None => (Returned not_found_result, d)
  | Some (i, verification) =>
      if negb (is_valid verification t_valid) then
        (Returned (expired_result verification),
         with_verifications d
           (<[i := set_expired verification]> (user_verifications d)))
      else
        let verification' := set_verified verification t_stamp in
        let user :=
          match users d !! user_id verification with
          | Some u => u
          | None => new_User
          end in
        match mark_verified user t_mark with
        | Raised e => (Raised e, d)
        | Returned user' =>
            (Returned (success_result verification),
             with_user
               (with_verifications d
                  (<[i := verification']> (user_verifications d)))
               (user_id verification) user')
        end
  end.

(** [check_user_verification_status]; [t_check], [t_diff] are the
    readings of [utcnow()] in [is_verified_today] and at line 43.
    [int(..)] truncates toward zero. *)
Definition check_user_verification_status (d : Db) (uid : Z)
    (t_check t_diff : Z) : VerificationStatus :=
  match users d !! uid with
  | None =>
      {| needs_verification := true; status_last_verified := None;
         hours_remaining := 24 |}
  | Some user =>
      if is_verified_today user t_check then
        let time_diff :=
          t_diff - match last_verified user with Some lv => lv | None => 0 end in
        {| needs_verification := false;
           status_last_verified := last_verified user;
           hours_remaining := Z.max 0 (24 - Z.quot time_diff (timedelta_hours 1)) |}
      else
        {| needs_verification := true;
           status_last_verified := last_verified user;
           hours_remaining := 24 |}
  end.

(** The access window of the specification: open when no verification is
    asked for. *)
Definition window_open (d : Db) (uid : Z) (now : Z) : bool :=
  negb (needs_verification (check_user_verification_status d uid now now)).

(** [get_verification_stats]; [now] is [utcnow()].  [success_rate] is a
    floating-point quotient of two of the counts and is left out. *)
Definition get_verification_stats (d : Db) (now : Z) : VerificationStats :=
  let rows := user_verifications d in
  {| total_verifications := length rows;
     successful_verifications := length (filter (λ v, is_verified v = true) rows);
     pending_verifications := length (filter (λ v, is_verified v = false) rows);
     expired_verifications := length (filter (λ v, is_expired v = true) rows);
     today_verifications :=
       length (filter (λ v, start_of_day now ≤ created_at v) rows) |}.

(** [cleanup_expired_verifications]; [now] is [utcnow()]. *)
Definition cleanup_expired_verifications (d : Db) (now : Z) : nat * Db :=
  let due v := (expires_at v <? now) && negb (is_verified v) in
  (length (filter (λ v, due v = true) (user_verifications d)),
   with_verifications d
     ((λ v, if due v then set_expired v else v) <$> user_verifications d)).

(** The part of [start_command] that saves the user before a
    [verify_] argument is handled (src/auto_filter_bot.py, lines 54-70). *)
Definition start_command_save_user (d : Db) (uid : Z) : Db :=
  match users d !! uid with
  | None => with_user d uid (inserted_User new_User)
  | Some _ => d
  end.

(** The UNIQUE constraint on [verification_token]. *)
Definition tokens_unique (d : Db) : Prop :=
  NoDup (verification_token <$> user_verifications d).


(** *** Two ledgers reached by the operations *)

(** User 1 has started the bot and asked for movie 9 while the shortener
    was unreachable. *)
Definition one_challenge : Db :=
  (create_verification_request "bot" (start_command_save_user empty_db 1)
     1 9 "0123456789abcdef" (PostRaises ClientError) 0 0 0).2.


End Verification.

(** ** Link shortener service: src/url_shortener.py *)

Module Shortener.

(** The answer to the GET of [shorten_url]: the request raises, or a status
    arrives and [await response.text()] gives the body or raises. *)
Inductive get_outcome : Type :=
| GetRaises (e : exn)
| GetResponse (status : Z) (text : outcome string).

(** [str.isspace] on the code points below 256. *)
Definition is_space (c : ascii) : bool :=
  let n := nat_of_ascii c in
  ((9 <=? n) && (n <=? 13) || (28 <=? n) && (n <=? 32)
   || (n =? 133) || (n =? 160))%nat.

Fixpoint lstrip (s : string) : string :=
  match s with
  | String c s' => if is_space c then lstrip s' else s
  | EmptyString => EmptyString
  end.

Fixpoint rstrip (s : string) : string :=
  match s with
  | String c s' =>
      match rstrip s' with
      | EmptyString => if is_space c then EmptyString else String c EmptyString
      | r => String c r
      end
  | EmptyString => EmptyString
  end.

(** [str.strip()] *)
Definition strip (s : string) : string := rstrip (lstrip s).

(** [shorten_url(self, original_url)]; [api_token] is [self.api_token]. *)
Definition shorten_url (api_token original_url : string) (resp : get_outcome)
  : string :=
  if bool_decide (api_token = "") then original_url
  else
    match resp with
    | GetResponse status text =>
        if status =? 200 then
          match text with
          | Returned body =>
              let shortened_url := strip body in
              if negb (bool_decide (shortened_url = ""))
                 && String.prefix "http" shortened_url
              then shortened_url
              else original_url
          | Raised _ => original_url
          end
        else original_url
    | GetRaises _ => original_url
    end.

End Shortener.

(** ** IngestQueue: src/bulk_upload_handler.py *)

Module BulkUpload.
Import Time.

(** [Config.MAX_CONCURRENT_UPLOADS] and [Config.BULK_UPLOAD_DELAY] (0.5 s). *)
Definition MAX_CONCURRENT_UPLOADS : nat := 5.
Definition BULK_UPLOAD_DELAY : Z := 500000 * microsecond.

(** [try: body except Exception: handler] *)
Definition try_except {A} (body : outcome A) (handler : exn → outcome A)
  : outcome A :=
  match body with
  | Returned a => Returned a
  | Raised e => handler e
  end.

(** One entry of [asyncio.gather] called with [return_exceptions=True]. *)
Inductive gather_result : Type :=
| GValue (b : bool)
| GException (e : exn).

Definition gather_return_exceptions (tasks : list (outcome bool))
  : list gather_result :=
  (λ t, match t with Returned b => GValue b | Raised e => GException e end)
    <$> tasks.

(** The loop over [results] that updates the two counters. *)
Fixpoint count_results (results : list gather_result)
    (processed_count failed_count : nat) : nat * nat :=
  match results with
  | [] => (processed_count, failed_count)
  | GException _ :: rs => count_results rs processed_count (S failed_count)
  | GValue true :: rs => count_results rs (S processed_count) failed_count
  | GValue false :: rs => count_results rs processed_count (S failed_count)
  end.

Section WithItems.

(** The dictionary queued by [add_to_upload_queue], and the work of lines
    123-170 on it (caption parsing, link shortening, [add_movie]), which
    gives the new movie id or raises. *)
Context {UploadItem : Type}.
Variable upload_body : UploadItem → outcome Z.

(** What the drain loop does, in order: a batch handed to [gather] with
    the results it collected, or an [asyncio.sleep]. *)
Inductive event : Type :=
| EBatch (batch : list UploadItem) (results : list gather_result)
| ESleep (delay : Z).

Record Handler : Type := mkHandler {
  upload_queue : list UploadItem;
  is_processing : bool
}.

(** The synchronous effect of [add_to_upload_queue] on the queue. *)
Definition append_to_queue (h : Handler) (item : UploadItem) : Handler :=
  {| upload_queue := upload_queue h ++ [item];
     is_processing := is_processing h |}.

(** [_process_single_upload] *)
Definition _process_single_upload (upload_item : UploadItem) : outcome bool :=
  try_except
    (match upload_body upload_item with
     | Returned _ => Returned true
     | Raised e => Raised e
     end)
    (λ _, Returned false).

(** Whether the work on an item goes through; [_process_single_upload]
    answers [True] exactly then. *)
Definition succeeds (item : UploadItem) : bool := returned (upload_body item).

(** [for _ in range(n): if queue: batch.append(queue.pop(0))] *)
Fixpoint pop_batch (n : nat) (queue batch : list UploadItem)
  : list UploadItem * list UploadItem :=
  match n with
  | O => (batch, queue)
  | S n' =>
      match queue with
      | item :: queue' => pop_batch n' queue' (batch ++ [item])
      | [] => pop_batch n' queue batch
      end
  end.

(** The [while self.upload_queue] loop, run while nothing else appends to the
    queue.  It gives the queue, the two counters and the events, oldest
    first. *)
Equations drain_loop (queue : list UploadItem) (processed_count failed_count : nat)
    (trace : list event) : list UploadItem * (nat * nat) * list event
    by wf (length queue) lt :=
drain_loop [] processed_count failed_count trace :=
  ([], (processed_count, failed_count), trace);
drain_loop (item :: queue') processed_count failed_count trace :=
  let popped :=
    pop_batch (Nat.min MAX_CONCURRENT_UPLOADS (length (item :: queue')))
      (item :: queue') [] in
  let results := gather_return_exceptions (_process_single_upload <$> popped.1) in
  let counts := count_results results processed_count failed_count in
  let pause :=
    match popped.2 with
    | [] => []
    | _ :: _ => [ESleep BULK_UPLOAD_DELAY]
    end in
  drain_loop popped.2 counts.1 counts.2
    (trace ++ [EBatch popped.1 results] ++ pause).
Next Obligation.
  assert (Hlen : ∀ n (q b : list UploadItem),
             (length (pop_batch n q b).2 ≤ length q)%nat).
  { induction n as [|n IH]; intros q b; simpl; [lia|].
    destruct q as [|y q]; simpl; [apply IH|]. specialize (IH q (b ++ [y])). lia. }
  cbn [Nat.min MAX_CONCURRENT_UPLOADS length pop_batch].
  match goal with |- (length (pop_batch ?n ?q ?b).2 < _)%nat =>
    specialize (Hlen n q b) end.
  lia.
Qed.

(** The completion summary of the [finally] block, built when at least one
    item was counted. *)
Record Summary : Type := mkSummary {
  processed : nat;
  failed : nat;
  total : nat
}.

(** [_process_upload_queue]: the summary, the handler afterwards and the
    events.  Under the [try] the pops, [gather] with
    [return_exceptions=True], the counting and the sleep raise nothing, so
    the [except] branch has no case here; the [finally] block clears
    [is_processing] and builds the summary. *)
Definition _process_upload_queue (h : Handler)
  : outcome (option Summary) * Handler * list event :=
  if is_processing h then (Returned None, h, [])
  else
    let '(queue, (processed_count, failed_count), trace) :=
      drain_loop (upload_queue h) 0 0 [] in
    (Returned
       (if ((0 <? processed_count) || (0 <? failed_count))%nat
        then Some {| processed := processed_count;
                     failed := failed_count;
                     total := processed_count + failed_count |}
        else None),
     {| upload_queue := queue; is_processing := false |},
     trace).

(** The batches of a trace and the items dispatched, in order. *)
Definition batches (trace : list event) : list (list UploadItem) :=
  omap (λ e, match e with EBatch b _ => Some b | ESleep _ => None end) trace.

Definition dispatched (trace : list event) : list UploadItem :=
  concat (batches trace).

(** A trace is paced when a sleep stands between any two consecutive batches
    and nowhere else. *)
Fixpoint paced (trace : list event) : bool :=
  match trace with
  | [] => true
  | [EBatch _ _] => true
  | EBatch _ _ :: ((ESleep d :: ((EBatch _ _ :: _) as rest))) =>
      (d =? BULK_UPLOAD_DELAY) && paced rest
  | _ => false
  end.

(** The shape of the events of a complete drain of [queue]: batches of
    [MAX_CONCURRENT_UPLOADS] consecutive items from the head, a sleep
    between two batches and none after the last, and for each batch one
    result per item, in the order of the items. *)
Definition drained (queue : list UploadItem) (ev : list event) : Prop :=
  (queue = [] → ev = [])
  ∧ (queue ≠ [] → ∃ b r ev', ev = EBatch b r :: ev')
  ∧ paced ev = true
  ∧ length (batches ev) = ((length queue + 4) / 5)%nat
  ∧ (∀ i b, batches ev !! i = Some b →
            b = take MAX_CONCURRENT_UPLOADS (drop (MAX_CONCURRENT_UPLOADS * i) queue))
  ∧ Forall (λ b, (1 ≤ length b ≤ MAX_CONCURRENT_UPLOADS)%nat) (batches ev)
  ∧ dispatched ev = queue
  ∧ Forall (λ e, match e with
                 | EBatch b r => r = (λ item, GValue (succeeds item)) <$> b
                 | ESleep _ => True
                 end) ev.

End WithItems.

End BulkUpload.

(** ** Further definitions *)

Module RateLimitRuns.

(** The number of admitted checks among the answers of a run. *)
Definition admitted (answers : list bool) : nat :=
  length (filter (λ b : bool, b = true) answers).

End RateLimitRuns.

(** *** Runs of the ledger *)

Module LedgerRuns.
Import Time Models Verification.

(** One call into the ledger together with what the environment supplies
    to it: clock readings, the generated token, the shortener's answer. *)
Inductive ledger_call : Type :=
| CallStart (uid : Z)
| CallCreate (uid mid : Z) (token : string) (resp : post_outcome)
    (t_short t_expires t_created : Z)
| CallVerify (token : string) (t_valid t_stamp t_mark : Z)
| CallCleanup (now : Z).

(** The database after a call; a call that raises commits nothing. *)
Definition after_call (BOT : string) (d : Db) (c : ledger_call) : Db :=
  match c with
  | CallStart uid => start_command_save_user d uid
  | CallCreate uid mid token resp t_short t_expires t_created =>
      (create_verification_request BOT d uid mid token resp
         t_short t_expires t_created).2
  | CallVerify token t_valid t_stamp t_mark =>
      (verify_user_by_token d token t_valid t_stamp t_mark).2
  | CallCleanup now => (cleanup_expired_verifications d now).2
  end.

Definition after_calls (BOT : string) (d : Db) (cs : list ledger_call) : Db :=
  foldl (after_call BOT) d cs.

(** A row is in one of the three states of a token: pending (no stamp),
    verified (stamped, never flagged expired) or expired (flagged, no
    stamp). *)
Definition row_consistent (v : UserVerification) : Prop :=
  (is_verified v = true → is_expired v = false ∧ is_Some (verified_at v))
  ∧ (is_verified v = false → verified_at v = None).

(** The number of verified tokens of a subject. *)
Definition verified_tokens (d : Db) (uid : Z) : nat :=
  length (filter (λ v, user_id v = uid ∧ is_verified v = true)
            (user_verifications d)).

(** The users table agrees with the tokens: a stored user has counted
    exactly the verified tokens bound to it and carries a stamp iff there
    is one; a subject without a row has none. *)
Definition users_consistent (d : Db) : Prop :=
  ∀ uid,
    match users d !! uid with
    | Some u =>
        verification_count u = Some (Z.of_nat (verified_tokens d uid))
        ∧ (is_Some (last_verified u) ↔ (1 ≤ verified_tokens d uid)%nat)
    | None => verified_tokens d uid = 0%nat
    end.

(** Row ids are 1, 2, ... in insertion order. *)
Definition ids_sequential (d : Db) : Prop :=
  verification_id <$> user_verifications d
  = Z.of_nat <$> seq 1 (length (user_verifications d)).

Definition ledger_consistent (d : Db) : Prop :=
  tokens_unique d
  ∧ Forall row_consistent (user_verifications d)
  ∧ ids_sequential d
  ∧ users_consistent d.

End LedgerRuns.

(** *** Delivery: src/auto_filter_bot.py *)

Module Delivery.
Import Time Models Verification.

(** [s.replace(old, '')] for a non-empty [old]: every occurrence met from
    the left is dropped; [skip] counts the characters of an occurrence
    still to drop. *)
Fixpoint remove_all (old : string) (skip : nat) (s : string) : string :=
  match s with
  | EmptyString => EmptyString
  | String c s' =>
      match skip with
      | S k => remove_all old k s'
      | O =>
          if String.prefix old s
          then remove_all old (String.length old - 1) s'
          else String c (remove_all old 0 s')
      end
  end.

(** What [handle_download_request] answers. *)
Inductive download_reply : Type :=
| ReplyMovieNotFound
| ReplyVerificationRequired (req : VerificationRequest)
| ReplySendFile.

(** [handle_download_request] up to the hand-over to [send_movie_file].
    [movie_found] is whether an active [Movie] row has the id; the other
    arguments are those of the two ledger calls. *)
Definition handle_download_request (BOT : string) (d : Db) (movie_found : bool)
    (uid mid : Z) (t_check t_diff : Z)
    (token : string) (resp : post_outcome) (t_short t_expires t_created : Z)
  : outcome download_reply * Db :=
  if negb movie_found then (Returned ReplyMovieNotFound, d)
  else
    let verification_status := check_user_verification_status d uid t_check t_diff in
    if needs_verification verification_status then
      match create_verification_request BOT d uid mid token resp
              t_short t_expires t_created with
      | (Returned verification_data, d') =>
          (Returned (ReplyVerificationRequired verification_data), d')
      | (Raised e, d') => (Raised e, d')
      end
    else (Returned ReplySendFile, d).

(** [start_command] up to its replies: the user row is saved and, when the
    first argument starts with [verify_], the rest is resolved as a token.
    [uid] is the sender of the command. *)
Definition start_command (d : Db) (uid : Z) (args : list string)
    (t_valid t_stamp t_mark : Z) : outcome (option VerifyResult) * Db :=
  let d1 := start_command_save_user d uid in
  match args with
  | arg :: _ =>
      if String.prefix "verify_" arg then
        let verification_token := remove_all "verify_" 0 arg in
        match verify_user_by_token d1 verification_token t_valid t_stamp t_mark with
        | (Returned r, d2) => (Returned (Some r), d2)
        | (Raised e, d2) => (Raised e, d2)
        end
      else (Returned None, d1)
  | [] => (Returned None, d1)
  end.

(** The argument Telegram passes to [/start] for a [?start=...] link. *)
Definition start_argument (verification_token : string) : string :=
  ("verify_" ++ verification_token)%string.

(** The characters of [hashlib.md5(..).hexdigest()]. *)
Definition is_hex_digit (c : ascii) : bool :=
  let n := nat_of_ascii c in
  ((48 <=? n) && (n <=? 57) || (97 <=? n) && (n <=? 102))%nat.

Fixpoint is_hex (s : string) : bool :=
  match s with
  | EmptyString => true
  | String c s' => is_hex_digit c && is_hex s'
  end.

End Delivery.

(** *** SQLite tables of src/database.py

    In this part [now] is a reading of SQLite's own clock
    ([CURRENT_TIMESTAMP], [datetime('now')]), which has a resolution of one
    second: a [Z] counting seconds.  The stamps it writes are texts of one
    fixed format, so their comparison is the comparison of these
    numbers. *)

Module UrlVisits.

(** One row of [url_visits].  The [id] column is read by no function. *)
Record UrlVisit : Type := mkVisit {
  user_id : Z;
  movie_id : Z;
  shortened_url : string;
  verification_token : string;
  visit_time : option Z;
  created_at : Z
}.

(** [create_verification_request(user_id, movie_id, shortened_url)];
    [token] is [str(uuid.uuid4())]. *)
Definition create_verification_request (tbl : list UrlVisit) (uid mid : Z)
    (url token : string) (now : Z) : string * list UrlVisit :=
  (token,
   filter (λ r, user_id r ≠ uid) tbl
   ++ [ {| user_id := uid; movie_id := mid; shortened_url := url;
           verification_token := token; visit_time := None;
           created_at := now |} ]).

(** [WHERE user_id = ? AND movie_id = ? AND visit_time IS NULL] *)
Definition unvisited (uid mid : Z) (r : UrlVisit) : bool :=
  bool_decide (user_id r = uid) && bool_decide (movie_id r = mid)
  && bool_decide (visit_time r = None).

(** [verify_url_visit(user_id, movie_id)] *)
Definition verify_url_visit (tbl : list UrlVisit) (uid mid : Z) (now : Z)
  : bool * list UrlVisit :=
  if existsb (λ r, unvisited uid mid r && (created_at r <=? now - 5)) tbl then
    (true,
     (λ r, if unvisited uid mid r
           then {| user_id := user_id r; movie_id := movie_id r;
                   shortened_url := shortened_url r;
                   verification_token := verification_token r;
                   visit_time := Some now; created_at := created_at r |}
           else r) <$> tbl)
  else (false, tbl).

(** [has_recent_url_visit(user_id, movie_id)] *)
Definition has_recent_url_visit (tbl : list UrlVisit) (uid mid : Z) (now : Z)
  : bool :=
  existsb (λ r, bool_decide (user_id r = uid) && bool_decide (movie_id r = mid)
                && match visit_time r with
                   | Some t => now - 5 * 60 <? t
                   | None => false
                   end) tbl.

End UrlVisits.

Module VerificationSteps.

(** One row of [verification_steps]. *)
Record Step : Type := mkStep {
  user_id : Z;
  movie_id : Z;
  step_number : Z;
  completed_at : option Z
}.

(** The dictionary of [get_verification_status]; the key [is_complete] is
    missing when the pair has no rows. *)
Record StepStatus : Type := mkStepStatus {
  total_steps : nat;
  completed_steps : nat;
  current_step : nat;
  is_complete : option bool
}.

Definition of_pair (uid mid : Z) (r : Step) : Prop :=
  user_id r = uid ∧ movie_id r = mid.

(** [start_multi_step_verification(user_id, movie_id)] *)
Definition start_multi_step_verification (tbl : list Step) (uid mid : Z)
  : Z * list Step :=
  (4,
   filter (λ r, ¬ of_pair uid mid r) tbl
   ++ ((λ step, {| user_id := uid; movie_id := mid; step_number := step;
                   completed_at := None |}) <$> [1; 2; 3; 4])).

(** The rows the UPDATE of [complete_verification_step] touches. *)
Definition open_step (uid mid step : Z) (r : Step) : bool :=
  bool_decide (of_pair uid mid r) && bool_decide (step_number r = step)
  && bool_decide (completed_at r = None).

(** [complete_verification_step(user_id, movie_id, step_number)]: the
    answer is [cursor.rowcount > 0]. *)
Definition complete_verification_step (tbl : list Step) (uid mid step : Z)
    (now : Z) : bool * list Step :=
  (existsb (open_step uid mid step) tbl,
   (λ r, if open_step uid mid step r
         then {| user_id := user_id r; movie_id := movie_id r;
                 step_number := step_number r; completed_at := Some now |}
         else r) <$> tbl).

(** [get_verification_status(user_id, movie_id)] *)
Definition get_verification_status (tbl : list Step) (uid mid : Z) : StepStatus :=
  let steps := filter (of_pair uid mid) tbl in
  match steps with
  | [] => {| total_steps := 0; completed_steps := 0; current_step := 1;
             is_complete := None |}
  | _ :: _ =>
      let completed_count :=
        length (filter (λ r, completed_at r ≠ None) steps) in
      {| total_steps := length steps;
         completed_steps := completed_count;
         current_step :=
           if (completed_count <? length steps)%nat
           then (completed_count + 1)%nat else length steps;
         is_complete := Some (completed_count =? length steps)%nat |}
  end.

(** A run of [complete_verification_step] for one pair: the steps asked
    for, each with the clock reading of its call. *)
Definition complete_all (tbl : list Step) (uid mid : Z) (calls : list (Z * Z))
  : list Step :=
  foldl (λ t c, (complete_verification_step t uid mid c.1 c.2).2) tbl calls.

End VerificationSteps.

Module Catalog.
Import Time.

(** One row of [movies]. *)
Record Movie : Type := mkMovie {
  id : Z;
  title : string;
  year : option Z;
  quality : string;
  part_season_episode : string;
  file_id : string;
  file_name : string;
  file_size : Z;
  original_url : string;
  shortened_url : string;
  upload_date : Z;
  uploaded_by : Z;
  download_count : Z;
  last_accessed : option Z;
  is_active : bool
}.

(** The dictionary [get_movie_by_id] builds from a row. *)
Record MovieInfo : Type := mkInfo {
  info_id : Z;
  info_title : string;
  info_year : option Z;
  info_quality : string;
  info_part_season_episode : string;
  info_file_id : string;
  info_file_name : string;
  info_file_size : Z;
  info_shortened_url : string;
  info_download_count : Z
}.

(** One row of [download_logs].  [auto_delete_date] is written by Python
    from [datetime.now()], a count of microseconds. *)
Record DownloadLog : Type := mkLog {
  log_id : Z;
  log_user_id : Z;
  username : string;
  log_movie_id : Z;
  download_date : Z;
  auto_delete_date : option Z
}.

(** The two tables, each with the counter SQLite keeps for its
    [AUTOINCREMENT] key. *)
Record Store : Type := mkStore {
  movies : list Movie;
  movies_seq : Z;
  download_logs : list DownloadLog;
  download_logs_seq : Z
}.

Definition empty_store : Store :=
  {| movies := []; movies_seq := 0; download_logs := []; download_logs_seq := 0 |}.

(** The key an [AUTOINCREMENT] insert gets: one more than the largest key
    ever used. *)
Definition next_key (seq : Z) (keys : list Z) : Z :=
  1 + foldr Z.max seq keys.

(** [add_movie(...)] *)
Definition add_movie (s : Store) (title : string) (year : option Z)
    (quality part_season_episode file_id file_name : string) (file_size : Z)
    (original_url shortened_url : string) (uploaded_by : Z) (now : Z)
  : Z * Store :=
  let movie_id := next_key (movies_seq s) (id <$> movies s) in
  (movie_id,
   {| movies :=
        movies s
        ++ [ {| id := movie_id; title := title; year := year;
                quality := quality;
                part_season_episode := part_season_episode;
                file_id := file_id; file_name := file_name;
                file_size := file_size; original_url := original_url;
                shortened_url := shortened_url; upload_date := now;
                uploaded_by := uploaded_by; download_count := 0;
                last_accessed := None; is_active := true |} ];
      movies_seq := movie_id;
      download_logs := download_logs s;
      download_logs_seq := download_logs_seq s |}).

(** [get_movie_by_id(movie_id)] *)
Definition get_movie_by_id (s : Store) (movie_id : Z) : option MovieInfo :=
  match list_find (λ m, id m = movie_id ∧ is_active m = true) (movies s) with
  | Some (_, row) =>
      Some {| info_id := id row; info_title := title row;
              info_year := year row; info_quality := quality row;
              info_part_season_episode := part_season_episode row;
              info_file_id := file_id row; info_file_name := file_name row;
              info_file_size := file_size row;
              info_shortened_url := shortened_url row;
              info_download_count := download_count row |}
  | None => None
  end.

(** [increment_download_count(movie_id)] *)
Definition increment_download_count (s : Store) (movie_id : Z) (now : Z) : Store :=
  {| movies :=
       (λ m, if bool_decide (id m = movie_id)
             then {| id := id m; title := title m; year := year m;
                     quality := quality m;
                     part_season_episode := part_season_episode m;
                     file_id := file_id m; file_name := file_name m;
                     file_size := file_size m; original_url := original_url m;
                     shortened_url := shortened_url m;
                     upload_date := upload_date m;
                     uploaded_by := uploaded_by m;
                     download_count := download_count m + 1;
                     last_accessed := Some now; is_active := is_active m |}
             else m) <$> movies s;
     movies_seq := movies_seq s;
     download_logs := download_logs s;
     download_logs_seq := download_logs_seq s |}.

(** [log_download(user_id, username, movie_id, auto_delete_minutes)];
    [py_now] is [datetime.now()] in microseconds, [now] the clock of
    SQLite for the [download_date] default. *)
Definition log_download (s : Store) (uid : Z) (name : string) (movie_id : Z)
    (auto_delete_minutes : Z) (py_now now : Z) : Store :=
  let key := next_key (download_logs_seq s) (log_id <$> download_logs s) in
  {| movies := movies s;
     movies_seq := movies_seq s;
     download_logs :=
       download_logs s
       ++ [ {| log_id := key; log_user_id := uid; username := name;
               log_movie_id := movie_id; download_date := now;
               auto_delete_date :=
                 Some (py_now + timedelta_minutes auto_delete_minutes) |} ];
     download_logs_seq := key |}.

(** One entry of [get_files_to_delete]. *)
Record Deletion : Type := mkDeletion {
  del_download_id : Z;
  del_user_id : Z;
  del_movie_id : Z;
  del_file_id : string;
  del_title : string;
  del_auto_delete_date : Z
}.

(** [get_files_to_delete()].  The stored text of [auto_delete_date]
    (with microseconds) is compared with the text of [CURRENT_TIMESTAMP]
    (whole seconds); the order of the two texts is the order of the two
    instants.  The join keeps a log for each movie row with its id. *)
Definition get_files_to_delete (s : Store) (now : Z) : list Deletion :=
  dl ← download_logs s;
  m ← movies s;
  match auto_delete_date dl with
  | Some due =>
      if bool_decide (log_movie_id dl = id m) && (due <=? now * second)
      then [ {| del_download_id := log_id dl; del_user_id := log_user_id dl;
                del_movie_id := log_movie_id dl; del_file_id := file_id m;
                del_title := title m; del_auto_delete_date := due |} ]
      else []
  | None => []
  end.

(** [mark_file_deleted(download_id)] *)
Definition mark_file_deleted (s : Store) (download_id : Z) : Store :=
  {| movies := movies s;
     movies_seq := movies_seq s;
     download_logs :=
       (λ dl, if bool_decide (log_id dl = download_id)
              then {| log_id := log_id dl; log_user_id := log_user_id dl;
                      username := username dl;
                      log_movie_id := log_movie_id dl;
                      download_date := download_date dl;
                      auto_delete_date := None |}
              else dl) <$> download_logs s;
     download_logs_seq := download_logs_seq s |}.

End Catalog.

Module VerificationStepsRuns.
Import VerificationSteps.

(** The four rows of a pair, with the completion stamp of each step. *)
Definition four_rows (uid mid : Z) (stamp : Z → option Z) : list Step :=
  (λ step, mkStep uid mid step (stamp step)) <$> [1; 2; 3; 4].

(** The stamps after a call for [step] at [now]. *)
Definition stamp_step (stamp : Z → option Z) (step now : Z) : Z → option Z :=
  λ k, if bool_decide (k = step) && bool_decide (stamp k = None)
       then Some now else stamp k.

(** How many of the four steps occur in a list of step numbers. *)
Definition steps_done (asked : list Z) : nat :=
  length (filter (λ k, k ∈ asked) [1; 2; 3; 4]).

(** The stamps agree with the steps asked for so far. *)
Definition stamps_agree (stamp : Z → option Z) (asked : list Z) : Prop :=
  ∀ k, k ∈ [1; 2; 3; 4] → (stamp k ≠ None ↔ k ∈ asked).

End VerificationStepsRuns.

(** *** Entry to the queue and the link of an upload: src/bulk_upload_handler.py *)

Module BulkUploadEntry.
Import BulkUpload Shortener.

Section WithItems.
Context {UploadItem : Type}.

(** [Config.ADMIN_IDS], and the work on one item as in [BulkUpload]. *)
Variable ADMIN_IDS : list Z.
Variable upload_body : UploadItem → outcome Z.

(** One update handed to [add_to_upload_queue]: the sender, the
    [upload_item] built from [message.document or message.video] (absent when
    the message carries neither), and whether [reply_text] goes through. *)
Record Update : Type := mkUpdate {
  sender : Z;
  upload_item : option UploadItem;
  reply : outcome unit
}.

(** [get_queue_status] *)
Definition get_queue_status (h : @Handler UploadItem) : nat * bool :=
  (length (upload_queue h), is_processing h).

(** The coroutines of the handler run on one asyncio loop: each runs alone
    from one [await] to the next, and other coroutines run while it waits.
    A task of [_process_upload_queue] waits in [asyncio.gather] and in
    [asyncio.sleep]; between two of its awaits it stands at one of these
    points, with its two counters. *)
Inductive drain_point : Type :=
| DrainCreated
| DrainGather (batch : list UploadItem) (processed_count failed_count : nat)
| DrainSleep (processed_count failed_count : nat)
| DrainReturned (summary : option Summary).

(** The handler object, the calls of [add_to_upload_queue] that wait in
    [await reply_text] (each with the outcome its reply will have), the
    tasks made by [asyncio.create_task] in the order of their creation, the
    events of the drain tasks and the values [add_to_upload_queue] has
    returned. *)
Record EventLoop : Type := mkEventLoop {
  handler : @Handler UploadItem;
  awaiting_reply : list (outcome unit);
  drains : list drain_point;
  log : list (@event UploadItem);
  answers : list bool
}.

Definition idle_loop : EventLoop :=
  {| handler := {| upload_queue := []; is_processing := false |};
     awaiting_reply := []; drains := []; log := []; answers := [] |}.

(** [add_to_upload_queue] up to [await update.message.reply_text(..)]: the
    two early [return False], or the item appended to the queue. *)
Definition arrive (w : EventLoop) (u : Update) : EventLoop :=
  if negb (bool_decide (sender u ∈ ADMIN_IDS)) then
    {| handler := handler w; awaiting_reply := awaiting_reply w;
       drains := drains w; log := log w; answers := answers w ++ [false] |}
  else
    match upload_item u with
    | None =>
        {| handler := handler w; awaiting_reply := awaiting_reply w;
           drains := drains w; log := log w; answers := answers w ++ [false] |}
    | Some item =>
        {| handler := append_to_queue (handler w) item;
           awaiting_reply := awaiting_reply w ++ [reply u];
           drains := drains w; log := log w; answers := answers w |}
    end.

(** [add_to_upload_queue] from the end of [await reply_text]: an exception
    of the reply is caught and answered [False]; otherwise a drain task is
    created unless [is_processing] is set, and the answer is [True]. *)
Definition replied (w : EventLoop) (i : nat) : EventLoop :=
  match awaiting_reply w !! i with
  | None => w
  | Some (Raised _) =>
      {| handler := handler w; awaiting_reply := delete i (awaiting_reply w);
         drains := drains w; log := log w; answers := answers w ++ [false] |}
  | Some (Returned _) =>
      {| handler := handler w; awaiting_reply := delete i (awaiting_reply w);
         drains := if is_processing (handler w) then drains w
                   else drains w ++ [DrainCreated];
         log := log w; answers := answers w ++ [true] |}
  end.

(** The summary of the [finally] block. *)
Definition summary_of (processed_count failed_count : nat) : option Summary :=
  if ((0 <? processed_count) || (0 <? failed_count))%nat
  then Some {| processed := processed_count;
               failed := failed_count;
               total := processed_count + failed_count |}
  else None.

(** Task [k] at the test of [while self.upload_queue]: the loop ends, and
    the [finally] block clears [is_processing], or a batch is popped and
    handed to [gather]. *)
Definition loop_head (w : EventLoop) (k : nat) (processed_count failed_count : nat)
  : EventLoop :=
  match upload_queue (handler w) with
  | [] =>
      {| handler := {| upload_queue := []; is_processing := false |};
         awaiting_reply := awaiting_reply w;
         drains := <[k := DrainReturned (summary_of processed_count failed_count)]>
                     (drains w);
         log := log w; answers := answers w |}
  | item :: queue' =>
      let popped :=
        pop_batch (Nat.min MAX_CONCURRENT_UPLOADS (length (item :: queue')))
          (item :: queue') [] in
      {| handler := {| upload_queue := popped.2;
                       is_processing := is_processing (handler w) |};
         awaiting_reply := awaiting_reply w;
         drains := <[k := DrainGather popped.1 processed_count failed_count]>
                     (drains w);
         log := log w; answers := answers w |}
  end.

(** Task [k] of [_process_upload_queue] runs from where it stands to its
    next [await], or to its end. *)
Definition advance (w : EventLoop) (k : nat) : EventLoop :=
  match drains w !! k with
  | Some DrainCreated =>
      if is_processing (handler w) then
        {| handler := handler w; awaiting_reply := awaiting_reply w;
           drains := <[k := DrainReturned None]> (drains w);
           log := log w; answers := answers w |}
      else
        loop_head
          {| handler := {| upload_queue := upload_queue (handler w);
                           is_processing := true |};
             awaiting_reply := awaiting_reply w; drains := drains w;
             log := log w; answers := answers w |}
          k 0 0
  | Some (DrainGather batch processed_count failed_count) =>
      let results :=
        gather_return_exceptions (_process_single_upload upload_body <$> batch) in
      let counts := count_results results processed_count failed_count in
      match upload_queue (handler w) with
      | [] =>
          loop_head
            {| handler := handler w; awaiting_reply := awaiting_reply w;
               drains := drains w; log := log w ++ [EBatch batch results];
               answers := answers w |}
            k counts.1 counts.2
      | _ :: _ =>
          {| handler := handler w; awaiting_reply := awaiting_reply w;
             drains := <[k := DrainSleep counts.1 counts.2]> (drains w);
             log := log w ++ [EBatch batch results] ++ [ESleep BULK_UPLOAD_DELAY];
             answers := answers w |}
      end
  | Some (DrainSleep processed_count failed_count) =>
      loop_head w k processed_count failed_count
  | Some (DrainReturned _) => w
  | None => w
  end.

(** What the loop runs next: a new update reaches [add_to_upload_queue], a
    waiting [add_to_upload_queue] gets its reply, or a drain task goes on. *)
Inductive step : Type :=
| Arrive (u : Update)
| Replied (i : nat)
| Advance (k : nat).

Definition exec (w : EventLoop) (s : step) : EventLoop :=
  match s with
  | Arrive u => arrive w u
  | Replied i => replied w i
  | Advance k => advance w k
  end.

Definition run (w : EventLoop) (schedule : list step) : EventLoop :=
  foldl exec w schedule.

(** The updates of a schedule, in arrival order. *)
Definition arrived (schedule : list step) : list Update :=
  omap (λ s, match s with Arrive u => Some u | _ => None end) schedule.

(** The batch a task has handed to [gather] and not yet counted. *)
Definition batch_of (d : drain_point) : list UploadItem :=
  match d with
  | DrainGather batch _ _ => batch
  | _ => []
  end.

Definition in_flight (w : EventLoop) : list UploadItem :=
  concat (batch_of <$> drains w).

(** A task between its first pop and its [finally] block. *)
Definition active (d : drain_point) : bool :=
  match d with
  | DrainGather _ _ _ | DrainSleep _ _ => true
  | DrainCreated | DrainReturned _ => false
  end.

(** What holds of the loop when [files] are the items appended so far:
    they are the items dispatched, the batch being gathered and the queue,
    in this order; [is_processing] is set exactly while one task is active,
    and no two are; a batch holds between one and
    [MAX_CONCURRENT_UPLOADS] items; every batch of the log has one result
    per item, and every sleep is [BULK_UPLOAD_DELAY] long. *)
Definition well_run (w : EventLoop) (files : list UploadItem) : Prop :=
  dispatched (log w) ++ in_flight w ++ upload_queue (handler w) = files
  ∧ length (filter (λ d, active d = true) (drains w))
    = (if is_processing (handler w) then 1 else 0)%nat
  ∧ Forall (λ d, match d with
                 | DrainGather batch _ _ =>
                     (1 ≤ length batch ≤ MAX_CONCURRENT_UPLOADS)%nat
                 | _ => True
                 end) (drains w)
  ∧ Forall (λ b, (1 ≤ length b ≤ MAX_CONCURRENT_UPLOADS)%nat) (batches (log w))
  ∧ Forall (λ e, match e with
                 | EBatch b r => r = (λ it, GValue (succeeds upload_body it)) <$> b
                 | ESleep delay => delay = BULK_UPLOAD_DELAY
                 end) (log w).

(** The items of the updates that come from an admin and carry a file. *)
Definition admin_files (us : list Update) : list UploadItem :=
  omap (λ u, if bool_decide (sender u ∈ ADMIN_IDS) then upload_item u else None) us.

End WithItems.

(** The two links [_process_single_upload] builds for a file. *)
Definition download_link (bot_username file_id : string) : string :=
  ("https://t.me/" ++ bot_username ++ "?start=download_" ++ file_id)%string.

Definition get_link (bot_username file_id : string) : string :=
  ("https://t.me/" ++ bot_username ++ "?start=get_" ++ file_id)%string.

(** The [shortened_url] that [_process_single_upload] stores (lines
    144-154): the answer of [shorten_url] for the download link, replaced by
    the [get_] link when it is empty or the download link itself. *)
Definition stored_link (api_token bot_username file_id : string)
    (resp : get_outcome) : string :=
  let original_url := download_link bot_username file_id in
  let shortened_url := shorten_url api_token original_url resp in
  if bool_decide (shortened_url = "") || bool_decide (shortened_url = original_url)
  then get_link bot_username file_id
  else shortened_url.

End BulkUploadEntry.

(** *** Captions and display text: src/utils.py *)

Module Utils.
Import Shortener.

(** [s.split(sep)] for a separator of one character: the part before the
    first separator, and the parts after it. *)
Fixpoint split_parts (sep : ascii) (s : string) : string * list string :=
  match s with
  | EmptyString => (EmptyString, [])
  | String c s' =>
      let (p, ps) := split_parts sep s' in
      if Ascii.eqb c sep then (EmptyString, p :: ps) else (String c p, ps)
  end.

Definition split (sep : ascii) (s : string) : list string :=
  let (p, ps) := split_parts sep s in p :: ps.

(** The class [\d] on the code points below 256, and [int] of a digit. *)
Definition is_digit (c : ascii) : bool :=
  let n := nat_of_ascii c in ((48 <=? n) && (n <=? 57))%nat.

Definition digit_value (c : ascii) : Z := Z.of_nat (nat_of_ascii c - 48).

(** A match of [\d{4}] at the head of the string, as [int(match.group())]. *)
Definition leading_year (s : string) : option Z :=
  match s with
  | String a (String b (String c (String d _))) =>
      if is_digit a && is_digit b && is_digit c && is_digit d
      then Some (((digit_value a * 10 + digit_value b) * 10 + digit_value c) * 10
                 + digit_value d)
      else None
  | _ => None
  end.

(** [re.search(r'\d{4}', s)]: the leftmost match. *)
Fixpoint search_year (s : string) : option Z :=
  match leading_year s with
  | Some y => Some y
  | None =>
      match s with
      | String _ s' => search_year s'
      | EmptyString => None
      end
  end.

(** The dict returned by [parse_upload_caption]. *)
Record Caption : Type := mkCaption {
  title : string;
  year : option Z;
  quality : string;
  part_season_episode : string
}.

(** [parse_upload_caption(caption)] *)
Definition parse_upload_caption (caption : string) : option Caption :=
  if bool_decide (caption = "") then None
  else
    let parts := strip <$> split "|" caption in
    if (length parts <? 3)%nat then None
    else
      let title := default "" (parts !! 0%nat) in
      let year_str := default "" (parts !! 1%nat) in
      let quality := default "" (parts !! 2%nat) in
      let part_season_episode := default "" (parts !! 3%nat) in
      let year := if bool_decide (year_str = "") then None else search_year year_str in
      if bool_decide (title = "") || bool_decide (quality = "") then None
      else Some (mkCaption title year quality
                   (if bool_decide (part_season_episode = "") then "Complete"
                    else part_season_episode)).

Definition len (s : string) : Z := Z.of_nat (String.length s).

(** The slice [s[:k]]: a negative [k] counts from the end. *)
Definition slice_to (s : string) (k : Z) : string :=
  String.substring 0 (Z.to_nat (if k <? 0 then len s + k else k)) s.

(** [truncate_text(text, max_length)] *)
Definition truncate_text (text : string) (max_length : Z) : string :=
  if len text <=? max_length then text
  else slice_to text (max_length - 3) +:+ "...".

(** The caption [Title | Year | Quality | Part] of the upload help. *)
Definition caption_of (title year quality part : string) : string :=
  title +:+ " | " +:+ year +:+ " | " +:+ quality +:+ " | " +:+ part.

(** A field that [strip] leaves as it is, and that holds no separator. *)
Definition has_char (c : ascii) (s : string) : bool :=
  existsb (Ascii.eqb c) (list_ascii_of_string s).

Definition clean_field (s : string) : Prop :=
  s ≠ "" ∧ lstrip s = s ∧ rstrip s = s ∧ has_char "|" s = false.

(** The year as the four digits of the caption, as [f"{n:04d}"]. *)
Definition digit (k : Z) : ascii := ascii_of_nat (48 + Z.to_nat k).

Definition year_text (n : Z) : string :=
  String (digit (n / 1000)) (String (digit (n / 100 mod 10))
    (String (digit (n / 10 mod 10)) (String (digit (n mod 10)) EmptyString))).

End Utils.

(** * Properties *)

(** ** RateWindow *)

Module RateLimitFacts.
Import Time RateLimit.

Lemma action_search_not_upload : String.eqb "upload" "search" = false.
Proof. reflexivity. Qed.

(** A call on an idle bucket is admitted and opens a bucket of one use. *)
Lemma check_search_idle (tbl : gmap Z RateLimitRow) (uid now : Z) :
  search_bucket_idle tbl uid now →
  check_rate_limit tbl uid "search" now =
    (true, <[uid := mkRow (Some now) 1 None 0]> tbl).
Proof.
  unfold search_bucket_idle, check_rate_limit, replace_search.
  cbn [String.eqb Ascii.eqb Bool.eqb].
  intros Hidle. rewrite Hidle. cbn [over_limit].
  do 2 f_equal. f_equal.
  unfold select_search_count in Hidle. unfold next_search_count.
  destruct (tbl !! uid) as [r|]; [|done].
  destruct (last_search r) as [ls|]; [|done].
  by destruct (now - timedelta_minutes 1 <? ls).
Qed.

(** A call on a live bucket: denied at the limit, counted below it. *)
Lemma check_search_live (tbl : gmap Z RateLimitRow) (uid now : Z) r ls :
  tbl !! uid = Some r → last_search r = Some ls →
  now - timedelta_minutes 1 < ls →
  check_rate_limit tbl uid "search" now =
    if SEARCH_LIMIT <=? search_count r then (false, tbl)
    else (true, <[uid := mkRow (Some now) (search_count r + 1) None 0]> tbl).
Proof.
  intros Hrow Hls Hwin.
  unfold check_rate_limit, replace_search, select_search_count, next_search_count.
  cbn [String.eqb Ascii.eqb Bool.eqb].
  rewrite Hrow, Hls.
  apply Z.ltb_lt in Hwin. rewrite Hwin. cbn [over_limit].
  by destruct (SEARCH_LIMIT <=? search_count r).
Qed.

(** A denied call never writes, whatever the action. *)
Lemma check_denied_unchanged (tbl : gmap Z RateLimitRow) (uid : Z) action now :
  (check_rate_limit tbl uid action now).1 = false →
  (check_rate_limit tbl uid action now).2 = tbl.
Proof.
  unfold check_rate_limit.
  destruct (String.eqb action "search").
  - by destruct (over_limit _ SEARCH_LIMIT).
  - destruct (String.eqb action "upload"); [|done].
    by destruct (over_limit _ UPLOAD_LIMIT).
Qed.

(** Denial is exactly the full bucket of the specification. *)
Lemma check_denied_iff_full (tbl : gmap Z RateLimitRow) (uid : Z) action now :
  (check_rate_limit tbl uid action now).1 = false ↔ bucket_full tbl uid action now.
Proof.
  unfold check_rate_limit, bucket_full, select_search_count, select_upload_count.
  destruct (String.eqb_spec action "search") as [->|Hs].
  - split.
    + intros H. left. split; [done|].
      destruct (tbl !! uid) as [r|]; [|done].
      destruct (last_search r) as [ls|] eqn:Els; [|done].
      destruct (Z.ltb_spec (now - timedelta_minutes 1) ls); [|done].
      cbn [over_limit] in H.
      destruct (Z.leb_spec SEARCH_LIMIT (search_count r)); [|done].
      by exists r, ls.
    + intros [[_ (r & ls & -> & -> & Hw & Hc)] | [? _]]; [|done].
      apply Z.ltb_lt in Hw. rewrite Hw. cbn [over_limit].
      apply Z.leb_le in Hc. by rewrite Hc.
  - destruct (String.eqb_spec action "upload") as [->|Hu].
    + split.
      * intros H. right. split; [done|].
        destruct (tbl !! uid) as [r|]; [|done].
        destruct (last_upload r) as [lu|] eqn:Elu; [|done].
        destruct (Z.ltb_spec (now - timedelta_hours 1) lu); [|done].
        cbn [over_limit] in H.
        destruct (Z.leb_spec UPLOAD_LIMIT (upload_count r)); [|done].
        by exists r, lu.
      * intros [[? _] | [_ (r & lu & -> & -> & Hw & Hc)]]; [done|].
        apply Z.ltb_lt in Hw. rewrite Hw. cbn [over_limit].
        apply Z.leb_le in Hc. by rewrite Hc.
    + split; [done|]. by intros [[? _]|[? _]].
Qed.

(** C9.  When the subject's bucket for the action already holds
    limit-or-more uses inside its window, the admission check answers false
    and the table of rate-limit entries, hence the subject's count and
    timestamp, is exactly what it was. *)
Theorem denied_check_has_no_side_effect
    (tbl : gmap Z RateLimitRow) (uid : Z) (action : string) (now : Z) :
  bucket_full tbl uid action now →
  check_rate_limit tbl uid action now = (false, tbl).
Proof.
  intros Hfull.
  apply check_denied_iff_full in Hfull.
  pose proof (check_denied_unchanged tbl uid action now Hfull) as Hsnd.
  destruct (check_rate_limit tbl uid action now) as [b tbl']; simpl in *.
  by subst.
Qed.

(** The insert of an admitted call replaces the row it has just read. *)
Lemma check_search_after_admit (tbl : gmap Z RateLimitRow) (uid ls c now : Z) :
  now - timedelta_minutes 1 < ls → c < SEARCH_LIMIT →
  check_rate_limit (<[uid := mkRow (Some ls) c None 0]> tbl) uid "search" now =
    (true, <[uid := mkRow (Some now) (c + 1) None 0]> tbl).
Proof.
  intros Hw Hc.
  rewrite (check_search_live _ uid now (mkRow (Some ls) c None 0) ls);
    [|apply lookup_insert_eq|done|done].
  cbn [search_count].
  destruct (Z.leb_spec SEARCH_LIMIT c); [lia|].
  by rewrite insert_insert_eq.
Qed.

Lemma check_search_at_limit (tbl : gmap Z RateLimitRow) (uid ls c now : Z) :
  now - timedelta_minutes 1 < ls → SEARCH_LIMIT ≤ c →
  check_rate_limit (<[uid := mkRow (Some ls) c None 0]> tbl) uid "search" now =
    (false, <[uid := mkRow (Some ls) c None 0]> tbl).
Proof.
  intros Hw Hc.
  rewrite (check_search_live _ uid now (mkRow (Some ls) c None 0) ls);
    [|apply lookup_insert_eq|done|done].
  cbn [search_count].
  by destruct (Z.leb_spec SEARCH_LIMIT c); [|lia].
Qed.

(** Once a minute has passed since the stamp of the row, the bucket is idle. *)
Lemma idle_a_minute_after_stamp (tbl : gmap Z RateLimitRow) (uid ls c now : Z) :
  ls + timedelta_seconds 60 ≤ now →
  search_bucket_idle (<[uid := mkRow (Some ls) c None 0]> tbl) uid now.
Proof.
  intros H. unfold search_bucket_idle, select_search_count.
  rewrite lookup_insert_eq. cbn [last_search].
  destruct (Z.ltb_spec (now - timedelta_minutes 1) ls) as [Hlt|]; [|done].
  unfold timedelta_minutes, timedelta_seconds in *. lia.
Qed.

(** Starting from an idle bucket, six admission checks for the search
    action that all fall within 60 seconds of the first: the first five are
    admitted and the sixth is denied.  Any check made 60 seconds or more
    after the fifth call is admitted again, and the bucket restarts at one
    use. *)
Lemma sixth_search_denied_then_reset_after_last_admitted
    (tbl : gmap Z RateLimitRow) (uid t1 t2 t3 t4 t5 t6 : Z) :
  search_bucket_idle tbl uid t1 →
  Forall (λ ti, t1 ≤ ti < t1 + timedelta_seconds 60) [t2; t3; t4; t5; t6] →
  (run_checks tbl uid "search" [t1; t2; t3; t4; t5; t6]).1
    = [true; true; true; true; true; false]
  ∧ ∀ t, t5 + timedelta_seconds 60 ≤ t →
      check_rate_limit (run_checks tbl uid "search" [t1; t2; t3; t4; t5; t6]).2
        uid "search" t
      = (true, <[uid := mkRow (Some t) 1 None 0]> tbl).
Proof.
  intros Hidle Hwin.
  repeat match goal with
         | H : Forall _ (_ :: _) |- _ =>
             apply Forall_cons_1 in H; destruct H as [? H]
         end.
  assert (Hmin : timedelta_minutes 1 = timedelta_seconds 60) by reflexivity.
  cbn [run_checks].
  rewrite (check_search_idle _ _ _ Hidle).
  rewrite !check_search_after_admit by (unfold SEARCH_LIMIT; lia).
  rewrite check_search_at_limit by (unfold SEARCH_LIMIT; lia).
  cbn [fst snd]. split; [done|].
  intros t Ht.
  rewrite check_search_idle by (by apply idle_a_minute_after_stamp).
  by rewrite insert_insert_eq.
Qed.

Lemma sixth_search_denied_then_reset_after_last_admitted_witness :
  let s := timedelta_seconds in
  (run_checks ∅ 7 "search" [0; s 10; s 20; s 30; s 40; s 50]).1
    = [true; true; true; true; true; false]
  ∧ ∀ t, s 40 + s 60 ≤ t →
      check_rate_limit
        (run_checks ∅ 7 "search" [0; s 10; s 20; s 30; s 40; s 50]).2
        7 "search" t
      = (true, <[7 := mkRow (Some t) 1 None 0]> ∅).
Proof.
  apply (sixth_search_denied_then_reset_after_last_admitted ∅ 7).
  - reflexivity.
  - repeat constructor; vm_compute; congruence.
Defined.

(** C2 fails on the code.  The row keeps the instant of the last admitted
    search, not the start of the window ([last_search] is rewritten on
    every admitted call), and the counter goes on counting as long as each
    call comes less than 60 seconds after the one before.  Starting from
    an idle bucket, five checks in order, each less than 60 seconds after
    the one before, are admitted, and a sixth check less than 60 seconds
    after the fifth is denied although 60 seconds or more have passed since
    the first: at most four admitted calls lie in the minute before it, under
    the limit of the comment [(5 per minute)]. *)
Theorem sixth_search_denied_after_the_window_of_the_first
    (tbl : gmap Z RateLimitRow) (uid t1 t2 t3 t4 t5 t6 : Z) :
  search_bucket_idle tbl uid t1 →
  t1 ≤ t2 < t1 + timedelta_seconds 60 →
  t2 ≤ t3 < t2 + timedelta_seconds 60 →
  t3 ≤ t4 < t3 + timedelta_seconds 60 →
  t4 ≤ t5 < t4 + timedelta_seconds 60 →
  t5 ≤ t6 < t5 + timedelta_seconds 60 →
  t1 + timedelta_seconds 60 ≤ t6 →
  (run_checks tbl uid "search" [t1; t2; t3; t4; t5; t6]).1
    = [true; true; true; true; true; false]
  ∧ (length (filter (λ t, (t6 - timedelta_seconds 60 < t)%Z)
               [t1; t2; t3; t4; t5]) ≤ 4)%nat.
Proof.
  intros Hidle H2 H3 H4 H5 H6 Hlate.
  assert (Hmin : timedelta_minutes 1 = timedelta_seconds 60) by reflexivity.
  split.
  - cbn [run_checks].
    rewrite (check_search_idle _ _ _ Hidle).
    rewrite !check_search_after_admit by (unfold SEARCH_LIMIT; lia).
    rewrite check_search_at_limit by (unfold SEARCH_LIMIT; lia).
    done.
  - rewrite filter_cons, decide_False by lia.
    etransitivity; [apply length_filter|]. done.
Qed.

Lemma sixth_search_denied_after_the_window_of_the_first_witness :
  let s := timedelta_seconds in
  (run_checks ∅ 7 "search" [0; s 10; s 20; s 30; s 40; s 61]).1
    = [true; true; true; true; true; false]
  ∧ (length (filter (λ t, (s 61 - s 60 < t)%Z)
               [0; s 10; s 20; s 30; s 40]%Z) ≤ 4)%nat.
Proof.
  apply (sixth_search_denied_after_the_window_of_the_first ∅ 7);
    [reflexivity|vm_compute; split; congruence..|vm_compute; congruence].
Defined.

(** The same at one search every 50 seconds: the sixth is denied, with a
    single admitted call in the minute before it. *)
Example one_search_every_50_seconds_is_denied :
  let s := timedelta_seconds in
  (run_checks ∅ 7 "search" [0; s 50; s 100; s 150; s 200; s 250]).1
    = [true; true; true; true; true; false]
  ∧ filter (λ t, s 250 - s 60 < t) [0; s 50; s 100; s 150; s 200] = [s 200].
Proof. vm_compute. split; reflexivity. Qed.

(** Five calls ten seconds apart are admitted, and a check 61 seconds after
    the first of them is still denied, because it comes only 21 seconds
    after the last admitted call. *)
Lemma search_window_not_measured_from_first_call :
  let s := timedelta_seconds in
  let tbl := (run_checks ∅ 7 "search" [0; s 10; s 20; s 30; s 40]).2 in
  (run_checks ∅ 7 "search" [0; s 10; s 20; s 30; s 40]).1
    = [true; true; true; true; true]
  ∧ 0 + s 60 ≤ s 61
  ∧ (check_rate_limit tbl 7 "search" (s 61)).1 = false.
Proof. vm_compute. repeat split; congruence. Qed.

Lemma denied_check_has_no_side_effect_witness :
  let tbl : gmap Z RateLimitRow :=
    {[ 7 := mkRow (Some (timedelta_seconds 40)) 5 None 0 ]} in
  check_rate_limit tbl 7 "search" (timedelta_seconds 50) = (false, tbl).
Proof.
  apply denied_check_has_no_side_effect.
  left. split; [reflexivity|].
  eexists _, _. split; [apply lookup_singleton_eq|].
  split; [reflexivity|]. split; vm_compute; congruence.
Defined.

End RateLimitFacts.

(** ** VerificationLedger *)

Module VerificationFacts.
Import Time Models Verification.

Lemma first_pending_Some (rows : list UserVerification) tok i v :
  first_pending rows tok = Some (i, v) →
  rows !! i = Some v ∧ verification_token v = tok ∧ is_verified v = false.
Proof. unfold first_pending. by intros (? & [? ?] & _)%list_find_Some. Qed.

(** Flag updates of a row keep the column of tokens. *)
Lemma tokens_insert_same (rows : list UserVerification) i v v' :
  rows !! i = Some v → verification_token v' = verification_token v →
  verification_token <$> <[i := v']> rows = verification_token <$> rows.
Proof.
  intros Hi Htok. rewrite list_fmap_insert. apply list_insert_id.
  rewrite list_lookup_fmap, Hi. simpl. congruence.
Qed.

(** Under the UNIQUE constraint two rows with one token are one row. *)
Lemma unique_token_row (rows : list UserVerification) i j v w :
  NoDup (verification_token <$> rows) →
  rows !! i = Some v → rows !! j = Some w →
  verification_token v = verification_token w → i = j.
Proof.
  intros Hnd Hi Hj Heq.
  eapply NoDup_lookup; [exact Hnd| |]; rewrite list_lookup_fmap.
  - rewrite Hi. reflexivity.
  - rewrite Hj. simpl. congruence.
Qed.

(** Under the UNIQUE constraint the unverified row of a token is the one
    the lookup returns. *)
Lemma first_pending_of_row (rows : list UserVerification) v :
  NoDup (verification_token <$> rows) →
  v ∈ rows → is_verified v = false →
  ∃ i, rows !! i = Some v ∧
       first_pending rows (verification_token v) = Some (i, v).
Proof.
  intros Hnd [i Hi]%list_elem_of_lookup Hver.
  exists i. split; [done|].
  apply list_find_Some. split_and!; [done..|].
  intros j y Hj Hlt [Htok _].
  assert (j = i) by (eapply unique_token_row; eauto). lia.
Qed.

(** Once its row is verified the token has no pending row left. *)
Lemma first_pending_after_verified (rows : list UserVerification) i v t :
  NoDup (verification_token <$> rows) → rows !! i = Some v →
  first_pending (<[i := set_verified v t]> rows) (verification_token v) = None.
Proof.
  intros Hnd Hi. apply list_find_None, Forall_lookup.
  intros j y Hj [Htok Hver].
  destruct (decide (i = j)) as [<-|Hne].
  - rewrite list_lookup_insert_eq in Hj by eauto using lookup_lt_Some.
    by injection Hj as <-.
  - rewrite list_lookup_insert_ne in Hj by done.
    apply Hne. eapply unique_token_row; eauto.
Qed.

(** What a successful resolution did. *)
Lemma verify_success_inv d tok tv ts tm r d' :
  verify_user_by_token d tok tv ts tm = (Returned r, d') →
  success r = true →
  ∃ i v u c,
    first_pending (user_verifications d) tok = Some (i, v)
    ∧ is_valid v tv = true
    ∧ users d !! user_id v = Some u
    ∧ verification_count u = Some c
    ∧ r = success_result v
    ∧ d' = with_user
             (with_verifications d
                (<[i := set_verified v ts]> (user_verifications d)))
             (user_id v) (mkUser (Some tm) (Some (c + 1))).
Proof.
  unfold verify_user_by_token.
  destruct (first_pending (user_verifications d) tok) as [[i v]|] eqn:Hfind;
    [|by intros [= <- <-]].
  destruct (is_valid v tv) eqn:Hvalid; cbn [negb]; [|by intros [= <- <-]].
  destruct (users d !! user_id v) as [u|] eqn:Hu; [|by cbn].
  unfold mark_verified.
  destruct (verification_count u) as [c|] eqn:Hc; [|done].
  intros [= <- <-] _. exists i, v, u, c. by split_and!.
Qed.

(** *** The UNIQUE constraint is an invariant of the ledger *)

Lemma tokens_unique_empty : tokens_unique empty_db.
Proof. constructor. Qed.

Lemma tokens_unique_create BOT d uid mid tok resp ts te tc req d' :
  tokens_unique d →
  create_verification_request BOT d uid mid tok resp ts te tc = (Returned req, d') →
  tokens_unique d'.
Proof.
  unfold tokens_unique, create_verification_request, commit_accepts.
  intros Hnd.
  destruct (_create_short_url BOT _ tok resp ts) as [short pending].
  cbn [verification_token short_url].
  case_bool_decide as Hfresh; [|by cbn].
  cbn [andb].
  match goal with |- context [if ?c then _ else _] => destruct c end; [|done].
  intros [= _ <-]. cbn. rewrite fmap_app. apply NoDup_app.
  split_and!; [done| |apply NoDup_singleton].
  intros x Hx ->%list_elem_of_singleton. done.
Qed.

Lemma tokens_unique_verify d tok tv ts tm o d' :
  tokens_unique d →
  verify_user_by_token d tok tv ts tm = (o, d') → tokens_unique d'.
Proof.
  unfold tokens_unique, verify_user_by_token. intros Hnd.
  destruct (first_pending (user_verifications d) tok) as [[i v]|] eqn:Hfind;
    [|by intros [= _ <-]].
  apply first_pending_Some in Hfind as (Hi & _ & _).
  destruct (is_valid v tv); cbn [negb].
  - destruct (mark_verified _ tm); intros [= _ <-]; [|done].
    cbn. by rewrite (tokens_insert_same _ _ v).
  - intros [= _ <-]. cbn. by rewrite (tokens_insert_same _ _ v).
Qed.

Lemma tokens_unique_cleanup d now :
  tokens_unique d → tokens_unique (cleanup_expired_verifications d now).2.
Proof.
  unfold tokens_unique, cleanup_expired_verifications. cbn.
  intros Hnd. rewrite <- list_fmap_compose.
  erewrite list_fmap_ext; [exact Hnd|].
  intros i v _. cbn. by destruct (_ && _).
Qed.

Lemma tokens_unique_start_command d uid :
  tokens_unique d → tokens_unique (start_command_save_user d uid).
Proof.
  unfold tokens_unique, start_command_save_user.
  by destruct (users d !! uid).
Qed.

(** *** Resolution *)

(** C4.  In a ledger with unique tokens, a token whose resolution has
    succeeded cannot be resolved again: a second call with the same token,
    at any time, answers with the not-found failure and returns the
    database unchanged, so the subject's [last_verified] stamp and
    verification count are not touched a second time. *)
Theorem resolved_token_is_not_resolved_twice
    (d : Db) (tok : string) (tv ts tm : Z) (r : VerifyResult) (d' : Db)
    (tv' ts' tm' : Z) :
  tokens_unique d →
  verify_user_by_token d tok tv ts tm = (Returned r, d') →
  success r = true →
  verify_user_by_token d' tok tv' ts' tm' = (Returned not_found_result, d').
Proof.
  intros Hnd Hrun Hok.
  apply verify_success_inv in Hrun as (i & v & u & c & Hfind & _ & _ & _ & _ & ->);
    [|done].
  apply first_pending_Some in Hfind as (Hi & <- & _).
  unfold verify_user_by_token. cbn [user_verifications with_user with_verifications].
  by rewrite first_pending_after_verified.
Qed.

Lemma resolved_token_is_not_resolved_twice_witness :
  let d' := (verify_user_by_token one_challenge "0123456789abcdef" 5 5 5).2 in
  verify_user_by_token d' "0123456789abcdef" 6 6 6 = (Returned not_found_result, d').
Proof.
  intros d'.
  eapply (resolved_token_is_not_resolved_twice one_challenge "0123456789abcdef"
            5 5 5).
  - vm_compute. apply NoDup_singleton.
  - vm_compute. reflexivity.
  - reflexivity.
Defined.



(** A verified token is terminal: at whatever instant it is resolved
    again, before or after its expiry, the answer is not-found and the
    database stays as it is. *)
Theorem verified_token_is_answered_not_found
    (d : Db) (v : UserVerification) (tv ts tm : Z) :
  tokens_unique d →
  v ∈ user_verifications d → is_verified v = true →
  verify_user_by_token d (verification_token v) tv ts tm
  = (Returned not_found_result, d).
Proof.
  intros Hnd [i Hi]%list_elem_of_lookup Hver.
  unfold verify_user_by_token.
  destruct (first_pending (user_verifications d) (verification_token v))
    as [[j w]|] eqn:Hfind; [|done].
  apply first_pending_Some in Hfind as (Hj & Htok & Hw).
  assert (j = i) by (eapply unique_token_row; eauto). subst j.
  congruence.
Qed.

Lemma verified_token_is_answered_not_found_witness :
  let d := (verify_user_by_token one_challenge "0123456789abcdef" 5 5 5).2 in
  let late := timedelta_hours 25 in
  verify_user_by_token d "0123456789abcdef" late late late
  = (Returned not_found_result, d).
Proof.
  intros d late.
  apply (verified_token_is_answered_not_found d
           (mkVerification 1 1 9 "0123456789abcdef"
              (Some "https://t.me/bot?start=verify_0123456789abcdef")
              "https://t.me/bot?start=verify_0123456789abcdef"
              0 (timedelta_hours 24) (Some 5) true false)).
  - vm_compute. apply NoDup_singleton.
  - vm_compute. apply list_elem_of_here.
  - reflexivity.
Defined.

(** *** The access window *)

Lemma window_open_iff (d : Db) (uid now : Z) :
  window_open d uid now = true ↔
  ∃ u lv, users d !! uid = Some u ∧ last_verified u = Some lv
          ∧ now - lv < timedelta_hours 24.
Proof.
  unfold window_open, check_user_verification_status, is_verified_today.
  destruct (users d !! uid) as [u|]; cbn;
    [|split; [done|by intros (? & ? & ? & _)]].
  destruct (last_verified u) as [lv|] eqn:Hlv; cbn;
    [|split; [done|intros (? & ? & [= <-] & ? & _); congruence]].
  destruct (Z.ltb_spec (now - lv) (timedelta_hours 24)); cbn.
  - split; [|done]. intros _. by exists u, lv.
  - split; [done|]. intros (u' & lv' & [= <-] & Hlv' & Hlt).
    rewrite Hlv in Hlv'. injection Hlv' as <-. lia.
Qed.

(** C6.  After a successful resolution of a token, the subject the token is
    bound to has [last_verified] equal to the instant read by
    [mark_verified]; its window is open at that instant and, at any later or
    earlier instant [now], open exactly when [now - last_verified < 24h], so
    it is closed once 24 hours or more have elapsed.  For every ledger and
    subject the window is open iff a stamp of a successful verification is
    stored and is less than 24 hours old. *)
Theorem window_open_after_success_for_24h
    (d : Db) (tok : string) (tv ts tm : Z) (r : VerifyResult) (d' : Db) :
  verify_user_by_token d tok tv ts tm = (Returned r, d') →
  success r = true →
  ∃ uid,
    res_user_id r = Some uid
    ∧ (∃ v, v ∈ user_verifications d ∧ verification_token v = tok
            ∧ user_id v = uid)
    ∧ (∃ u', users d' !! uid = Some u' ∧ last_verified u' = Some tm)
    ∧ window_open d' uid tm = true
    ∧ (∀ now, window_open d' uid now = true ↔ now - tm < timedelta_hours 24)
    ∧ (∀ now, tm + timedelta_hours 24 ≤ now → window_open d' uid now = false)
    ∧ (∀ d0 uid0 now,
         window_open d0 uid0 now = true ↔
         ∃ u lv, users d0 !! uid0 = Some u ∧ last_verified u = Some lv
                 ∧ now - lv < timedelta_hours 24).
Proof.
  intros Hrun Hok.
  apply verify_success_inv in Hrun
    as (i & v & u & c & Hfind & _ & _ & _ & -> & ->); [|done].
  apply first_pending_Some in Hfind as (Hi & Htok & _).
  assert (Hopen : ∀ now,
    window_open
      (with_user
         (with_verifications d (<[i := set_verified v ts]> (user_verifications d)))
         (user_id v) (mkUser (Some tm) (Some (c + 1)))) (user_id v) now = true
    ↔ now - tm < timedelta_hours 24).
  { intros now. rewrite window_open_iff. cbn [users with_user with_verifications].
    rewrite lookup_insert_eq. split.
    - by intros (u' & lv & [= <-] & [= <-] & Hlt).
    - intros Hlt. by eexists _, _. }
  exists (user_id v). split_and!.
  - reflexivity.
  - exists v. split_and!; [|done..]. by eapply list_elem_of_lookup_2.
  - eexists. cbn [users with_user]. by rewrite lookup_insert_eq.
  - apply Hopen. unfold timedelta_hours, second. lia.
  - apply Hopen.
  - intros now Hlate. apply not_true_is_false. rewrite Hopen. lia.
  - apply window_open_iff.
Qed.

Lemma window_open_after_success_for_24h_witness :
  let d' := (verify_user_by_token one_challenge "0123456789abcdef" 5 5 5).2 in
  ∃ uid,
    Some 1 = Some uid
    ∧ (∃ v, v ∈ user_verifications one_challenge
            ∧ verification_token v = "0123456789abcdef" ∧ user_id v = uid)
    ∧ (∃ u', users d' !! uid = Some u' ∧ last_verified u' = Some 5)
    ∧ window_open d' uid 5 = true
    ∧ (∀ now, window_open d' uid now = true ↔ now - 5 < timedelta_hours 24)
    ∧ (∀ now, 5 + timedelta_hours 24 ≤ now → window_open d' uid now = false)
    ∧ (∀ d0 uid0 now,
         window_open d0 uid0 now = true ↔
         ∃ u lv, users d0 !! uid0 = Some u ∧ last_verified u = Some lv
                 ∧ now - lv < timedelta_hours 24).
Proof.
  intros d'.
  apply (window_open_after_success_for_24h one_challenge "0123456789abcdef"
           5 5 5 (mkResult true (Some 1) (Some 9) MsgVerificationSuccessful) d').
  - vm_compute. reflexivity.
  - reflexivity.
Defined.

(** *** Issuing *)





(** *** Statistics *)

Lemma filter_by_flag_splits (f : UserVerification → bool) (rows : list UserVerification) :
  (length (filter (λ v, f v = false) rows) + length (filter (λ v, f v = true) rows)
   = length rows)%nat.
Proof.
  induction rows as [|v rows IH]; [done|].
  rewrite !filter_cons. destruct (f v) eqn:Hf.
  - rewrite decide_False, decide_True by done. cbn. lia.
  - rewrite decide_True, decide_False by done. cbn. lia.
Qed.

Lemma filter_length_mono (P Q : UserVerification → Prop)
    `{!∀ v, Decision (P v)} `{!∀ v, Decision (Q v)} (rows : list UserVerification) :
  (∀ v, P v → Q v) →
  (length (filter P rows) ≤ length (filter Q rows))%nat.
Proof.
  intros HPQ. induction rows as [|v rows IH]; [done|].
  rewrite !filter_cons. destruct (decide (P v)) as [HP|HP].
  - rewrite decide_True by auto. cbn. lia.
  - destruct (decide (Q v)); cbn; lia.
Qed.

(** C10.  In the statistics the pending count is the number of rows with
    [is_verified = false] and the verified count the number with
    [is_verified = true], so pending plus verified is the total; every row
    flagged expired and not verified is counted both as pending and as
    expired, so the three counts add up to the total plus the expired
    count: they do not partition the rows. *)
Theorem stats_pending_verified_expired_overlap (d : Db) (now : Z) :
  let st := get_verification_stats d now in
  let rows := user_verifications d in
  let overlap :=
    length (filter (λ v, is_expired v = true ∧ is_verified v = false) rows) in
  pending_verifications st = length (filter (λ v, is_verified v = false) rows)
  ∧ successful_verifications st = length (filter (λ v, is_verified v = true) rows)
  ∧ (pending_verifications st + successful_verifications st
     = total_verifications st)%nat
  ∧ (∀ v, v ∈ rows → is_expired v = true → is_verified v = false →
          v ∈ filter (λ v, is_verified v = false) rows
          ∧ v ∈ filter (λ v, is_expired v = true) rows)
  ∧ (overlap ≤ pending_verifications st)%nat
  ∧ (overlap ≤ expired_verifications st)%nat
  ∧ (pending_verifications st + successful_verifications st
       + expired_verifications st
     = total_verifications st + expired_verifications st)%nat
  ∧ ((0 < overlap)%nat →
     (total_verifications st
      < pending_verifications st + successful_verifications st
        + expired_verifications st)%nat).
Proof.
  intros st rows overlap. subst st rows overlap.
  unfold get_verification_stats.
  cbn [pending_verifications successful_verifications total_verifications
       expired_verifications].
  pose proof (filter_by_flag_splits is_verified (user_verifications d)) as Hsplit.
  assert (Hexp :
    (length (filter (λ v, is_expired v = true ∧ is_verified v = false)
               (user_verifications d))
     ≤ length (filter (λ v, is_expired v = true) (user_verifications d)))%nat).
  { apply filter_length_mono. by intros v [? _]. }
  split_and!; [done|done|done| | |done|lia|lia].
  - intros v Hin Hflag Hver. split; by apply list_elem_of_filter.
  - apply filter_length_mono. by intros v [_ ?].
Qed.

(** A ledger where the three counts overlap: the only token expired
    unresolved, so it is counted as pending and as expired. *)
Example stats_of_expired_challenge :
  let late := timedelta_hours 25 in
  let d := (verify_user_by_token one_challenge "0123456789abcdef" late late late).2 in
  get_verification_stats d late
  = {| total_verifications := 1; successful_verifications := 0;
       pending_verifications := 1; expired_verifications := 1;
       today_verifications := 0 |}.
Proof. vm_compute. reflexivity. Qed.

End VerificationFacts.

(** ** Link shortener *)

Module ShortenerFacts.
Import Time Models Verification Shortener.

(** The service wrapper never fabricates: every failure gives back the URL
    it was asked to shorten. *)
Lemma shorten_url_falls_back_to_original (api_token original_url : string)
    (resp : get_outcome) :
  api_token = ""
  ∨ (∃ e, resp = GetRaises e)
  ∨ (∃ status text, resp = GetResponse status text ∧ status ≠ 200)
  ∨ (∃ e, resp = GetResponse 200 (Raised e))
  ∨ (∃ body, resp = GetResponse 200 (Returned body)
             ∧ (strip body = "" ∨ String.prefix "http" (strip body) = false)) →
  shorten_url api_token original_url resp = original_url.
Proof.
  unfold shorten_url.
  intros [-> | Hfail]; [done|].
  case_bool_decide; [done|].
  destruct Hfail as [[e ->] | [(status & text & -> & Hne) | [[e ->] | (body & -> & Hbad)]]].
  - done.
  - by destruct (Z.eqb_spec status 200).
  - done.
  - cbn. destruct Hbad as [-> | ->]; [done|]. by rewrite andb_false_r.
Qed.

(** Inside the ledger an exception of the request, or a body that cannot be
    read as a JSON object, gives back the verification link itself. *)
Lemma create_short_url_on_exception (BOT original_url tok : string) (now : Z) e :
  _create_short_url BOT original_url tok (PostRaises e) now
    = (Some (verify_link BOT tok), [])
  ∧ _create_short_url BOT original_url tok (PostResponse 200 JsonUnusable) now
    = (Some (verify_link BOT tok), []).
Proof. done. Qed.

Lemma short_link_is_not_verify_link (BOT tok : string) :
  short_link_fallback tok ≠ verify_link BOT tok.
Proof.
  unfold short_link_fallback, verify_link.
  intros H. cbv [String.append] in H. congruence.
Qed.

(** C3 fails on the code.  When the shortener answers with a status other
    than 200, here 500, the challenge-issuing path does not return the
    callback URL: it returns a made-up [https://short.link/] address built
    from the first eight characters of the token, stores it as the
    challenge's [short_url] and hands it to the caller. *)
Theorem create_short_url_fabricates_on_http_error
    (BOT tok : string) (d : Db) (uid mid : Z) (body : json_body) (ts te tc : Z) :
  let original_url := verify_link BOT tok in
  (_create_short_url BOT original_url tok (PostResponse 500 body) ts).1
    = Some (short_link_fallback tok)
  ∧ short_link_fallback tok ≠ original_url
  ∧ ∀ req d',
      create_verification_request BOT d uid mid tok (PostResponse 500 body) ts te tc
        = (Returned req, d') →
      req_short_url req = Some (short_link_fallback tok)
      ∧ req_short_url req ≠ Some original_url.
Proof.
  intros original_url. split_and!.
  - reflexivity.
  - apply short_link_is_not_verify_link.
  - unfold create_verification_request. cbn [_create_short_url Z.eqb Pos.eqb].
    intros req d'.
    match goal with |- context [if ?c then _ else _] => destruct c end; [|done].
    intros [= <- _]. cbn [req_short_url]. split; [done|].
    intros H. apply (short_link_is_not_verify_link BOT tok).
    subst original_url. congruence.
Qed.

(** The same on a 200 answer whose [status] field is not [success]. *)
Lemma create_short_url_fabricates_on_api_failure
    (BOT original_url tok : string) (st shortened : option string) (now : Z) :
  st ≠ Some "success" →
  _create_short_url BOT original_url tok (PostResponse 200 (JsonObject st shortened)) now
    = (Some (short_link_fallback tok), []).
Proof. intros Hst. cbn. by rewrite bool_decide_eq_false_2. Qed.

Example fabricated_link_for_status_500 :
  (create_verification_request "bot" (start_command_save_user empty_db 1) 1 9
     "0123456789abcdef" (PostResponse 500 JsonUnusable) 0 0 0).1
  = Returned {| req_verification_token := "0123456789abcdef";
                req_short_url := Some "https://short.link/01234567";
                req_expires_at := timedelta_hours 24;
                req_verification_id := 1 |}.
Proof. vm_compute. reflexivity. Qed.

Example shorten_url_strips_the_answer :
  shorten_url "key" "https://t.me/bot?start=download_1"
    (GetResponse 200 (Returned " https://inshorturl.com/a1 "))
  = "https://inshorturl.com/a1".
Proof. vm_compute. reflexivity. Qed.

Example shorten_url_keeps_original_on_503 :
  shorten_url "key" "https://t.me/bot?start=download_1"
    (GetResponse 503 (Returned "Service Unavailable"))
  = "https://t.me/bot?start=download_1".
Proof. vm_compute. reflexivity. Qed.

End ShortenerFacts.

(** ** IngestQueue *)

Module BulkUploadFacts.
Import Time BulkUpload BulkUploadEntry.

Section WithItems.
Context {UploadItem : Type}.
Variable ADMIN_IDS : list Z.
Variable upload_body : UploadItem → outcome Z.

(** [_process_single_upload] never raises: an exception of the work on the
    item becomes the answer [False]. *)
Lemma process_single_upload_returns (item : UploadItem) :
  _process_single_upload upload_body item = Returned (succeeds upload_body item).
Proof.
  unfold _process_single_upload, succeeds, try_except.
  by destruct (upload_body item).
Qed.

Lemma gather_batch (batch : list UploadItem) :
  gather_return_exceptions (_process_single_upload upload_body <$> batch)
  = (λ item, GValue (succeeds upload_body item)) <$> batch.
Proof.
  unfold gather_return_exceptions. rewrite <- list_fmap_compose.
  apply list_fmap_ext. intros i item _. cbn.
  by rewrite process_single_upload_returns.
Qed.

Lemma count_results_batch (batch : list UploadItem) (p f : nat) :
  count_results ((λ item, GValue (succeeds upload_body item)) <$> batch) p f
  = ((p + length (filter (λ item, succeeds upload_body item = true) batch))%nat,
     (f + length (filter (λ item, succeeds upload_body item = false) batch))%nat).
Proof.
  revert p f. induction batch as [|item batch IH]; intros p f.
  - cbn. f_equal; lia.
  - rewrite fmap_cons, !filter_cons. cbn [count_results].
    destruct (succeeds upload_body item) eqn:Hs; rewrite IH.
    + rewrite decide_True, decide_False by done. cbn [length]. f_equal; lia.
    + rewrite decide_False, decide_True by done. cbn [length]. f_equal; lia.
Qed.

Lemma pop_batch_take_drop (n : nat) (queue batch : list UploadItem) :
  pop_batch n queue batch = (batch ++ take n queue, drop n queue).
Proof.
  revert queue batch. induction n as [|n IH]; intros queue batch; cbn.
  - by rewrite app_nil_r.
  - destruct queue as [|item queue]; rewrite IH.
    + by rewrite take_nil, drop_nil.
    + cbn. by rewrite <- app_assoc.
Qed.

Lemma take_min_length (n : nat) (l : list UploadItem) :
  take (Nat.min n (length l)) l = take n l.
Proof.
  destruct (Nat.le_ge_cases n (length l)).
  - by rewrite Nat.min_l.
  - rewrite Nat.min_r by done. by rewrite !take_ge.
Qed.

Lemma drop_min_length (n : nat) (l : list UploadItem) :
  drop (Nat.min n (length l)) l = drop n l.
Proof.
  destruct (Nat.le_ge_cases n (length l)).
  - by rewrite Nat.min_l.
  - rewrite Nat.min_r by done. by rewrite !drop_ge.
Qed.

(** One turn of the [while] loop on a non-empty queue. *)
Lemma drain_loop_step (item : UploadItem) (queue : list UploadItem)
    (p f : nat) (trace : list (@event UploadItem)) :
  let batch := take MAX_CONCURRENT_UPLOADS (item :: queue) in
  let rest := drop MAX_CONCURRENT_UPLOADS (item :: queue) in
  let results := (λ it, GValue (succeeds upload_body it)) <$> batch in
  drain_loop upload_body (item :: queue) p f trace
  = drain_loop upload_body rest
      (p + length (filter (λ it, succeeds upload_body it = true) batch))
      (f + length (filter (λ it, succeeds upload_body it = false) batch))
      (trace ++ [EBatch batch results]
             ++ match rest with [] => [] | _ :: _ => [ESleep BULK_UPLOAD_DELAY] end).
Proof.
  intros batch rest results.
  rewrite drain_loop_equation_2. cbv zeta.
  rewrite pop_batch_take_drop. cbn [fst snd app].
  rewrite take_min_length, drop_min_length.
  fold batch rest. rewrite gather_batch. fold results.
  unfold results at 1 2. rewrite count_results_batch. reflexivity.
Qed.

Lemma ceil_div_step (n : nat) :
  (S ((S n - 5 + 4) / 5) = (S n + 4) / 5)%nat.
Proof.
  destruct (Nat.le_gt_cases (S n) 5) as [Hle|Hgt].
  - replace (S n - 5 + 4)%nat with 4%nat by lia.
    rewrite (Nat.div_small 4 5) by lia.
    apply (Nat.div_unique (S n + 4) 5 1 n); lia.
  - replace (S n + 4)%nat with ((S n - 5 + 4) + 1 * 5)%nat by lia.
    rewrite Nat.div_add by lia. lia.
Qed.

Lemma filter_take_drop (P : UploadItem → Prop) `{!∀ x, Decision (P x)}
    (n : nat) (l : list UploadItem) :
  (length (filter P (take n l)) + length (filter P (drop n l))
   = length (filter P l))%nat.
Proof.
  rewrite <- (take_drop n l) at 3. by rewrite filter_app, length_app.
Qed.

Lemma drained_nil : drained upload_body [] [].
Proof.
  unfold drained. by split_and!.
Qed.

(** The loop empties the queue, counts every item once and appends a
    well-formed run of events. *)
Lemma drain_loop_spec (n : nat) :
  ∀ (queue : list UploadItem), (length queue ≤ n)%nat →
  ∀ (p f : nat) (trace : list (@event UploadItem)),
  ∃ ev,
    drain_loop upload_body queue p f trace
    = ([],
       ((p + length (filter (λ it, succeeds upload_body it = true) queue))%nat,
        (f + length (filter (λ it, succeeds upload_body it = false) queue))%nat),
       trace ++ ev)
    ∧ drained upload_body queue ev.
Proof.
  induction n as [|n IH]; intros queue Hlen p f trace.
  all: destruct queue as [|item queue]; [|cbn in Hlen; try lia].
  1,2: exists []; rewrite drain_loop_equation_1, app_nil_r; cbn;
       rewrite !Nat.add_0_r; split; [done|apply drained_nil].
  rewrite drain_loop_step.
  set (l := item :: queue).
  set (batch := take MAX_CONCURRENT_UPLOADS l).
  set (rest := drop MAX_CONCURRENT_UPLOADS l).
  set (results := (λ it, GValue (succeeds upload_body it)) <$> batch).
  set (pause := match rest with [] => [] | _ :: _ => [ESleep BULK_UPLOAD_DELAY] end).
  assert (Hrest : (length rest ≤ n)%nat).
  { subst rest l. rewrite length_drop. cbn. lia. }
  destruct (IH rest Hrest
              (p + length (filter (λ it, succeeds upload_body it = true) batch))%nat
              (f + length (filter (λ it, succeeds upload_body it = false) batch))%nat
              (trace ++ [EBatch batch results] ++ pause))
    as (ev & -> & Hnil & Hcons & Hpaced & Hcount & Hith & Hsize & Hall & Hres).
  assert (Hb : batches ([EBatch batch results] ++ pause ++ ev)
               = batch :: batches ev).
  { subst pause. by destruct rest. }
  exists ([EBatch batch results] ++ pause ++ ev). split.
  - f_equal; [f_equal|].
    + f_equal.
      * rewrite <- Nat.add_assoc. f_equal. apply filter_take_drop.
      * rewrite <- Nat.add_assoc. f_equal. apply filter_take_drop.
    + by rewrite <- !app_assoc.
  - unfold drained. split_and!.
    + done.
    + intros _. by eexists _, _, _.
    + destruct rest as [|y rest'] eqn:Erest.
      * rewrite Hnil by done. done.
      * destruct Hcons as (b' & r' & ev' & ->); [done|].
        subst pause. cbn [app paced]. cbn [app paced] in Hpaced.
        by rewrite Z.eqb_refl, Hpaced.
    + rewrite Hb. cbn [length]. rewrite Hcount.
      subst rest l. rewrite length_drop. apply ceil_div_step.
    + rewrite Hb. intros [|i] b.
      * intros [= <-]. by rewrite Nat.mul_0_r.
      * cbn [lookup list_lookup]. intros Hb'. apply Hith in Hb'.
        subst rest. rewrite drop_drop in Hb'.
        by replace (MAX_CONCURRENT_UPLOADS * S i)%nat
          with (MAX_CONCURRENT_UPLOADS + MAX_CONCURRENT_UPLOADS * i)%nat by lia.
    + rewrite Hb. apply Forall_cons. split; [|done].
      subst batch l. rewrite length_take.
      unfold MAX_CONCURRENT_UPLOADS. cbn [length]. lia.
    + unfold dispatched. rewrite Hb. cbn [concat].
      unfold dispatched in Hall. rewrite Hall. apply take_drop.
    + apply Forall_app. split; [by apply Forall_singleton|].
      apply Forall_app. split; [|done].
      subst pause. destruct rest; [done|by apply Forall_singleton].
Qed.

Lemma every_item_succeeds_or_fails (queue : list UploadItem) :
  (length (filter (λ it, succeeds upload_body it = true) queue)
   + length (filter (λ it, succeeds upload_body it = false) queue)
   = length queue)%nat.
Proof.
  induction queue as [|item queue IH]; [done|].
  rewrite !filter_cons. destruct (succeeds upload_body item) eqn:Hs.
  - rewrite decide_True, decide_False by done. cbn [length]. lia.
  - rewrite decide_False, decide_True by done. cbn [length]. lia.
Qed.

(** A drain that finds the handler busy returns at once. *)
Lemma busy_handler_is_left_alone (queue : list UploadItem) :
  _process_upload_queue upload_body {| upload_queue := queue; is_processing := true |}
  = (Returned None, {| upload_queue := queue; is_processing := true |}, []).
Proof. reflexivity. Qed.

(** The drain of an idle handler, in terms of the loop. *)
Lemma process_upload_queue_idle (queue : list UploadItem) :
  ∃ ev,
    let ok := length (filter (λ it, succeeds upload_body it = true) queue) in
    let ko := length (filter (λ it, succeeds upload_body it = false) queue) in
    _process_upload_queue upload_body
      {| upload_queue := queue; is_processing := false |}
    = (Returned (if ((0 <? ok) || (0 <? ko))%nat
                 then Some {| processed := ok; failed := ko; total := ok + ko |}
                 else None),
       {| upload_queue := []; is_processing := false |}, ev)
    ∧ drained upload_body queue ev.
Proof.
  destruct (drain_loop_spec (length queue) queue (Nat.le_refl _) 0 0 [])
    as (ev & Hrun & Hev).
  exists ev. cbv zeta. split; [|done].
  unfold _process_upload_queue. cbn [is_processing upload_queue].
  by rewrite Hrun.
Qed.

(** *** The drain as a task of the event loop *)

(** A task that has returned takes no further step. *)
Lemma returned_task_stays (w : @EventLoop UploadItem) (k : nat) summary (m : nat) :
  drains w !! k = Some (DrainReturned summary) →
  run ADMIN_IDS upload_body w (replicate m (Advance k)) = w.
Proof.
  intros Hk. induction m as [|m IH]; [done|].
  cbn [replicate run foldl exec]. unfold advance. rewrite Hk. apply IH.
Qed.

(** The test of the loop on a non-empty queue: the batch is the first five
    items, fewer when the queue is shorter. *)
Lemma loop_head_pops_the_head (w : @EventLoop UploadItem) (k p f : nat) :
  upload_queue (handler w) ≠ [] →
  loop_head w k p f
  = {| handler :=
         {| upload_queue := drop MAX_CONCURRENT_UPLOADS (upload_queue (handler w));
            is_processing := is_processing (handler w) |};
       awaiting_reply := awaiting_reply w;
       drains :=
         <[k := DrainGather (take MAX_CONCURRENT_UPLOADS (upload_queue (handler w))) p f]>
           (drains w);
       log := log w; answers := answers w |}.
Proof.
  intros Hne. unfold loop_head.
  destruct (upload_queue (handler w)) as [|item queue]; [done|].
  cbv zeta. rewrite pop_batch_take_drop. cbn [fst snd app].
  by rewrite take_min_length, drop_min_length.
Qed.

Lemma loop_head_ends (w : @EventLoop UploadItem) (k p f : nat) :
  upload_queue (handler w) = [] →
  loop_head w k p f
  = {| handler := {| upload_queue := []; is_processing := false |};
       awaiting_reply := awaiting_reply w;
       drains := <[k := DrainReturned (summary_of p f)]> (drains w);
       log := log w; answers := answers w |}.
Proof. intros Hq. unfold loop_head. by rewrite Hq. Qed.

(** The end of [gather]: one result per item of the batch, counted. *)
Lemma advance_after_gather (w : @EventLoop UploadItem) (k : nat)
    (batch : list UploadItem) (p f : nat) :
  drains w !! k = Some (DrainGather batch p f) →
  let results := (λ it, GValue (succeeds upload_body it)) <$> batch in
  let p' := (p + length (filter (λ it, succeeds upload_body it = true) batch))%nat in
  let f' := (f + length (filter (λ it, succeeds upload_body it = false) batch))%nat in
  advance upload_body w k
  = match upload_queue (handler w) with
    | [] =>
        {| handler := {| upload_queue := []; is_processing := false |};
           awaiting_reply := awaiting_reply w;
           drains := <[k := DrainReturned (summary_of p' f')]> (drains w);
           log := log w ++ [EBatch batch results]; answers := answers w |}
    | _ :: _ =>
        {| handler := handler w; awaiting_reply := awaiting_reply w;
           drains := <[k := DrainSleep p' f']> (drains w);
           log := log w ++ [EBatch batch results] ++ [ESleep BULK_UPLOAD_DELAY];
           answers := answers w |}
    end.
Proof.
  intros Hk. cbv zeta. unfold advance. rewrite Hk. cbv zeta.
  rewrite gather_batch, count_results_batch. cbn [fst snd].
  destruct (upload_queue (handler w)) eqn:Hq; [|done].
  by rewrite loop_head_ends.
Qed.

(** A task at the test of its loop, run alone: it ends after at most two
    steps per queued item, and what it leaves is what [drain_loop] computes
    from the queue, the counters and the log. *)
Lemma drain_runs_to_its_end (n : nat) :
  ∀ (w : @EventLoop UploadItem) (k p f m : nat),
    (length (upload_queue (handler w)) ≤ n)%nat →
    (k < length (drains w))%nat →
    (2 * n ≤ m)%nat →
    let r := drain_loop upload_body (upload_queue (handler w)) p f (log w) in
    run ADMIN_IDS upload_body (loop_head w k p f) (replicate m (Advance k))
    = {| handler := {| upload_queue := []; is_processing := false |};
         awaiting_reply := awaiting_reply w;
         drains := <[k := DrainReturned (summary_of r.1.2.1 r.1.2.2)]> (drains w);
         log := r.2; answers := answers w |}.
Proof.
  induction n as [|n IH]; intros w k p f m Hlen Hk Hm; cbv zeta.
  all: destruct (upload_queue (handler w)) as [|item queue] eqn:Hq;
    [|cbn [length] in Hlen; try lia].
  1,2: rewrite loop_head_ends by done; rewrite drain_loop_equation_1;
       cbn [fst snd];
       apply (returned_task_stays _ _ (summary_of p f));
       cbn [drains]; by apply list_lookup_insert_eq.
  rewrite loop_head_pops_the_head by (by rewrite Hq).
  rewrite drain_loop_step. rewrite Hq.
  set (l := item :: queue).
  set (batch := take MAX_CONCURRENT_UPLOADS l).
  set (rest := drop MAX_CONCURRENT_UPLOADS l).
  set (results := (λ it, GValue (succeeds upload_body it)) <$> batch).
  set (p' := (p + length (filter (λ it, succeeds upload_body it = true) batch))%nat).
  set (f' := (f + length (filter (λ it, succeeds upload_body it = false) batch))%nat).
  destruct m as [|[|m]]; [lia..|].
  assert (Hrest : (length rest ≤ n)%nat).
  { subst rest l. rewrite length_drop. cbn. lia. }
  match goal with |- run _ _ ?w0 _ = _ => set (w1 := w0) end.
  cbn [replicate run foldl exec].
  rewrite (advance_after_gather w1 k batch p f)
    by (subst w1; cbn [drains]; by apply list_lookup_insert_eq).
  subst w1. cbn [handler upload_queue awaiting_reply drains log answers].
  fold results p' f'. rewrite !list_insert_insert_eq.
  destruct rest as [|y rest'] eqn:Hrest'.
  - rewrite drain_loop_equation_1. cbn [fst snd app].
    unfold advance at 1. cbn [drains].
    rewrite list_lookup_insert_eq by done.
    apply (returned_task_stays _ k (summary_of p' f') m).
    cbn [drains]. by apply list_lookup_insert_eq.
  - unfold advance at 1. cbn [drains].
    rewrite list_lookup_insert_eq by done.
    match goal with
    | |- foldl _ (loop_head ?w0 k p' f') _ = _ =>
        pose proof (IH w0 k p' f' m) as Hrun
    end.
    cbn [handler upload_queue awaiting_reply drains log answers] in Hrun.
    rewrite length_insert in Hrun.
    specialize (Hrun Hrest Hk ltac:(lia)). cbv zeta in Hrun.
    unfold run in Hrun. rewrite Hrun.
    by rewrite list_insert_insert_eq.
Qed.

(** The events of the loop do not depend on the events before it. *)
Lemma drain_loop_trace (n : nat) :
  ∀ (queue : list UploadItem) (p f : nat) (trace : list (@event UploadItem)),
    (length queue ≤ n)%nat →
    drain_loop upload_body queue p f trace
    = ((drain_loop upload_body queue p f []).1,
       trace ++ (drain_loop upload_body queue p f []).2).
Proof.
  induction n as [|n IH]; intros queue p f trace Hlen.
  all: destruct queue as [|item queue]; [|cbn [length] in Hlen; try lia].
  1,2: rewrite !drain_loop_equation_1; cbn [fst snd]; by rewrite app_nil_r.
  rewrite !drain_loop_step.
  assert (Hrest : (length (drop MAX_CONCURRENT_UPLOADS (item :: queue)) ≤ n)%nat).
  { rewrite length_drop. cbn. lia. }
  rewrite (IH _ _ _ (trace ++ _) Hrest), (IH _ _ _ ([] ++ _) Hrest).
  cbn [fst snd]. by rewrite <- !app_assoc.
Qed.

(** A drain task that starts on an idle handler and runs alone does what
    [_process_upload_queue] gives for that handler. *)
Lemma lone_drain_is_process_upload_queue
    (w : @EventLoop UploadItem) (k : nat) (m : nat) :
  is_processing (handler w) = false →
  drains w !! k = Some DrainCreated →
  (2 * length (upload_queue (handler w)) + 1 ≤ m)%nat →
  let r := _process_upload_queue upload_body (handler w) in
  run ADMIN_IDS upload_body w (replicate m (Advance k))
  = {| handler := r.1.2;
       awaiting_reply := awaiting_reply w;
       drains := <[k := DrainReturned
                          match r.1.1 with
                          | Returned summary => summary
                          | Raised _ => None
                          end]> (drains w);
       log := log w ++ r.2;
       answers := answers w |}.
Proof.
  intros Hidle Hk Hm. cbv zeta.
  destruct m as [|m]; [lia|].
  cbn [replicate run foldl exec]. unfold advance at 1. rewrite Hk, Hidle.
  pose proof (drain_runs_to_its_end (length (upload_queue (handler w)))
                {| handler := {| upload_queue := upload_queue (handler w);
                                 is_processing := true |};
                   awaiting_reply := awaiting_reply w; drains := drains w;
                   log := log w; answers := answers w |} k 0 0 m) as Hrun.
  cbn [handler upload_queue awaiting_reply drains log answers] in Hrun.
  specialize (Hrun (Nat.le_refl _) (lookup_lt_Some _ _ _ Hk) ltac:(lia)).
  cbv zeta in Hrun. unfold run in Hrun. rewrite Hrun.
  unfold _process_upload_queue. rewrite Hidle.
  rewrite (drain_loop_trace _ _ _ _ (log w) (Nat.le_refl _)).
  destruct (drain_loop_spec (length (upload_queue (handler w)))
              (upload_queue (handler w)) (Nat.le_refl _) 0 0 [])
    as (ev & -> & _).
  reflexivity.
Qed.

(** C7, on the code.  When a drain task starts on an idle handler whose
    queue holds N items and runs alone, so that nothing is appended before
    it ends, it ends after at most 2N+1 of its steps and has made exactly
    ceil(N/5) batches; the i-th batch is the five items (fewer for the
    last) that follow the first 5*i of the queue, so batches are taken from
    the head in FIFO order, each holds between one and five items and gets
    one result per item, and together they are the queue; one sleep of
    [BULK_UPLOAD_DELAY] stands between consecutive batches and none after
    the last; the queue is empty and [is_processing] clear at the end. *)
Theorem drain_makes_ceil_batches_of_five
    (w : @EventLoop UploadItem) (k : nat) (queue : list UploadItem) (m : nat) :
  handler w = {| upload_queue := queue; is_processing := false |} →
  drains w !! k = Some DrainCreated →
  (2 * length queue + 1 ≤ m)%nat →
  let w' := run ADMIN_IDS upload_body w (replicate m (Advance k)) in
  ∃ ev summary,
    log w' = log w ++ ev
    ∧ length (batches ev) = ((length queue + 4) / 5)%nat
    ∧ (∀ i b, batches ev !! i = Some b → b = take 5 (drop (5 * i) queue))
    ∧ Forall (λ b, (1 ≤ length b ≤ 5)%nat) (batches ev)
    ∧ Forall (λ e, match e with
                   | EBatch b r => r = (λ it, GValue (succeeds upload_body it)) <$> b
                   | ESleep _ => True
                   end) ev
    ∧ dispatched ev = queue
    ∧ paced ev = true
    ∧ handler w' = {| upload_queue := []; is_processing := false |}
    ∧ drains w' !! k = Some (DrainReturned summary).
Proof.
  intros Hh Hk Hm w'.
  destruct m as [|m]; [lia|].
  pose proof (drain_runs_to_its_end (length queue)
                {| handler := {| upload_queue := queue; is_processing := true |};
                   awaiting_reply := awaiting_reply w; drains := drains w;
                   log := log w; answers := answers w |} k 0 0 m) as Hrun.
  cbn [handler upload_queue awaiting_reply drains log answers] in Hrun.
  specialize (Hrun (Nat.le_refl _) (lookup_lt_Some _ _ _ Hk) ltac:(lia)).
  cbv zeta in Hrun.
  assert (Hstart : w' = run ADMIN_IDS upload_body
                          (loop_head
                             {| handler := {| upload_queue := queue;
                                              is_processing := true |};
                                awaiting_reply := awaiting_reply w;
                                drains := drains w; log := log w;
                                answers := answers w |} k 0 0)
                          (replicate m (Advance k))).
  { subst w'. cbn [replicate run foldl exec]. unfold advance at 1.
    by rewrite Hk, Hh. }
  rewrite Hrun in Hstart. clearbody w'. subst w'.
  destruct (drain_loop_spec (length queue) queue (Nat.le_refl _) 0 0 (log w))
    as (ev & -> & _ & _ & Hpaced & Hcount & Hith & Hsize & Hall & Hres).
  cbn [fst snd handler drains log].
  exists ev. eexists. split_and!; try done.
  apply list_lookup_insert_eq. by eapply lookup_lt_Some.
Qed.

(** C8.  Whatever items fail, by an exception of the work on them, the
    drain of an idle handler returns normally; every item of the queue is
    handed to processing, in order, those of the batch of a failing item
    and of the later batches included; each batch records one result per
    item; and the summary counts the items that went through as processed
    and the failing ones as failed, the two adding up to the length of the
    queue. *)
Theorem failing_items_are_counted_not_raised (queue : list UploadItem) :
  let run := _process_upload_queue upload_body
               {| upload_queue := queue; is_processing := false |} in
  let ok := length (filter (λ it, succeeds upload_body it = true) queue) in
  let ko := length (filter (λ it, succeeds upload_body it = false) queue) in
  (∀ item, succeeds upload_body item = false ↔ ∃ e, upload_body item = Raised e)
  ∧ (∀ item, ∃ b, _process_single_upload upload_body item = Returned b)
  ∧ (∃ summary, run.1.1 = Returned summary
       ∧ (queue ≠ [] →
          summary = Some {| processed := ok; failed := ko; total := ok + ko |}))
  ∧ (ok + ko = length queue)%nat
  ∧ dispatched run.2 = queue
  ∧ Forall (λ e, match e with
                 | EBatch b r => r = (λ it, GValue (succeeds upload_body it)) <$> b
                 | ESleep _ => True
                 end) run.2
  ∧ upload_queue run.1.2 = [].
Proof.
  destruct (process_upload_queue_idle queue)
    as (ev & -> & _ & _ & _ & _ & _ & _ & Hall & Hres).
  cbn [fst snd upload_queue].
  pose proof (every_item_succeeds_or_fails queue) as Hsum.
  split_and!; try done.
  - intros item. unfold succeeds, returned.
    destruct (upload_body item) as [m|e]; split; try done.
    + by intros [e ?].
    + intros _. by exists e.
  - intros item. eexists. apply process_single_upload_returns.
  - eexists. split; [reflexivity|]. intros Hne.
    destruct queue as [|item queue]; [done|].
    cbn [length] in Hsum.
    destruct (0 <? length (filter _ (item :: queue)))%nat eqn:Hok; [done|].
    destruct (0 <? length (filter (λ it, succeeds upload_body it = false)
                             (item :: queue)))%nat eqn:Hko; [done|].
    apply Nat.ltb_ge in Hok, Hko. lia.
Qed.

End WithItems.

Lemma drain_makes_ceil_batches_of_five_witness :
  let file (n : nat) (r : outcome unit) :=
    Arrive {| sender := 1; upload_item := Some n; reply := r |} in
  let body (n : nat) : outcome Z :=
    if (n =? 3)%nat then Raised ClientError else Returned (Z.of_nat n) in
  let w := run [1] body idle_loop
             [file 1%nat (Raised ClientError); Replied 0;
              file 2%nat (Raised ClientError); Replied 0;
              file 3%nat (Raised ClientError); Replied 0;
              file 4%nat (Raised ClientError); Replied 0;
              file 5%nat (Raised ClientError); Replied 0;
              file 6%nat (Returned ()); Replied 0] in
  let w' := run [1] body w (replicate 13 (Advance 0)) in
  ∃ ev summary,
    log w' = log w ++ ev
    ∧ length (batches ev) = ((length [1; 2; 3; 4; 5; 6]%nat + 4) / 5)%nat
    ∧ (∀ i b, batches ev !! i = Some b
              → b = take 5 (drop (5 * i) [1; 2; 3; 4; 5; 6]%nat))
    ∧ Forall (λ b, (1 ≤ length b ≤ 5)%nat) (batches ev)
    ∧ Forall (λ e, match e with
                   | EBatch b r => r = (λ it, GValue (succeeds body it)) <$> b
                   | ESleep _ => True
                   end) ev
    ∧ dispatched ev = [1; 2; 3; 4; 5; 6]%nat
    ∧ paced ev = true
    ∧ handler w' = {| upload_queue := []; is_processing := false |}
    ∧ drains w' !! 0%nat = Some (DrainReturned summary).
Proof.
  intros file body w.
  apply (drain_makes_ceil_batches_of_five [1] body w 0 [1; 2; 3; 4; 5; 6]%nat 13).
  - vm_compute. reflexivity.
  - vm_compute. reflexivity.
  - vm_compute. lia.
Defined.

(** C7 as the specification words it fails.  Five files sent one after
    the other, each confirmed before the next arrives: the first
    confirmation creates the drain task, which starts with one item in the
    queue and pops it; the other four arrive while that batch is gathered
    and make the second batch.  Five enqueued items are processed in two
    batches, not in ceil(5/5) = 1. *)
Lemma five_files_sent_one_by_one_make_two_batches :
  let file (n : nat) :=
    Arrive {| sender := 1; upload_item := Some n; reply := Returned () |} in
  let body (n : nat) : outcome Z := Returned (Z.of_nat n) in
  let w := run [1] body idle_loop
             [file 1%nat; Replied 0; Advance 0;
              file 2%nat; Replied 0; file 3%nat; Replied 0;
              file 4%nat; Replied 0; file 5%nat; Replied 0;
              Advance 0; Advance 0; Advance 0] in
  w = {| handler := {| upload_queue := []; is_processing := false |};
         awaiting_reply := [];
         drains := [DrainReturned (Some {| processed := 5; failed := 0; total := 5 |})];
         log := [EBatch [1%nat] [GValue true];
                 ESleep BULK_UPLOAD_DELAY;
                 EBatch [2; 3; 4; 5]%nat
                   [GValue true; GValue true; GValue true; GValue true]];
         answers := [true; true; true; true; true] |}
  ∧ dispatched (log w) = [1; 2; 3; 4; 5]%nat
  ∧ length (batches (log w)) = 2%nat
  ∧ ((5 + 4) / 5 = 1)%nat.
Proof. vm_compute. by split_and!. Qed.

(** A sleep after the last batch, or two batches without a sleep between
    them, is not a paced trace. *)
Example unpaced_traces :
  paced [EBatch [1%nat] [GValue true]; ESleep BULK_UPLOAD_DELAY] = false
  ∧ paced [EBatch [1%nat] [GValue true]; EBatch [2%nat] [GValue true]] = false
  ∧ paced [EBatch [1%nat] [GValue true]; ESleep BULK_UPLOAD_DELAY;
           EBatch [2%nat] [GValue true]] = true.
Proof. by split_and!. Qed.

(** Twelve queued items, the work failing on every third one. *)
Example drain_of_twelve_items :
  let body (n : nat) : outcome Z :=
    if (n mod 3 =? 0)%nat then Raised ClientError else Returned (Z.of_nat n) in
  _process_upload_queue body {| upload_queue := seq 1 12; is_processing := false |}
  = (Returned (Some {| processed := 8; failed := 4; total := 12 |}),
     {| upload_queue := []; is_processing := false |},
     [EBatch [1; 2; 3; 4; 5]%nat
        [GValue true; GValue true; GValue false; GValue true; GValue true];
      ESleep 500000;
      EBatch [6; 7; 8; 9; 10]%nat
        [GValue false; GValue true; GValue true; GValue false; GValue true];
      ESleep 500000;
      EBatch [11; 12]%nat [GValue true; GValue false]]).
Proof. vm_compute. reflexivity. Qed.

End BulkUploadFacts.

(** * Further properties of the code *)

(** ** RateWindow: bounds, the shared row, other users *)

Module RateLimitMore.
Import Time RateLimit RateLimitFacts RateLimitRuns.

Lemma admitted_true (bs : list bool) : admitted (true :: bs) = S (admitted bs).
Proof. unfold admitted. by rewrite filter_cons, decide_True. Qed.

Lemma admitted_false (bs : list bool) : admitted (false :: bs) = admitted bs.
Proof. unfold admitted. by rewrite filter_cons, decide_False. Qed.

Lemma run_checks_cons (tbl : gmap Z RateLimitRow) (uid : Z) action t ts :
  run_checks tbl uid action (t :: ts)
  = ((check_rate_limit tbl uid action t).1
       :: (run_checks (check_rate_limit tbl uid action t).2 uid action ts).1,
     (run_checks (check_rate_limit tbl uid action t).2 uid action ts).2).
Proof.
  cbn [run_checks]. destruct (check_rate_limit tbl uid action t) as [b tbl1].
  cbn [fst snd]. by destruct (run_checks tbl1 uid action ts) as [bs tbl2].
Qed.

(** Inside one minute a live bucket holding [c] uses admits at most
    [5 - c] further checks. *)
Lemma live_bucket_admits_the_rest (t0 : Z) (ts : list Z) :
  Forall (λ t, t0 ≤ t < t0 + timedelta_seconds 60) ts →
  ∀ (tbl : gmap Z RateLimitRow) (uid ls c : Z),
    t0 ≤ ls →
    (admitted (run_checks (<[uid := mkRow (Some ls) c None 0]> tbl) uid "search" ts).1
     ≤ Z.to_nat (SEARCH_LIMIT - c))%nat.
Proof.
  induction 1 as [|t ts Ht Hts IH]; intros tbl uid ls c Hls; [cbn; lia|].
  rewrite run_checks_cons. cbn [fst].
  assert (Hlive : t - timedelta_minutes 1 < ls).
  { unfold timedelta_minutes, timedelta_seconds in *. lia. }
  destruct (Z.le_gt_cases SEARCH_LIMIT c) as [Hfull|Hroom].
  - rewrite check_search_at_limit by done. cbn [fst snd].
    rewrite admitted_false. by apply IH.
  - rewrite check_search_after_admit by lia. cbn [fst snd].
    rewrite admitted_true.
    specialize (IH tbl uid t (c + 1) ltac:(lia)). unfold SEARCH_LIMIT in *. lia.
Qed.

Lemma insert_row_back (tbl : gmap Z RateLimitRow) (uid : Z) r :
  tbl !! uid = Some r → <[uid := r]> tbl = tbl.
Proof. apply insert_id. Qed.

(** In a run of search checks of one subject, with no upload check of that
    subject between them (an admitted upload check rewrites the whole row),
    at most five of the checks
    made within one span of 60 seconds are admitted, whatever entry the
    subject starts with (its counter not being negative) and however many
    checks are made. *)
Theorem at_most_five_searches_admitted_per_minute
    (tbl : gmap Z RateLimitRow) (uid t0 : Z) (ts : list Z) :
  (∀ r, tbl !! uid = Some r → 0 ≤ search_count r) →
  Forall (λ t, t0 ≤ t < t0 + timedelta_seconds 60) ts →
  (admitted (run_checks tbl uid "search" ts).1 ≤ 5)%nat.
Proof.
  intros Hnonneg Hwin. revert tbl Hnonneg.
  induction Hwin as [|t ts Ht Hts IH]; intros tbl Hnonneg; [cbn; lia|].
  rewrite run_checks_cons. cbn [fst].
  destruct (select_search_count tbl uid (t - timedelta_minutes 1)) as [c|] eqn:Hsel.
  - unfold select_search_count in Hsel.
    destruct (tbl !! uid) as [r|] eqn:Hrow; [|done].
    destruct (last_search r) as [ls|] eqn:Hls; [|done].
    destruct (Z.ltb_spec (t - timedelta_minutes 1) ls) as [Hlive|]; [|done].
    injection Hsel as <-.
    rewrite (check_search_live tbl uid t r ls) by done.
    destruct (Z.leb_spec SEARCH_LIMIT (search_count r)) as [Hfull|Hroom].
    + cbn [fst snd]. rewrite admitted_false.
      apply IH. intros r' Hr'. apply Hnonneg. congruence.
    + cbn [fst snd]. rewrite admitted_true.
      pose proof (live_bucket_admits_the_rest t0 ts Hts tbl uid t
                    (search_count r + 1) ltac:(lia)) as Hrest.
      specialize (Hnonneg r eq_refl). unfold SEARCH_LIMIT in *. lia.
  - rewrite check_search_idle by done. cbn [fst snd].
    rewrite admitted_true.
    pose proof (live_bucket_admits_the_rest t0 ts Hts tbl uid t 1 ltac:(lia)) as Hrest.
    unfold SEARCH_LIMIT in *. lia.
Qed.

Lemma at_most_five_searches_admitted_per_minute_witness :
  (admitted (run_checks ∅ 7 "search"
               (timedelta_seconds <$> [0; 1; 2; 3; 4; 5; 6; 7; 59]%Z)).1 ≤ 5)%nat.
Proof.
  apply (at_most_five_searches_admitted_per_minute ∅ 7 0).
  - intros r Hr. by rewrite lookup_empty in Hr.
  - repeat constructor; vm_compute; congruence.
Defined.

Lemma admitted_upload_result (tbl : gmap Z RateLimitRow) (uid t : Z) :
  (check_rate_limit tbl uid "upload" t).1 = true →
  (check_rate_limit tbl uid "upload" t).2
  = replace_upload tbl uid t (t - timedelta_hours 1).
Proof.
  unfold check_rate_limit. cbn [String.eqb Ascii.eqb Bool.eqb].
  by destruct (over_limit _ UPLOAD_LIMIT).
Qed.

(** The two buckets of a subject live in one row, and an admitted check
    rewrites the whole row: after an admitted upload check the search
    bucket is gone, so the next search check is admitted whatever the search
    count was. *)
Theorem admitted_upload_erases_search_bucket
    (tbl : gmap Z RateLimitRow) (uid t t' : Z) :
  (check_rate_limit tbl uid "upload" t).1 = true →
  (∃ r, (check_rate_limit tbl uid "upload" t).2 !! uid = Some r
        ∧ last_search r = None ∧ search_count r = 0)
  ∧ (check_rate_limit (check_rate_limit tbl uid "upload" t).2 uid "search" t').1
    = true.
Proof.
  intros Hok. rewrite (admitted_upload_result _ _ _ Hok).
  unfold replace_upload. split.
  - eexists. by rewrite lookup_insert_eq.
  - rewrite check_search_idle; [done|].
    unfold search_bucket_idle, select_search_count. by rewrite lookup_insert_eq.
Qed.

Lemma admitted_upload_erases_search_bucket_witness :
  let tbl : gmap Z RateLimitRow :=
    {[ 7 := mkRow (Some (timedelta_seconds 40)) 5 None 0 ]} in
  let tbl' := (check_rate_limit tbl 7 "upload" (timedelta_seconds 41)).2 in
  (check_rate_limit tbl 7 "search" (timedelta_seconds 42)).1 = false
  ∧ (∃ r, tbl' !! 7 = Some r ∧ last_search r = None ∧ search_count r = 0)
  ∧ (check_rate_limit tbl' 7 "search" (timedelta_seconds 42)).1 = true.
Proof.
  intros tbl tbl'. split; [vm_compute; reflexivity|].
  apply (admitted_upload_erases_search_bucket tbl 7).
  vm_compute. reflexivity.
Defined.

(** A check for one subject never changes the entry of another. *)
Theorem check_leaves_other_subjects_alone
    (tbl : gmap Z RateLimitRow) (uid other : Z) (action : string) (now : Z) :
  other ≠ uid →
  (check_rate_limit tbl uid action now).2 !! other = tbl !! other.
Proof.
  intros Hne. unfold check_rate_limit, replace_search, replace_upload.
  repeat match goal with
         | |- context [if ?c then _ else _] => destruct c
         end; cbn [snd]; try done; by rewrite lookup_insert_ne.
Qed.

Lemma check_leaves_other_subjects_alone_witness :
  let tbl : gmap Z RateLimitRow :=
    {[ 8 := mkRow (Some (timedelta_seconds 40)) 3 None 0 ]} in
  (check_rate_limit tbl 7 "search" (timedelta_seconds 50)).2 !! 8 = tbl !! 8.
Proof.
  intros tbl. apply (check_leaves_other_subjects_alone tbl 7 8). done.
Defined.

End RateLimitMore.

(** ** VerificationLedger: the states a run can reach *)

Module LedgerMore.
Import Time Models Verification VerificationFacts LedgerRuns.

Lemma filter_length_insert {A} (P : A → Prop) `{!∀ x, Decision (P x)}
    (l : list A) (i : nat) (x y : A) :
  l !! i = Some x →
  (length (filter P (<[i := y]> l)) + (if decide (P x) then 1 else 0)
   = length (filter P l) + (if decide (P y) then 1 else 0))%nat.
Proof.
  intros Hi.
  rewrite insert_take_drop by eauto using lookup_lt_Some.
  rewrite <- (take_drop_middle l i x Hi) at 3.
  rewrite !filter_app, !filter_cons, !length_app.
  destruct (decide (P x)), (decide (P y)); cbn [length]; lia.
Qed.

Lemma filter_length_fmap {A} (P : A → Prop) `{!∀ x, Decision (P x)}
    (f : A → A) (l : list A) :
  (∀ x, P (f x) ↔ P x) →
  length (filter P (f <$> l)) = length (filter P l).
Proof.
  intros Hf. induction l as [|x l IH]; [done|].
  rewrite fmap_cons, !filter_cons.
  destruct (decide (P x)) as [HP|HP].
  - rewrite decide_True by by apply Hf. cbn [length]. by rewrite IH.
  - rewrite decide_False by by rewrite Hf. done.
Qed.

Lemma max_of_sequential_ids (a n : nat) :
  foldr Z.max 0 (Z.of_nat <$> seq (S a) n)
  = if decide (n = 0%nat) then 0 else Z.of_nat (a + n).
Proof.
  revert a. induction n as [|n IH]; intros a; [done|].
  rewrite decide_False by done.
  change (seq (S a) (S n)) with (S a :: seq (S (S a)) n).
  rewrite fmap_cons. cbn [foldr].
  rewrite (IH (S a)). destruct (decide (n = 0%nat)); lia.
Qed.

Lemma next_id_of_sequential (d : Db) :
  ids_sequential d →
  next_verification_id (user_verifications d)
  = Z.of_nat (S (length (user_verifications d))).
Proof.
  unfold ids_sequential, next_verification_id. intros ->.
  rewrite (max_of_sequential_ids 0). destruct (decide _) as [->|]; lia.
Qed.

Lemma verified_tokens_insert (d : Db) (rows : list UserVerification) i v v' uid :
  user_verifications d !! i = Some v →
  verified_tokens (with_verifications d (<[i := v']> (user_verifications d))) uid
  = (verified_tokens d uid
     + (if decide (user_id v' = uid ∧ is_verified v' = true) then 1 else 0)
     - (if decide (user_id v = uid ∧ is_verified v = true) then 1 else 0))%nat.
Proof.
  intros Hi. unfold verified_tokens. cbn [user_verifications with_verifications].
  pose proof (filter_length_insert
                (λ w, user_id w = uid ∧ is_verified w = true) _ i v v' Hi) as H.
  revert H.
  destruct (decide (user_id v = uid ∧ is_verified v = true)),
           (decide (user_id v' = uid ∧ is_verified v' = true)); lia.
Qed.

(** What a call to [create_verification_request] leaves in the database. *)
Lemma create_result BOT d uid mid tok resp ts te tc :
  let run := create_verification_request BOT d uid mid tok resp ts te tc in
  (∃ e, run = (Raised e, d))
  ∨ (∃ req short pending,
       run = (Returned req,
              {| user_verifications :=
                   user_verifications d
                   ++ [mkVerification (next_verification_id (user_verifications d))
                         uid mid tok (Some short) (verify_link BOT tok) tc
                         (te + timedelta_hours 24) None false false];
                 users := users d;
                 url_shorteners := url_shorteners d ++ pending |})
       ∧ (tok ∉ verification_token <$> user_verifications d)
       ∧ req_verification_token req = tok
       ∧ req_short_url req = Some short).
Proof.
  intros run. subst run.
  unfold create_verification_request, commit_accepts.
  destruct (_create_short_url BOT _ tok resp ts) as [short pending].
  cbn [verification_token short_url].
  case_bool_decide as Hfresh; [|left; by eexists].
  case_bool_decide as Hshort; [|left; by eexists].
  destruct Hshort as [url ->]. cbn [andb].
  match goal with |- context [if ?c then _ else _] => destruct c end;
    [|left; by eexists].
  right. eexists _, url, pending. by split_and!.
Qed.

Lemma verified_tokens_same_rows (d d' : Db) (uid : Z) :
  user_verifications d' = user_verifications d →
  verified_tokens d' uid = verified_tokens d uid.
Proof. unfold verified_tokens. by intros ->. Qed.

Lemma consistent_empty : ledger_consistent empty_db.
Proof.
  split_and!; [constructor|constructor|done|].
  intros uid. cbn. by rewrite lookup_empty.
Qed.

Lemma consistent_start (d : Db) (uid : Z) :
  ledger_consistent d → ledger_consistent (start_command_save_user d uid).
Proof.
  intros (Htok & Hrows & Hids & Husers).
  unfold start_command_save_user.
  destruct (users d !! uid) eqn:Hu; [done|].
  split_and!; [done..|].
  intros uid0. cbn [users with_user].
  destruct (decide (uid0 = uid)) as [->|Hne].
  - rewrite lookup_insert_eq. specialize (Husers uid). rewrite Hu in Husers.
    rewrite (verified_tokens_same_rows d) by done. rewrite Husers. cbn.
    split; [done|]. split; [by intros [? ?]|lia].
  - rewrite lookup_insert_ne by done. specialize (Husers uid0).
    by rewrite (verified_tokens_same_rows d).
Qed.

Lemma consistent_create BOT d uid mid tok resp ts te tc :
  ledger_consistent d →
  ledger_consistent
    (create_verification_request BOT d uid mid tok resp ts te tc).2.
Proof.
  intros Hd.
  destruct (create_result BOT d uid mid tok resp ts te tc)
    as [[e ->]|(req & short & pending & -> & Hfresh & _)]; [done|].
  destruct Hd as (Htok & Hrows & Hids & Husers). cbn [snd].
  split_and!.
  - unfold tokens_unique. cbn. rewrite fmap_app. apply NoDup_app.
    split_and!; [done| |apply NoDup_singleton].
    by intros x Hx ->%list_elem_of_singleton.
  - cbn. apply Forall_app. split; [done|]. apply Forall_singleton.
    split; [done|]. by intros _.
  - unfold ids_sequential. cbn [user_verifications].
    rewrite fmap_app, length_app. cbn [length fmap list_fmap].
    rewrite Nat.add_1_r, seq_S, fmap_app. f_equal; [done|].
    cbn. by rewrite next_id_of_sequential.
  - intros uid0. cbn [users]. specialize (Husers uid0).
    assert (verified_tokens
              {| user_verifications :=
                   user_verifications d
                   ++ [mkVerification (next_verification_id (user_verifications d))
                         uid mid tok (Some short) (verify_link BOT tok) tc
                         (te + timedelta_hours 24) None false false];
                 users := users d;
                 url_shorteners := url_shorteners d ++ pending |} uid0
            = verified_tokens d uid0) as ->; [|done].
    unfold verified_tokens. cbn [user_verifications].
    rewrite filter_app, length_app, filter_cons, decide_False; [cbn; lia|].
    by intros [_ ?].
Qed.

Lemma consistent_verify d tok tv ts tm :
  ledger_consistent d →
  ledger_consistent (verify_user_by_token d tok tv ts tm).2.
Proof.
  intros Hd. pose proof Hd as (Htok & Hrows & Hids & Husers).
  split; [by eapply tokens_unique_verify, surjective_pairing|].
  unfold verify_user_by_token.
  destruct (first_pending (user_verifications d) tok) as [[i v]|] eqn:Hfind;
    [|done].
  apply first_pending_Some in Hfind as (Hi & _ & Hpending).
  pose proof (Forall_lookup_1 _ _ _ _ Hrows Hi) as [_ Hstamp].
  destruct (is_valid v tv) eqn:Hvalid; cbn [negb].
  - destruct (users d !! user_id v) as [u|] eqn:Hu; [|done].
    pose proof (Husers (user_id v)) as Hcount. rewrite Hu in Hcount.
    destruct Hcount as [Hcount _].
    unfold mark_verified. rewrite Hcount. cbn [snd].
    set (u1 := {| last_verified := Some tm;
                  verification_count :=
                    Some (Z.of_nat (verified_tokens d (user_id v)) + 1) |}).
    split_and!.
    + cbn. apply Forall_insert; [done|]. split; [|done].
      intros _. split; [|by eexists]. cbn.
      unfold is_valid in Hvalid. by destruct (is_expired v).
    + unfold ids_sequential. cbn. rewrite length_insert, list_fmap_insert.
      rewrite list_insert_id; [done|]. by rewrite list_lookup_fmap, Hi.
    + intros uid0.
      rewrite (verified_tokens_same_rows
                 (with_verifications d
                    (<[i := set_verified v ts]> (user_verifications d)))
                 (with_user _ (user_id v) u1)) by done.
      cbn [users with_user with_verifications].
      rewrite (verified_tokens_insert d (user_verifications d) i v) by done.
      rewrite (decide_False (P := user_id v = uid0 ∧ is_verified v = true))
        by (intros [_ ?]; congruence).
      destruct (decide (uid0 = user_id v)) as [->|Hne].
      * rewrite lookup_insert_eq, decide_True by done. cbn.
        split; [f_equal; lia|]. split; [lia|by eexists].
      * rewrite lookup_insert_ne by done.
        rewrite decide_False by (cbn; intros [? _]; congruence).
        specialize (Husers uid0). by rewrite Nat.add_0_r, Nat.sub_0_r.
  - cbn [snd]. split_and!.
    + cbn. apply Forall_insert; [done|]. split; [by cbn; congruence|].
      intros _. by apply Hstamp.
    + unfold ids_sequential. cbn. rewrite length_insert, list_fmap_insert.
      rewrite list_insert_id; [done|]. by rewrite list_lookup_fmap, Hi.
    + intros uid0. cbn [users with_verifications].
      rewrite (verified_tokens_insert d (user_verifications d) i v) by done.
      rewrite !decide_False by (cbn; intros [_ ?]; congruence).
      specialize (Husers uid0). by rewrite Nat.add_0_r, Nat.sub_0_r.
Qed.

Lemma consistent_cleanup d now :
  ledger_consistent d →
  ledger_consistent (cleanup_expired_verifications d now).2.
Proof.
  intros Hd. pose proof Hd as (Htok & Hrows & Hids & Husers).
  split; [by apply tokens_unique_cleanup|].
  unfold cleanup_expired_verifications. cbn [snd]. split_and!.
  - cbn. apply Forall_fmap. eapply Forall_impl; [exact Hrows|].
    intros v Hv. unfold compose.
    destruct ((expires_at v <? now) && negb (is_verified v)) eqn:Hdue; [|done].
    apply andb_true_iff in Hdue as [_ Hver%negb_true_iff].
    destruct Hv as [_ Hstamp]. split; cbn; [congruence|done].
  - unfold ids_sequential. cbn. rewrite length_fmap, <- list_fmap_compose.
    rewrite <- Hids. apply list_fmap_ext. intros i v _. cbn.
    by destruct (_ && _).
  - intros uid0. cbn [users with_verifications].
    assert (verified_tokens
              (with_verifications d
                 ((λ v, if (expires_at v <? now) && negb (is_verified v)
                        then set_expired v else v) <$> user_verifications d)) uid0
            = verified_tokens d uid0) as ->; [|apply Husers].
    unfold verified_tokens. cbn [user_verifications with_verifications].
    apply filter_length_fmap. intros v. by destruct (_ && _).
Qed.

Lemma consistent_after_calls BOT (cs : list ledger_call) (d : Db) :
  ledger_consistent d → ledger_consistent (after_calls BOT d cs).
Proof.
  revert d. induction cs as [|c cs IH]; intros d Hd; [done|].
  cbn. apply IH. destruct c; cbn.
  - by apply consistent_start.
  - by apply consistent_create.
  - by apply consistent_verify.
  - by apply consistent_cleanup.
Qed.

(** In every ledger reached from the empty one by the bot's calls, tokens
    are unique and every token is in exactly one of three states: pending
    or expired with no [verified_at], or verified with [verified_at] set
    and the expired flag clear.  No token is both verified and expired. *)
Theorem reachable_tokens_are_pending_verified_or_expired
    (BOT : string) (cs : list ledger_call) :
  let d := after_calls BOT empty_db cs in
  NoDup (verification_token <$> user_verifications d)
  ∧ ∀ v, v ∈ user_verifications d →
      (is_verified v = true → is_expired v = false ∧ is_Some (verified_at v))
      ∧ (is_verified v = false → verified_at v = None).
Proof.
  destruct (consistent_after_calls BOT cs empty_db consistent_empty)
    as (Htok & Hrows & _ & _).
  split; [done|]. intros v Hv. by eapply Forall_forall in Hrows.
Qed.

(** In every reachable ledger a user's [verification_count] is the number
    of verified tokens bound to that user, the user has a [last_verified]
    stamp iff that number is positive, and a subject without a user row
    has no verified token: no verification is counted twice or lost. *)
Theorem reachable_verification_count_is_number_of_verified_tokens
    (BOT : string) (cs : list ledger_call) (uid : Z) :
  let d := after_calls BOT empty_db cs in
  match users d !! uid with
  | Some u =>
      verification_count u = Some (Z.of_nat (verified_tokens d uid))
      ∧ (is_Some (last_verified u) ↔ (1 ≤ verified_tokens d uid)%nat)
  | None => verified_tokens d uid = 0%nat
  end.
Proof.
  destruct (consistent_after_calls BOT cs empty_db consistent_empty)
    as (_ & _ & _ & Husers).
  apply Husers.
Qed.

Lemma set_expired_flagged (v : UserVerification) :
  is_expired v = true → set_expired v = v.
Proof. destruct v. cbn. by intros ->. Qed.

Lemma with_verifications_same (d : Db) :
  with_verifications d (user_verifications d) = d.
Proof. by destruct d. Qed.

(** A token flagged expired stays out of reach: whenever it is resolved,
    also at an instant before [expires_at], the answer is the expired
    failure and the database is returned as it was. *)
Theorem flagged_token_is_never_verified
    (d : Db) (v : UserVerification) (tv ts tm : Z) :
  tokens_unique d →
  v ∈ user_verifications d → is_verified v = false → is_expired v = true →
  verify_user_by_token d (verification_token v) tv ts tm
  = (Returned (expired_result v), d).
Proof.
  intros Hnd Hin Hver Hexp.
  destruct (first_pending_of_row _ v Hnd Hin Hver) as (i & Hi & Hfind).
  unfold verify_user_by_token. rewrite Hfind.
  unfold is_valid. rewrite Hexp. cbn [negb andb].
  rewrite set_expired_flagged by done.
  by rewrite list_insert_id, with_verifications_same.
Qed.

(** The ledger after the only challenge of [one_challenge] expired
    unresolved. *)
Lemma flagged_token_is_never_verified_witness :
  let late := timedelta_hours 25 in
  let d := (verify_user_by_token one_challenge "0123456789abcdef" late late late).2 in
  let v := mkVerification 1 1 9 "0123456789abcdef"
             (Some "https://t.me/bot?start=verify_0123456789abcdef")
             "https://t.me/bot?start=verify_0123456789abcdef"
             0 (timedelta_hours 24) None false true in
  verify_user_by_token d "0123456789abcdef" 5 5 5 = (Returned (expired_result v), d).
Proof.
  intros late d v.
  apply (flagged_token_is_never_verified d v 5 5 5).
  - vm_compute. apply NoDup_singleton.
  - vm_compute. apply list_elem_of_here.
  - reflexivity.
  - reflexivity.
Defined.

(** Resolving a pending, unexpired token whose subject has no row in
    [users] raises [TypeError] ([mark_verified] adds 1 to the unset
    [verification_count] of the fresh [User]) and commits nothing: the
    token stays pending. *)
Theorem resolving_for_a_subject_without_user_row_raises
    (d : Db) (v : UserVerification) (tv ts tm : Z) :
  tokens_unique d →
  v ∈ user_verifications d → is_verified v = false → is_valid v tv = true →
  users d !! user_id v = None →
  verify_user_by_token d (verification_token v) tv ts tm = (Raised TypeError, d).
Proof.
  intros Hnd Hin Hver Hvalid Hnone.
  destruct (first_pending_of_row _ v Hnd Hin Hver) as (i & Hi & Hfind).
  unfold verify_user_by_token. by rewrite Hfind, Hvalid, Hnone.
Qed.

Lemma resolving_for_a_subject_without_user_row_raises_witness :
  let d := (create_verification_request "bot" empty_db 1 9 "0123456789abcdef"
              (PostRaises ClientError) 0 0 0).2 in
  verify_user_by_token d "0123456789abcdef" 5 5 5 = (Raised TypeError, d).
Proof.
  intros d.
  apply (resolving_for_a_subject_without_user_row_raises d
           (mkVerification 1 1 9 "0123456789abcdef"
              (Some "https://t.me/bot?start=verify_0123456789abcdef")
              "https://t.me/bot?start=verify_0123456789abcdef"
              0 (timedelta_hours 24) None false false) 5 5 5).
  - vm_compute. apply NoDup_singleton.
  - vm_compute. apply list_elem_of_here.
  - reflexivity.
  - reflexivity.
  - reflexivity.
Defined.

(** [cleanup_expired_verifications] flags every unverified token past its
    expiry and leaves verified tokens alone; run again at the same instant
    it changes nothing more, yet reports the same number of tokens, since
    it also counts the ones already flagged. *)
Theorem cleanup_flags_overdue_tokens_and_recounts_them (d : Db) (now : Z) :
  let d' := (cleanup_expired_verifications d now).2 in
  (∀ v', v' ∈ user_verifications d' → is_verified v' = false →
         expires_at v' < now → is_expired v' = true)
  ∧ (∀ v, v ∈ user_verifications d → is_verified v = true →
          v ∈ user_verifications d')
  ∧ cleanup_expired_verifications d' now = cleanup_expired_verifications d now.
Proof.
  cbv zeta. unfold cleanup_expired_verifications. cbn [snd].
  set (due := λ v, (expires_at v <? now) && negb (is_verified v)).
  set (f := λ v, if due v then set_expired v else v).
  assert (Hdue : ∀ v, due (f v) = due v).
  { intros v. unfold f. destruct (due v) eqn:Hv; [exact Hv|done]. }
  assert (Hff : ∀ v, f (f v) = f v).
  { intros v. unfold f at 1. rewrite Hdue. unfold f.
    destruct (due v); reflexivity. }
  split_and!.
  - intros v' (v & -> & Hin)%list_elem_of_fmap. unfold f.
    destruct ((expires_at v <? now) && negb (is_verified v)) eqn:Hv;
      [by intros _ _|]. intros Hver Hexp.
    rewrite Hver in Hv. apply Z.ltb_lt in Hexp.
    by rewrite Hexp in Hv.
  - intros v Hin Hver. apply list_elem_of_fmap. exists v. split; [|done].
    unfold f, due. by rewrite Hver, andb_false_r.
  - cbn [user_verifications with_verifications]. f_equal.
    + apply (filter_length_fmap (λ v, due v = true) f). intros v. by rewrite Hdue.
    + unfold with_verifications. cbn [user_verifications users url_shorteners].
      f_equal. rewrite <- list_fmap_compose. apply list_fmap_ext.
      intros i v _. apply Hff.
Qed.

(** The hours a status reports.  [check_user_verification_status] reads
    the clock twice: in [is_verified_today] and again for [time_diff].  For
    a user verified less than 24 hours before the first reading, and not
    after the second, the status asks for no verification, carries the
    stored stamp, and reports 24 minus the whole hours that have passed at
    the second reading: between 1 and 24 while the second reading is still
    less than 24 hours after the verification, and 0 when it is 24 hours or
    more after it. *)
Theorem open_window_reports_hours_left_at_second_reading
    (d : Db) (uid t_check t_diff lv : Z) (u : User) :
  users d !! uid = Some u → last_verified u = Some lv →
  t_check - lv < timedelta_hours 24 → lv ≤ t_diff →
  let st := check_user_verification_status d uid t_check t_diff in
  needs_verification st = false
  ∧ status_last_verified st = Some lv
  ∧ (∀ k, 0 ≤ k < 24 →
          k * timedelta_hours 1 ≤ t_diff - lv < (k + 1) * timedelta_hours 1 →
          hours_remaining st = 24 - k)
  ∧ (t_diff - lv < timedelta_hours 24 → 1 ≤ hours_remaining st ≤ 24)
  ∧ (timedelta_hours 24 ≤ t_diff - lv → hours_remaining st = 0).
Proof.
  intros Hu Hlv Hopen Hle. cbv zeta.
  unfold check_user_verification_status, is_verified_today. rewrite Hu, Hlv.
  destruct (Z.ltb_spec (t_check - lv) (timedelta_hours 24)); [|lia].
  cbn [needs_verification status_last_verified hours_remaining].
  assert (H1h : timedelta_hours 1 = 3600000000) by reflexivity.
  assert (H24h : timedelta_hours 24 = 24 * 3600000000) by reflexivity.
  rewrite H1h, H24h in *.
  assert (Hq : 0 ≤ (t_diff - lv) ÷ 3600000000) by (apply Z.quot_pos; lia).
  split_and!; [done|done| | |].
  - intros k Hk Hbetween.
    assert ((t_diff - lv) ÷ 3600000000 = k); [|lia].
    rewrite Z.quot_div_nonneg by lia.
    symmetry. apply (Z.div_unique_pos _ _ k (t_diff - lv - k * 3600000000)); lia.
  - intros Hin.
    assert ((t_diff - lv) ÷ 3600000000 < 24); [|lia].
    apply Z.quot_lt_upper_bound; lia.
  - intros Hout.
    assert (24 ≤ (t_diff - lv) ÷ 3600000000); [|lia].
    apply Z.quot_le_lower_bound; lia.
Qed.

Lemma open_window_reports_hours_left_at_second_reading_witness :
  let d := (verify_user_by_token one_challenge "0123456789abcdef" 5 5 5).2 in
  let st := check_user_verification_status d 1
              (5 + timedelta_hours 24 - 1) (5 + timedelta_hours 24) in
  needs_verification st = false
  ∧ status_last_verified st = Some 5
  ∧ (∀ k, 0 ≤ k < 24 →
          k * timedelta_hours 1 ≤ 5 + timedelta_hours 24 - 5
            < (k + 1) * timedelta_hours 1 →
          hours_remaining st = 24 - k)
  ∧ (5 + timedelta_hours 24 - 5 < timedelta_hours 24 → 1 ≤ hours_remaining st ≤ 24)
  ∧ (timedelta_hours 24 ≤ 5 + timedelta_hours 24 - 5 → hours_remaining st = 0).
Proof.
  intros d.
  apply (open_window_reports_hours_left_at_second_reading d 1
           (5 + timedelta_hours 24 - 1) (5 + timedelta_hours 24) 5
           (mkUser (Some 5) (Some 1))).
  - vm_compute. reflexivity.
  - reflexivity.
  - vm_compute. reflexivity.
  - vm_compute. congruence.
Defined.

(** At the edge of the window: the first reading falls one microsecond
    before the 24 hours are over and the second on them, so the status asks
    for no verification and reports no hour left. *)
Example status_at_the_edge_of_the_window :
  let d := (verify_user_by_token one_challenge "0123456789abcdef" 5 5 5).2 in
  check_user_verification_status d 1
    (5 + timedelta_hours 24 - 1) (5 + timedelta_hours 24)
  = {| needs_verification := false; status_last_verified := Some 5;
       hours_remaining := 0 |}.
Proof. vm_compute. reflexivity. Qed.

End LedgerMore.

(** ** Delivery: from the download request to the grant *)

Module DeliveryFacts.
Import Time Models Verification VerificationFacts LedgerRuns LedgerMore Delivery.

Lemma hex_digit_is_not_v (c : ascii) : is_hex_digit c = true → c ≠ "v"%char.
Proof. by intros H ->. Qed.

Lemma remove_all_hex (s : string) :
  is_hex s = true → remove_all "verify_" 0 s = s.
Proof.
  induction s as [|c s IH]; [done|].
  cbn [is_hex]. intros [Hc Hs]%andb_true_iff.
  cbn [remove_all String.prefix].
  destruct (ascii_dec "v" c) as [<-|_]; [done|].
  by rewrite IH.
Qed.

(** The [/start] argument of a verification link gives back the token the
    link was built from, when the token is a hexadecimal digest. *)
Lemma start_argument_round_trip (tok : string) :
  is_hex tok = true →
  String.prefix "verify_" (start_argument tok) = true
  ∧ remove_all "verify_" 0 (start_argument tok) = tok.
Proof.
  intros Hhex. unfold start_argument.
  change ("verify_" +:+ tok) with
    (String "v" (String "e" (String "r" (String "i" (String "f"
      (String "y" (String "_" tok))))))).
  split; [by destruct tok|].
  assert (Hpre : String.prefix "verify_"
            (String "v" (String "e" (String "r" (String "i" (String "f"
              (String "y" (String "_" tok))))))) = true) by by destruct tok.
  cbn [remove_all]. rewrite Hpre.
  cbn [remove_all String.length Nat.sub].
  by apply remove_all_hex.
Qed.

(** Resolution of a pending, unexpired token whose subject has a user
    row. *)
Lemma verify_pending_valid (d : Db) (v : UserVerification) (u : User) (c : Z)
    (tv ts tm : Z) :
  tokens_unique d →
  v ∈ user_verifications d → is_verified v = false → is_valid v tv = true →
  users d !! user_id v = Some u → verification_count u = Some c →
  ∃ i, user_verifications d !! i = Some v
       ∧ verify_user_by_token d (verification_token v) tv ts tm
         = (Returned (success_result v),
            with_user
              (with_verifications d
                 (<[i := set_verified v ts]> (user_verifications d)))
              (user_id v) (mkUser (Some tm) (Some (c + 1)))).
Proof.
  intros Hnd Hin Hver Hvalid Hu Hc.
  destruct (first_pending_of_row _ v Hnd Hin Hver) as (i & Hi & Hfind).
  exists i. split; [done|].
  unfold verify_user_by_token, mark_verified.
  by rewrite Hfind, Hvalid, Hu, Hc.
Qed.

Lemma saved_user_has_count (d : Db) (uid : Z) :
  ledger_consistent d →
  ∃ u c, users (start_command_save_user d uid) !! uid = Some u
         ∧ verification_count u = Some c.
Proof.
  intros Hd. apply (consistent_start d uid) in Hd as (_ & _ & _ & Husers).
  specialize (Husers uid). unfold start_command_save_user in *.
  destruct (users d !! uid) as [u|] eqn:Hu.
  - rewrite Hu in Husers. destruct Husers as [Hc _]. by eexists u, _.
  - cbn [users with_user] in *. rewrite lookup_insert_eq in *.
    destruct Husers as [Hc _]. by eexists _, _.
Qed.

Lemma start_keeps_rows (d : Db) (uid : Z) :
  user_verifications (start_command_save_user d uid) = user_verifications d.
Proof. unfold start_command_save_user. by destruct (users d !! uid). Qed.

Lemma start_keeps_other_users (d : Db) (uid other : Z) :
  other ≠ uid →
  users (start_command_save_user d uid) !! other = users d !! other.
Proof.
  intros Hne. unfold start_command_save_user.
  destruct (users d !! uid); [done|]. cbn. by rewrite lookup_insert_ne.
Qed.

(** From request to grant.  In a consistent ledger, when a download request
    is answered with a challenge whose token is a hexadecimal digest and the
    requester follows the link before the 24 hours of the challenge are
    over, the resolution succeeds for the requested movie, and from then on
    every download request of that user, for any movie, made less than 24
    hours after the verification is granted at once and leaves the ledger
    as it is: no new challenge is issued. *)
Theorem followed_challenge_grants_every_request_for_a_day
    (BOT : string) (d : Db) (uid mid : Z) (t_check t_diff : Z)
    (tok : string) (resp : post_outcome) (ts te tc : Z)
    (req : VerificationRequest) (d1 : Db) (tv tst tm : Z) :
  ledger_consistent d → is_hex tok = true →
  handle_download_request BOT d true uid mid t_check t_diff tok resp ts te tc
    = (Returned (ReplyVerificationRequired req), d1) →
  tv < te + timedelta_hours 24 →
  ∃ d2,
    start_command d1 uid [start_argument (req_verification_token req)] tv tst tm
    = (Returned (Some {| success := true; res_user_id := Some uid;
                         res_movie_id := Some mid;
                         res_message := MsgVerificationSuccessful |}), d2)
    ∧ ∀ mid' now tok' resp' ts' te' tc',
        now - tm < timedelta_hours 24 →
        handle_download_request BOT d2 true uid mid' now now tok' resp' ts' te' tc'
        = (Returned ReplySendFile, d2).
Proof.
  intros Hd Hhex Hreq Hlt.
  unfold handle_download_request in Hreq. cbn [negb] in Hreq.
  destruct (needs_verification _) eqn:Hneeds; [|done].
  pose proof (consistent_create BOT d uid mid tok resp ts te tc Hd) as Hd1.
  destruct (create_result BOT d uid mid tok resp ts te tc)
    as [[e Hc]|(req' & short & pending & Hc & Hfresh & Htok & Hshort)];
    rewrite Hc in Hreq, Hd1; [done|].
  injection Hreq as <- <-. rewrite Htok. cbn [snd] in Hd1.
  set (v := mkVerification (next_verification_id (user_verifications d))
              uid mid tok (Some short) (verify_link BOT tok) tc
              (te + timedelta_hours 24) None false false) in *.
  set (d1 := {| user_verifications := user_verifications d ++ [v];
                users := users d;
                url_shorteners := url_shorteners d ++ pending |}) in *.
  unfold start_command.
  destruct (start_argument_round_trip tok Hhex) as [-> ->].
  destruct (saved_user_has_count d1 uid Hd1) as (u & c & Hu & Hcount).
  destruct (verify_pending_valid (start_command_save_user d1 uid) v u c tv tst tm)
    as (i & Hi & Hrun).
  - by apply consistent_start.
  - rewrite start_keeps_rows. cbn. apply elem_of_app. right.
    apply list_elem_of_here.
  - done.
  - unfold is_valid. cbn. by apply Z.ltb_lt.
  - done.
  - done.
  - cbn [verification_token v] in Hrun. rewrite Hrun. eexists. split; [done|].
    intros mid' now tok' resp' ts' te' tc' Hnow.
    unfold handle_download_request, check_user_verification_status. cbn [negb].
    cbn [users with_user user_id v]. rewrite lookup_insert_eq.
    unfold is_verified_today. cbn [last_verified].
    apply Z.ltb_lt in Hnow. by rewrite Hnow.
Qed.

Lemma followed_challenge_grants_every_request_for_a_day_witness :
  let d1 := (handle_download_request "bot" empty_db true 1 9 0 0
               "0123456789abcdef" (PostRaises ClientError) 0 0 0).2 in
  ∃ d2,
    start_command d1 1 [start_argument "0123456789abcdef"] 5 5 5
    = (Returned (Some {| success := true; res_user_id := Some 1;
                         res_movie_id := Some 9;
                         res_message := MsgVerificationSuccessful |}), d2)
    ∧ ∀ mid' now tok' resp' ts' te' tc',
        now - 5 < timedelta_hours 24 →
        handle_download_request "bot" d2 true 1 mid' now now tok' resp' ts' te' tc'
        = (Returned ReplySendFile, d2).
Proof.
  intros d1.
  apply (followed_challenge_grants_every_request_for_a_day "bot" empty_db 1 9 0 0
           "0123456789abcdef" (PostRaises ClientError) 0 0 0
           (mkRequest "0123456789abcdef"
              (Some "https://t.me/bot?start=verify_0123456789abcdef")
              (timedelta_hours 24) 1) d1 5 5 5).
  - apply consistent_empty.
  - reflexivity.
  - vm_compute. reflexivity.
  - vm_compute. reflexivity.
Defined.

(** The resolution does not look at who follows the link.  In a
    consistent ledger, when a user other than the token's subject sends the
    [/start verify_...] command for a pending, unexpired token (a
    hexadecimal digest) whose subject has a row in [users], the resolution
    succeeds, the window of the subject opens, and the window of the sender
    stays as it was.  (For a subject without a row the call raises
    [TypeError].) *)
Theorem link_followed_by_another_user_verifies_the_subject
    (d : Db) (v : UserVerification) (sender : Z) (tv ts tm : Z) :
  ledger_consistent d → is_hex (verification_token v) = true →
  v ∈ user_verifications d → is_verified v = false → is_valid v tv = true →
  is_Some (users d !! user_id v) → sender ≠ user_id v →
  ∃ d2,
    start_command d sender [start_argument (verification_token v)] tv ts tm
    = (Returned (Some (success_result v)), d2)
    ∧ window_open d2 (user_id v) tm = true
    ∧ ∀ now, window_open d2 sender now = window_open d sender now.
Proof.
  intros Hd Hhex Hin Hver Hvalid [u Hu] Hne.
  unfold start_command.
  destruct (start_argument_round_trip _ Hhex) as [-> ->].
  pose proof Hd as (_ & _ & _ & Husers).
  pose proof (Husers (user_id v)) as Hcount. rewrite Hu in Hcount.
  destruct Hcount as [Hcount _].
  destruct (verify_pending_valid (start_command_save_user d sender) v u
              (Z.of_nat (verified_tokens d (user_id v))) tv ts tm)
    as (i & Hi & Hrun); try done.
  - by apply consistent_start.
  - by rewrite start_keeps_rows.
  - by rewrite start_keeps_other_users.
  - rewrite Hrun. eexists. split; [done|]. split.
    + unfold window_open, check_user_verification_status.
      cbn [users with_user]. rewrite lookup_insert_eq.
      unfold is_verified_today. cbn [last_verified].
      rewrite Z.sub_diag. reflexivity.
    + intros now. unfold window_open, check_user_verification_status.
      cbn [users with_user with_verifications].
      rewrite lookup_insert_ne by done.
      unfold start_command_save_user.
      destruct (users d !! sender) as [us|] eqn:Hs; [by rewrite Hs|].
      cbn [users with_user]. by rewrite lookup_insert_eq.
Qed.

(** Two users have started the bot; user 1 holds a pending challenge. *)
Lemma link_followed_by_another_user_verifies_the_subject_witness :
  let d := start_command_save_user one_challenge 2 in
  let v := mkVerification 1 1 9 "0123456789abcdef"
             (Some "https://t.me/bot?start=verify_0123456789abcdef")
             "https://t.me/bot?start=verify_0123456789abcdef"
             0 (timedelta_hours 24) None false false in
  ∃ d2,
    start_command d 2 [start_argument "0123456789abcdef"] 5 5 5
    = (Returned (Some (success_result v)), d2)
    ∧ window_open d2 1 5 = true
    ∧ ∀ now, window_open d2 2 now = window_open d 2 now.
Proof.
  intros d v.
  apply (link_followed_by_another_user_verifies_the_subject d v 2 5 5 5).
  - unfold d, one_challenge. apply consistent_start.
    apply (consistent_create "bot"). apply consistent_start, consistent_empty.
  - reflexivity.
  - vm_compute. apply list_elem_of_here.
  - reflexivity.
  - reflexivity.
  - vm_compute. by eexists.
  - done.
Defined.

End DeliveryFacts.

(** ** database.py: link visits *)

Module UrlVisitsFacts.
Import UrlVisits.

Lemma existsb_none {A} (f : A → bool) (l : list A) :
  (∀ x, x ∈ l → f x = false) → existsb f l = false.
Proof.
  induction l as [|x l IH]; intros H; [done|]. cbn.
  rewrite (H x) by apply list_elem_of_here. cbn.
  apply IH. intros y Hy. apply H. by apply list_elem_of_further.
Qed.

Lemma fmap_unchanged {A} (f : A → A) (l : list A) :
  (∀ x, x ∈ l → f x = x) → f <$> l = l.
Proof.
  induction l as [|x l IH]; intros H; [done|]. cbn.
  rewrite (H x) by apply list_elem_of_here. f_equal.
  apply IH. intros y Hy. apply H. by apply list_elem_of_further.
Qed.

Lemma filter_none {A} (P : A → Prop) `{!∀ x, Decision (P x)} (l : list A) :
  (∀ x, x ∈ l → ¬ P x) → filter P l = [].
Proof.
  induction l as [|x l IH]; intros Hl; [done|].
  rewrite filter_cons, decide_False by (apply Hl, list_elem_of_here).
  apply IH. intros y Hy. apply Hl. by apply list_elem_of_further.
Qed.

Lemma others_not_of_user (tbl : list UrlVisit) (uid : Z) r :
  r ∈ filter (λ r, user_id r ≠ uid) tbl → user_id r ≠ uid.
Proof. by intros [? _]%list_elem_of_filter. Qed.

(** A new request replaces everything the user had: afterwards the user has
    exactly one row, the new unvisited one; no recent visit is recorded for
    the user for any movie; a visit for any other movie is refused; rows of
    other users are kept. *)
Theorem new_request_replaces_all_rows_of_the_user
    (tbl : list UrlVisit) (uid mid : Z) (url tok : string) (t0 : Z) :
  let tbl' := (create_verification_request tbl uid mid url tok t0).2 in
  filter (λ r, user_id r = uid) tbl' = [mkVisit uid mid url tok None t0]
  ∧ filter (λ r, user_id r ≠ uid) tbl' = filter (λ r, user_id r ≠ uid) tbl
  ∧ (∀ m now, has_recent_url_visit tbl' uid m now = false)
  ∧ (∀ m now, m ≠ mid → verify_url_visit tbl' uid m now = (false, tbl')).
Proof.
  cbv zeta. unfold create_verification_request. cbn [snd].
  set (others := filter (λ r, user_id r ≠ uid) tbl).
  set (new := mkVisit uid mid url tok None t0).
  assert (Hothers : ∀ r, r ∈ others → user_id r ≠ uid)
    by apply others_not_of_user.
  split_and!.
  - rewrite filter_app, filter_cons, decide_True by done.
    rewrite filter_none; [done|]. intros r Hr. by apply Hothers.
  - rewrite filter_app, filter_cons, decide_False by (cbn; congruence).
    rewrite app_nil_r. unfold others. apply list_filter_filter_l. done.
  - intros m now. unfold has_recent_url_visit.
    rewrite existsb_app. rewrite existsb_none.
    + cbn. by rewrite !andb_false_r.
    + intros r Hr. by rewrite (bool_decide_eq_false_2 _ (Hothers r Hr)).
  - intros m now Hm. unfold verify_url_visit.
    rewrite existsb_app. rewrite existsb_none.
    + cbn. unfold unvisited. cbn.
      by rewrite (bool_decide_eq_false_2 (mid = m)), andb_false_r by done.
    + intros r Hr. unfold unvisited.
      by rewrite (bool_decide_eq_false_2 _ (Hothers r Hr)).
Qed.


End UrlVisitsFacts.

(** ** database.py: the four-step verification *)

Module VerificationStepsFacts.
Import VerificationSteps VerificationStepsRuns UrlVisitsFacts.

(** Evaluates the comparisons of two step numbers in the goal. *)
Ltac decide_step_tests :=
  repeat match goal with
         | |- context [@bool_decide (@eq Z ?a ?b) ?d] =>
             let v := eval vm_compute in (@bool_decide (a = b) d) in
             match v with true => idtac | false => idtac end;
             change (@bool_decide (a = b) d) with v
         end.

Section OnePair.
Variables (uid mid : Z) (others : list Step).
Hypothesis others_foreign : ∀ r, r ∈ others → ¬ of_pair uid mid r.

Lemma open_step_foreign (step : Z) r :
  r ∈ others → open_step uid mid step r = false.
Proof.
  intros Hr. unfold open_step.
  by rewrite (bool_decide_eq_false_2 _ (others_foreign r Hr)).
Qed.

Lemma complete_on_four_rows (stamp : Z → option Z) (step now : Z) :
  complete_verification_step (others ++ four_rows uid mid stamp) uid mid step now
  = (bool_decide (step ∈ [1; 2; 3; 4] ∧ stamp step = None),
     others ++ four_rows uid mid (stamp_step stamp step now)).
Proof.
  unfold complete_verification_step. f_equal.
  - rewrite existsb_app, existsb_none by (intros r Hr; by apply open_step_foreign).
    unfold four_rows, open_step, of_pair. cbn.
    rewrite !(bool_decide_eq_true_2 (uid = uid ∧ mid = mid)) by done.
    cbn [andb].
    destruct (decide (step ∈ [1; 2; 3; 4])) as [Hin|Hout].
    + pose proof Hin as Hstep.
      repeat (apply elem_of_cons in Hstep as [-> | Hstep]);
        [..|by apply elem_of_nil in Hstep];
        (decide_step_tests; cbn [andb orb]; rewrite ?orb_false_r;
         destruct (stamp _) eqn:Hstamp; cbn; symmetry;
         [apply bool_decide_eq_false_2; by intros [_ ?]
         |by apply bool_decide_eq_true_2]).
    + rewrite !(bool_decide_eq_false_2 (_ = step))
        by (intros <-; apply Hout; repeat constructor).
      cbn. symmetry. apply bool_decide_eq_false_2. by intros [? _].
  - rewrite fmap_app, fmap_unchanged
      by (intros r Hr; by rewrite open_step_foreign).
    f_equal. unfold four_rows, stamp_step, open_step, of_pair. cbn.
    rewrite !(bool_decide_eq_true_2 (uid = uid ∧ mid = mid)) by done. cbn.
    repeat f_equal; by destruct (_ && _).
Qed.

Lemma status_of_four_rows (stamp : Z → option Z) :
  let k := length (filter (λ step, stamp step ≠ None) [1; 2; 3; 4]) in
  get_verification_status (others ++ four_rows uid mid stamp) uid mid
  = {| total_steps := 4; completed_steps := k;
       current_step := if (k <? 4)%nat then (k + 1)%nat else 4%nat;
       is_complete := Some (k =? 4)%nat |}.
Proof.
  cbv zeta. unfold get_verification_status.
  rewrite filter_app, filter_none by done.
  unfold four_rows, of_pair. cbn [fmap list_fmap app].
  rewrite !filter_cons. cbn [user_id movie_id completed_at].
  rewrite !(decide_True (P := uid = uid ∧ mid = mid)) by done.
  rewrite !filter_cons. cbn [completed_at filter list_filter].
  destruct (decide (stamp 1 ≠ None)), (decide (stamp 2 ≠ None)),
           (decide (stamp 3 ≠ None)), (decide (stamp 4 ≠ None)); reflexivity.
Qed.

Lemma filter_ext_elem {A} (P Q : A → Prop)
    `{!∀ x, Decision (P x)} `{!∀ x, Decision (Q x)} (l : list A) :
  (∀ x, x ∈ l → (P x ↔ Q x)) → filter P l = filter Q l.
Proof.
  induction l as [|x l IH]; intros Hl; [done|].
  rewrite !filter_cons.
  rewrite (decide_ext (P x) (Q x)) by (apply Hl, list_elem_of_here).
  rewrite IH; [done|]. intros y Hy. apply Hl. by apply list_elem_of_further.
Qed.

Lemma stamp_step_agrees (stamp : Z → option Z) (asked : list Z) (step now : Z) :
  stamps_agree stamp asked →
  stamps_agree (stamp_step stamp step now) (asked ++ [step]).
Proof.
  intros Hagree k Hk. unfold stamp_step.
  rewrite elem_of_app, list_elem_of_singleton. specialize (Hagree k Hk).
  case_bool_decide as Hks; cbn [andb].
  - subst k. case_bool_decide as Hnone; [|tauto]. split; [by right|done].
  - tauto.
Qed.

Lemma complete_all_on_four_rows (calls : list (Z * Z)) :
  ∀ (stamp : Z → option Z) (asked : list Z),
    stamps_agree stamp asked →
    ∃ stamp',
      complete_all (others ++ four_rows uid mid stamp) uid mid calls
      = others ++ four_rows uid mid stamp'
      ∧ stamps_agree stamp' (asked ++ calls.*1).
Proof.
  induction calls as [|[step now] calls IH]; intros stamp asked Hagree.
  - exists stamp. by rewrite app_nil_r.
  - cbn [complete_all foldl fst snd]. rewrite complete_on_four_rows. cbn [snd].
    destruct (IH (stamp_step stamp step now) (asked ++ [step])) as (stamp' & Hrun & Hd).
    { by apply stamp_step_agrees. }
    exists stamp'. split; [exact Hrun|].
    rewrite fmap_cons. cbn [fst]. by rewrite <- app_assoc in Hd.
Qed.

End OnePair.

Lemma started_rows (tbl : list Step) (uid mid : Z) :
  (start_multi_step_verification tbl uid mid).2
  = filter (λ r, ¬ of_pair uid mid r) tbl ++ four_rows uid mid (λ _, None).
Proof. reflexivity. Qed.

Lemma removed_rows_are_foreign (tbl : list Step) (uid mid : Z) r :
  r ∈ filter (λ r, ¬ of_pair uid mid r) tbl → ¬ of_pair uid mid r.
Proof. by intros [? _]%list_elem_of_filter. Qed.

(** After [start_multi_step_verification] the progress of a pair is the
    number of different steps, among 1 to 4, that were completed, in
    whatever order and however often they were asked for: the status counts
    each step once, is complete exactly when all four are done, and a
    further call for a step answers true only for one of the four steps
    that has not been completed yet. *)
Theorem four_step_progress_counts_each_step_once
    (tbl : list Step) (uid mid : Z) (calls : list (Z * Z)) :
  let tbl' :=
    complete_all (start_multi_step_verification tbl uid mid).2 uid mid calls in
  let k := steps_done calls.*1 in
  get_verification_status tbl' uid mid
  = {| total_steps := 4; completed_steps := k;
       current_step := if (k <? 4)%nat then (k + 1)%nat else 4%nat;
       is_complete := Some (k =? 4)%nat |}
  ∧ ∀ step now,
      (complete_verification_step tbl' uid mid step now).1
      = bool_decide (step ∈ [1; 2; 3; 4] ∧ step ∉ calls.*1).
Proof.
  cbv zeta. rewrite started_rows.
  set (others := filter (λ r, ¬ of_pair uid mid r) tbl).
  assert (Hforeign : ∀ r, r ∈ others → ¬ of_pair uid mid r)
    by apply removed_rows_are_foreign.
  destruct (complete_all_on_four_rows uid mid others Hforeign calls (λ _, None) [])
    as (stamp & -> & Hagree).
  { intros k _. split; [done|]. by intros ?%elem_of_nil. }
  rewrite app_nil_l in Hagree. split.
  - rewrite status_of_four_rows by done. cbv zeta.
    unfold steps_done. by rewrite (filter_ext_elem _ (λ k, k ∈ calls.*1) _ Hagree).
  - intros step now. rewrite complete_on_four_rows by done. cbn [fst].
    apply bool_decide_ext. split.
    + intros [Hin Hnone]. split; [done|]. intros Hasked.
      by apply (Hagree step Hin) in Hasked.
    + intros [Hin Hnot]. split; [done|].
      destruct (stamp step) eqn:Hs; [|done]. exfalso. apply Hnot.
      apply (Hagree step Hin). by rewrite Hs.
Qed.

Lemma filter_fmap_fixed {A} (P : A → Prop) `{!∀ x, Decision (P x)}
    (f : A → A) (l : list A) :
  (∀ x, P x → f x = x) → (∀ x, P (f x) → P x) →
  filter P (f <$> l) = filter P l.
Proof.
  intros Hfix Hback. induction l as [|x l IH]; [done|].
  rewrite fmap_cons, !filter_cons, IH.
  destruct (decide (P x)) as [Hx|Hx].
  - rewrite (Hfix x Hx). by rewrite decide_True.
  - rewrite decide_False; [done|]. intros Hfx. by apply Hx, Hback.
Qed.

Lemma status_by_rows (tbl tbl' : list Step) (uid mid : Z) :
  filter (of_pair uid mid) tbl' = filter (of_pair uid mid) tbl →
  get_verification_status tbl' uid mid = get_verification_status tbl uid mid.
Proof. unfold get_verification_status. by intros ->. Qed.

Lemma complete_keeps_other_pairs (tbl : list Step) (uid mid step now u' m' : Z) :
  (u', m') ≠ (uid, mid) →
  filter (of_pair u' m') (complete_verification_step tbl uid mid step now).2
  = filter (of_pair u' m') tbl.
Proof.
  intros Hne. unfold complete_verification_step. cbn [snd].
  apply filter_fmap_fixed.
  - intros r [Hu Hm]. unfold open_step.
    rewrite (bool_decide_eq_false_2 (of_pair uid mid r)); [done|].
    intros [Hu' Hm']. apply Hne. congruence.
  - intros r. by destruct (open_step uid mid step r).
Qed.

(** Starting and completing steps for one pair leaves the status of every
    other pair as it was. *)
Theorem steps_of_other_pairs_are_untouched
    (tbl : list Step) (uid mid : Z) (calls : list (Z * Z)) (u' m' : Z) :
  (u', m') ≠ (uid, mid) →
  get_verification_status
    (complete_all (start_multi_step_verification tbl uid mid).2 uid mid calls) u' m'
  = get_verification_status tbl u' m'.
Proof.
  intros Hne. apply status_by_rows.
  transitivity (filter (of_pair u' m') (start_multi_step_verification tbl uid mid).2).
  - generalize (start_multi_step_verification tbl uid mid).2.
    induction calls as [|[step now] calls IH]; intros t; [done|].
    cbn [complete_all foldl fst snd]. unfold complete_all in IH. rewrite IH.
    by apply complete_keeps_other_pairs.
  - rewrite started_rows, filter_app.
    rewrite (filter_none (of_pair u' m') (four_rows uid mid _)).
    + rewrite app_nil_r. apply list_filter_filter_l.
      intros r [Hu Hm] [Hu' Hm']. apply Hne. congruence.
    + intros r (k & -> & _)%list_elem_of_fmap [Hu Hm]. cbn in *.
      apply Hne. congruence.
Qed.

Lemma steps_of_other_pairs_are_untouched_witness :
  let tbl := (start_multi_step_verification [] 1 9).2 in
  get_verification_status
    (complete_all (start_multi_step_verification tbl 2 9).2 2 9 [(1, 100); (3, 101)])
    1 9
  = get_verification_status tbl 1 9.
Proof.
  intros tbl. apply (steps_of_other_pairs_are_untouched tbl 2 9). congruence.
Defined.

Example four_steps_out_of_order :
  let tbl := (start_multi_step_verification [] 1 9).2 in
  get_verification_status
    (complete_all tbl 1 9 [(3, 100); (3, 101); (1, 102); (7, 103)]) 1 9
  = {| total_steps := 4; completed_steps := 2; current_step := 3;
       is_complete := Some false |}
  ∧ get_verification_status [] 1 9
    = {| total_steps := 0; completed_steps := 0; current_step := 1;
         is_complete := None |}.
Proof. split; vm_compute; reflexivity. Qed.

End VerificationStepsFacts.

(** ** database.py: the catalog and the download log *)

Module CatalogFacts.
Import Time Catalog.

Lemma max_key_bounds (seq : Z) (keys : list Z) :
  seq ≤ foldr Z.max seq keys ∧ ∀ k, k ∈ keys → k ≤ foldr Z.max seq keys.
Proof.
  induction keys as [|x keys [IH1 IH2]]; cbn.
  - split; [lia|]. by intros k ?%elem_of_nil.
  - split; [lia|]. intros k [->|Hk]%elem_of_cons; [lia|].
    specialize (IH2 k Hk). lia.
Qed.

Lemma next_key_is_fresh (seq : Z) (keys : list Z) (k : Z) :
  k ∈ keys → k < next_key seq keys.
Proof.
  intros Hk. unfold next_key.
  pose proof (proj2 (max_key_bounds seq keys) k Hk). lia.
Qed.

Lemma no_movie_with_next_key (s : Store) (m : Movie) :
  m ∈ movies s → id m ≠ next_key (movies_seq s) (id <$> movies s).
Proof.
  intros Hm Heq.
  assert (id m ∈ id <$> movies s) as Hin by (apply list_elem_of_fmap; eauto).
  apply (next_key_is_fresh (movies_seq s)) in Hin. lia.
Qed.

(** A movie that was just added is found under the id [add_movie]
    returned, with the fields that were given and no download counted; the
    id is larger than every id in use, and looking up any other id gives
    what it gave before. *)
Theorem added_movie_is_found_under_its_new_id
    (s : Store) (title : string) (year : option Z)
    (quality part file_id file_name : string) (file_size : Z)
    (original_url shortened_url : string) (uploaded_by now : Z) :
  let r := add_movie s title year quality part file_id file_name file_size
             original_url shortened_url uploaded_by now in
  get_movie_by_id r.2 r.1
  = Some {| info_id := r.1; info_title := title; info_year := year;
            info_quality := quality; info_part_season_episode := part;
            info_file_id := file_id; info_file_name := file_name;
            info_file_size := file_size; info_shortened_url := shortened_url;
            info_download_count := 0 |}
  ∧ (∀ m, m ∈ movies s → id m < r.1)
  ∧ (∀ other, other ≠ r.1 → get_movie_by_id r.2 other = get_movie_by_id s other).
Proof.
  cbv zeta. unfold add_movie. cbn [fst snd].
  set (key := next_key (movies_seq s) (id <$> movies s)).
  set (row := mkMovie key title year quality part file_id file_name file_size
                original_url shortened_url now uploaded_by 0 None true).
  assert (Hfresh : ∀ m, m ∈ movies s → id m < key).
  { intros m Hm. apply next_key_is_fresh, list_elem_of_fmap. eauto. }
  split_and!.
  - unfold get_movie_by_id. cbn [movies].
    rewrite list_find_app_r.
    + cbn. by rewrite decide_True.
    + apply list_find_None, Forall_forall. intros m Hm [Hid _].
      specialize (Hfresh m Hm). lia.
  - done.
  - intros other Hother. unfold get_movie_by_id. cbn [movies].
    destruct (list_find (λ m, id m = other ∧ is_active m = true) (movies s))
      as [[i m]|] eqn:Hfind.
    + by rewrite (list_find_app_l _ _ _ _ _ Hfind).
    + rewrite list_find_app_r by done. cbn.
      rewrite decide_False; [done|]. intros [Hid _]. cbn in Hid. congruence.
Qed.

(** [increment_download_count] adds one download to the movie with the
    given id, and to no other: the lookup of that id shows the count one
    higher, every other lookup is unchanged. *)
Theorem increment_counts_one_download_of_that_movie
    (s : Store) (movie_id now : Z) :
  let s' := increment_download_count s movie_id now in
  get_movie_by_id s' movie_id
  = (λ i, {| info_id := info_id i; info_title := info_title i;
             info_year := info_year i; info_quality := info_quality i;
             info_part_season_episode := info_part_season_episode i;
             info_file_id := info_file_id i; info_file_name := info_file_name i;
             info_file_size := info_file_size i;
             info_shortened_url := info_shortened_url i;
             info_download_count := info_download_count i + 1 |})
    <$> get_movie_by_id s movie_id
  ∧ (∀ other, other ≠ movie_id →
       get_movie_by_id s' other = get_movie_by_id s other).
Proof.
  cbv zeta. unfold increment_download_count, get_movie_by_id. cbn [movies].
  split.
  - rewrite list_find_fmap.
    rewrite (list_find_ext _ (λ m, id m = movie_id ∧ is_active m = true));
      [|intros m; unfold compose; by destruct (bool_decide (id m = movie_id))].
    destruct (list_find _ (movies s)) as [[i m]|] eqn:Hfind; [|done].
    apply list_find_Some in Hfind as (_ & [Hid _] & _). cbn.
    by rewrite bool_decide_eq_true_2.
  - intros other Hother. rewrite list_find_fmap.
    rewrite (list_find_ext _ (λ m, id m = other ∧ is_active m = true));
      [|intros m; unfold compose; by destruct (bool_decide (id m = movie_id))].
    destruct (list_find _ (movies s)) as [[i m]|] eqn:Hfind; [|done].
    apply list_find_Some in Hfind as (_ & [Hid _] & _). cbn.
    rewrite bool_decide_eq_false_2; [done|congruence].
Qed.

(** When a download is listed for deletion. *)
Lemma listed_for_deletion (s : Store) (now : Z) (e : Deletion) :
  e ∈ get_files_to_delete s now ↔
  ∃ dl m due,
    dl ∈ download_logs s ∧ m ∈ movies s
    ∧ auto_delete_date dl = Some due ∧ log_movie_id dl = id m
    ∧ due ≤ now * second
    ∧ e = mkDeletion (log_id dl) (log_user_id dl) (log_movie_id dl)
            (file_id m) (title m) due.
Proof.
  unfold get_files_to_delete. rewrite list_elem_of_bind. split.
  - intros (dl & (m & He & Hm)%list_elem_of_bind & Hdl).
    destruct (auto_delete_date dl) as [due|] eqn:Hdue;
      [|by apply elem_of_nil in He].
    case_bool_decide as Hid; cbn [andb] in He; [|by apply elem_of_nil in He].
    destruct (Z.leb_spec due (now * second)); [|by apply elem_of_nil in He].
    apply list_elem_of_singleton in He. by exists dl, m, due.
  - intros (dl & m & due & Hdl & Hm & Hdue & Hid & Hle & ->).
    exists dl. split; [|done]. apply list_elem_of_bind. exists m. split; [|done].
    rewrite Hdue, bool_decide_eq_true_2 by done. cbn [andb].
    apply Z.leb_le in Hle. rewrite Hle. apply list_elem_of_here.
Qed.

(** The life of a logged download.  The download logged by [log_download]
    is listed by [get_files_to_delete] exactly from the instant its
    [auto_delete_date] is reached, and only if a movie row with its movie id
    exists; once [mark_file_deleted] was called for it, it is never listed
    again, while every other download is listed as before. *)
Theorem logged_download_is_listed_when_due_until_marked
    (s : Store) (uid : Z) (name : string) (movie_id minutes py_now now : Z) :
  let s1 := log_download s uid name movie_id minutes py_now now in
  let key := download_logs_seq s1 in
  let due := py_now + timedelta_minutes minutes in
  let s2 := mark_file_deleted s1 key in
  (∀ t, (∃ e, e ∈ get_files_to_delete s1 t ∧ del_download_id e = key)
        ↔ (∃ m, m ∈ movies s ∧ id m = movie_id) ∧ due ≤ t * second)
  ∧ (∀ t e, e ∈ get_files_to_delete s2 t → del_download_id e ≠ key)
  ∧ (∀ t e, del_download_id e ≠ key →
            (e ∈ get_files_to_delete s2 t ↔ e ∈ get_files_to_delete s t)).
Proof.
  cbv zeta. unfold log_download. cbn [download_logs_seq].
  set (key := next_key (download_logs_seq s) (log_id <$> download_logs s)).
  set (due := py_now + timedelta_minutes minutes).
  set (new := mkLog key uid name movie_id now (Some due)).
  set (s1 := {| movies := movies s; movies_seq := movies_seq s;
                download_logs := download_logs s ++ [new];
                download_logs_seq := key |}).
  assert (Hfresh : ∀ dl, dl ∈ download_logs s → log_id dl ≠ key).
  { intros dl Hdl Heq.
    assert (log_id dl ∈ log_id <$> download_logs s) as Hin
      by (apply list_elem_of_fmap; eauto).
    apply (next_key_is_fresh (download_logs_seq s)) in Hin. fold key in Hin. lia. }
  assert (Hmarked : download_logs (mark_file_deleted s1 key)
                    = download_logs s
                      ++ [mkLog key uid name movie_id now None]).
  { unfold mark_file_deleted. cbn [download_logs s1]. rewrite fmap_app.
    f_equal.
    - apply UrlVisitsFacts.fmap_unchanged. intros dl Hdl.
      by rewrite bool_decide_eq_false_2 by by apply Hfresh.
    - cbn. by rewrite bool_decide_eq_true_2. }
  split_and!.
  - intros t. split.
    + intros (e & (dl & m & due' & Hdl & Hm & Hdue & Hid & Hle & ->)%listed_for_deletion
                & Hkey).
      cbn in Hkey, Hdl, Hm.
      apply elem_of_app in Hdl as [Hdl|Hdl%list_elem_of_singleton].
      * by apply Hfresh in Hdl.
      * subst dl. cbn in Hdue, Hid. injection Hdue as <-. split; [|done].
        by exists m.
    + intros [(m & Hm & Hid) Hle]. eexists. split.
      * apply listed_for_deletion. exists new, m, due. split_and!; try done.
        cbn. apply elem_of_app. right. apply list_elem_of_here.
      * done.
  - intros t e (dl & m & due' & Hdl & Hm & Hdue & Hid & Hle & ->)%listed_for_deletion.
    rewrite Hmarked in Hdl. cbn.
    apply elem_of_app in Hdl as [Hdl|Hdl%list_elem_of_singleton].
    + by apply Hfresh.
    + by subst dl.
  - intros t e Hkey. rewrite !listed_for_deletion. rewrite Hmarked.
    split.
    + intros (dl & m & due' & Hdl & Hm & Hdue & Hid & Hle & ->).
      apply elem_of_app in Hdl as [Hdl|Hdl%list_elem_of_singleton].
      * by exists dl, m, due'.
      * by subst dl.
    + intros (dl & m & due' & Hdl & Hm & Hdue & Hid & Hle & ->).
      exists dl, m, due'. split_and!; try done. apply elem_of_app. by left.
Qed.

Example download_listed_after_ten_minutes :
  let s0 := (add_movie empty_store "Avengers Endgame" (Some 2019) "1080p" "Part 1"
               "FILE1" "avengers.mkv" 700 "https://t.me/bot?start=download_FILE1"
               "https://t.me/bot?start=get_FILE1" 42 1000).2 in
  let s1 := log_download s0 7 "alice" 1 10 (1000 * second) 1000 in
  get_files_to_delete s1 1599 = []
  ∧ get_files_to_delete s1 1600
    = [mkDeletion 1 7 1 "FILE1" "Avengers Endgame" (1600 * second)]
  ∧ get_files_to_delete (mark_file_deleted s1 1) 1600 = [].
Proof. split_and!; vm_compute; reflexivity. Qed.

End CatalogFacts.

(** ** bulk_upload_handler.py: from the update to the stored link *)

Module BulkUploadEntryFacts.
Import BulkUpload BulkUploadFacts Shortener BulkUploadEntry.

Section WithItems.
Context {UploadItem : Type}.
Variable ADMIN_IDS : list Z.
Variable upload_body : UploadItem → outcome Z.

(** *** Every interleaving of updates, replies and drain steps *)

Lemma batches_app (l k : list (@event UploadItem)) :
  batches (l ++ k) = batches l ++ batches k.
Proof. unfold batches. apply omap_app. Qed.

Lemma dispatched_app (l k : list (@event UploadItem)) :
  dispatched (l ++ k) = dispatched l ++ dispatched k.
Proof. unfold dispatched. by rewrite batches_app, concat_app. Qed.

Lemma idle_tasks_hold_nothing (l : list (@drain_point UploadItem)) :
  length (filter (λ d, active d = true) l) = 0%nat →
  concat (batch_of <$> l) = [].
Proof.
  induction l as [|d l IH]; [done|].
  rewrite filter_cons. destruct (decide (active d = true)) as [Hd|Hd].
  - cbn [length]. lia.
  - intros Hl. rewrite fmap_cons. cbn [concat]. rewrite (IH Hl).
    by destruct d.
Qed.

(** When the only task that may be active is task [k], the batch in flight
    is the batch of task [k], before and after a step of it. *)
Lemma the_active_task (l : list (@drain_point UploadItem)) (k : nat) d d' :
  l !! k = Some d →
  length (filter (λ d, active d = true) l) = (if active d then 1 else 0)%nat →
  concat (batch_of <$> l) = batch_of d
  ∧ concat (batch_of <$> <[k := d']> l) = batch_of d'
  ∧ length (filter (λ d, active d = true) (<[k := d']> l))
    = (if active d' then 1 else 0)%nat.
Proof.
  intros Hk Hcount.
  rewrite insert_take_drop by eauto using lookup_lt_Some.
  rewrite <- (take_drop_middle l k d Hk) in Hcount |- * at 1.
  rewrite !filter_app, !filter_cons, !length_app in *.
  rewrite !fmap_app, !fmap_cons, !concat_app in *. cbn [concat].
  assert (length (filter (λ d, active d = true) (take k l)) = 0%nat
          ∧ length (filter (λ d, active d = true) (drop (S k) l)) = 0%nat)
    as [Hbefore Hafter].
  { revert Hcount. destruct (decide (active d = true)) as [->|Hd].
    - cbn [length]. lia.
    - apply not_true_is_false in Hd. rewrite Hd. lia. }
  rewrite !(idle_tasks_hold_nothing _ Hbefore), !(idle_tasks_hold_nothing _ Hafter).
  rewrite Hbefore, !app_nil_r. cbn [app].
  split_and!; [done|done|].
  destruct (decide (active d' = true)) as [->|Hd]; cbn [length].
  - by rewrite Hafter.
  - apply not_true_is_false in Hd. by rewrite Hd, Hafter.
Qed.

Lemma active_task_is_counted (l : list (@drain_point UploadItem)) (k : nat) d :
  l !! k = Some d → active d = true →
  (1 ≤ length (filter (λ d, active d = true) l))%nat.
Proof.
  intros Hk Hd. rewrite <- (take_drop_middle l k d Hk).
  rewrite filter_app, filter_cons, decide_True, length_app by done.
  cbn [length]. lia.
Qed.

(** A task that is not active is replaced by one that is not. *)
Lemma idle_task_replaced (l : list (@drain_point UploadItem)) (k : nat) d d' :
  l !! k = Some d → active d = false → active d' = false →
  concat (batch_of <$> <[k := d']> l) = concat (batch_of <$> l)
  ∧ length (filter (λ d, active d = true) (<[k := d']> l))
    = length (filter (λ d, active d = true) l).
Proof.
  intros Hk Hd Hd'.
  pose proof (insert_take_drop l k d' (lookup_lt_Some _ _ _ Hk)) as Hins.
  pose proof (take_drop_middle l k d Hk) as Hl.
  revert Hins Hl. generalize (take k l) (drop (S k) l). intros l1 l2 -> <-.
  rewrite !filter_app, !filter_cons, !fmap_app, !fmap_cons, !concat_app.
  rewrite !decide_False by congruence. cbn [concat].
  by destruct d, d'.
Qed.

(** The test of the loop keeps the invariant, for a task that holds no
    batch and is the only one that may be active. *)
Lemma loop_head_keeps (w : @EventLoop UploadItem) (k p f : nat) d
    (files : list UploadItem) :
  drains w !! k = Some d → batch_of d = [] →
  length (filter (λ d, active d = true) (drains w))
    = (if active d then 1 else 0)%nat →
  is_processing (handler w) = true →
  dispatched (log w) ++ upload_queue (handler w) = files →
  Forall (λ d, match d with
               | DrainGather batch _ _ =>
                   (1 ≤ length batch ≤ MAX_CONCURRENT_UPLOADS)%nat
               | _ => True
               end) (drains w) →
  Forall (λ b, (1 ≤ length b ≤ MAX_CONCURRENT_UPLOADS)%nat) (batches (log w)) →
  Forall (λ e, match e with
               | EBatch b r => r = (λ it, GValue (succeeds upload_body it)) <$> b
               | ESleep delay => delay = BULK_UPLOAD_DELAY
               end) (log w) →
  well_run upload_body (loop_head w k p f) files.
Proof.
  intros Hk Hbatch Hcount Hflag Hfiles Hsizes Hlog Hres.
  destruct (upload_queue (handler w)) as [|item queue] eqn:Hq.
  - rewrite loop_head_ends by done.
    destruct (the_active_task _ k d (DrainReturned (summary_of p f)) Hk Hcount)
      as (_ & Hin & Hone).
    unfold well_run, in_flight.
    cbn [handler upload_queue is_processing drains log].
    rewrite Hin, Hone. split_and!; try done.
    by apply Forall_insert.
  - rewrite loop_head_pops_the_head by (by rewrite Hq).
    destruct (the_active_task _ k d
                (DrainGather (take MAX_CONCURRENT_UPLOADS (upload_queue (handler w)))
                   p f) Hk Hcount) as (_ & Hin & Hone).
    unfold well_run, in_flight.
    cbn [handler upload_queue is_processing drains log].
    rewrite Hin, Hone, Hflag. cbn [batch_of active].
    rewrite take_drop. split_and!; [by rewrite Hq|done| |done|done].
    apply Forall_insert; [done|].
    rewrite length_take, Hq. unfold MAX_CONCURRENT_UPLOADS. cbn [length]. lia.
Qed.

Lemma arrive_keeps (w : @EventLoop UploadItem) (u : Update)
    (files : list UploadItem) :
  well_run upload_body w files →
  well_run upload_body (arrive ADMIN_IDS w u) (files ++ admin_files ADMIN_IDS [u]).
Proof.
  intros (Hfiles & Hcount & Hsizes & Hlog & Hres).
  unfold arrive, admin_files. cbn [omap list_omap].
  case_bool_decide as Hadmin; cbn [negb].
  - destruct (upload_item u) as [item|].
    + unfold well_run, in_flight in *.
      cbn [handler upload_queue is_processing drains log append_to_queue].
      rewrite <- Hfiles, <- !app_assoc. by split_and!.
    + rewrite app_nil_r. by split_and!.
  - rewrite app_nil_r. by split_and!.
Qed.

Lemma replied_keeps (w : @EventLoop UploadItem) (i : nat)
    (files : list UploadItem) :
  well_run upload_body w files → well_run upload_body (replied w i) files.
Proof.
  intros (Hfiles & Hcount & Hsizes & Hlog & Hres).
  unfold replied.
  destruct (awaiting_reply w !! i) as [[[]|e]|]; [|by split_and!..].
  destruct (is_processing (handler w)) eqn:Hflag.
  - unfold well_run. cbn [handler drains log]. by rewrite Hflag.
  - unfold well_run, in_flight in *. cbn [handler drains log].
    rewrite fmap_app, concat_app, filter_app, length_app, Hflag.
    cbn [fmap list_fmap batch_of concat]. rewrite app_nil_r.
    rewrite filter_cons, decide_False by done. cbn [filter length].
    rewrite Nat.add_0_r. split_and!; try done.
    apply Forall_app. split; [done|]. by apply Forall_singleton.
Qed.

Lemma advance_keeps (w : @EventLoop UploadItem) (k : nat)
    (files : list UploadItem) :
  well_run upload_body w files → well_run upload_body (advance upload_body w k) files.
Proof.
  intros Hw. pose proof Hw as (Hfiles & Hcount & Hsizes & Hlog & Hres).
  unfold in_flight in Hfiles.
  destruct (drains w !! k) as [d|] eqn:Hk;
    [|unfold advance; by rewrite Hk].
  destruct d as [|batch p f|p f|summary].
  - (* the task starts *)
    unfold advance. rewrite Hk.
    destruct (is_processing (handler w)) eqn:Hflag.
    + destruct (idle_task_replaced _ k _ (DrainReturned None) Hk eq_refl eq_refl)
        as [Hin Hone].
      unfold well_run, in_flight. cbn [handler drains log].
      rewrite Hin, Hone, Hflag. split_and!; try done.
      by apply Forall_insert.
    + assert (Hnone : concat (batch_of <$> drains w) = [])
        by (by apply idle_tasks_hold_nothing).
      rewrite Hnone in Hfiles.
      eapply loop_head_keeps; cbn [handler upload_queue is_processing drains log];
        try done.
  - (* the batch has been gathered *)
    assert (Hflag : is_processing (handler w) = true).
    { pose proof (active_task_is_counted _ k _ Hk eq_refl) as Hone.
      destruct (is_processing (handler w)); [done|lia]. }
    rewrite Hflag in Hcount.
    rewrite (advance_after_gather upload_body w k batch p f Hk).
    set (results := (λ it, GValue (succeeds upload_body it)) <$> batch).
    set (p' := (p + _)%nat). set (f' := (f + _)%nat).
    assert (Hbatch : (1 ≤ length batch ≤ MAX_CONCURRENT_UPLOADS)%nat).
    { by apply (Forall_lookup_1 _ _ _ _ Hsizes Hk). }
    assert (Hlog' : ∀ tail, batches tail = [] →
              Forall (λ b, (1 ≤ length b ≤ MAX_CONCURRENT_UPLOADS)%nat)
                (batches (log w ++ [EBatch batch results] ++ tail))).
    { intros tail Htail. rewrite !batches_app, Htail, app_nil_r.
      apply Forall_app. split; [done|]. by apply Forall_singleton. }
    destruct (upload_queue (handler w)) as [|item queue] eqn:Hq.
    + destruct (the_active_task _ k _ (DrainReturned (summary_of p' f')) Hk Hcount)
        as (Hbefore & Hin & Hone).
      rewrite Hbefore in Hfiles. cbn [batch_of] in Hfiles.
      unfold well_run, in_flight. cbn [handler upload_queue is_processing drains log].
      rewrite Hin, Hone, dispatched_app. cbn [batch_of active].
      split_and!; try done.
      * unfold dispatched at 2. cbn. rewrite app_nil_r.
        by rewrite app_nil_r in Hfiles |- *.
      * by apply Forall_insert.
      * apply (Hlog' []). done.
      * apply Forall_app. split; [done|]. by apply Forall_singleton.
    + destruct (the_active_task _ k _ (DrainSleep p' f') Hk Hcount)
        as (Hbefore & Hin & Hone).
      rewrite Hbefore in Hfiles. cbn [batch_of] in Hfiles.
      unfold well_run, in_flight. cbn [handler upload_queue is_processing drains log].
      rewrite Hin, Hone, Hflag, Hq, dispatched_app. cbn [batch_of active].
      split_and!; try done.
      * unfold dispatched at 2. cbn. rewrite app_nil_r.
        by rewrite <- app_assoc.
      * by apply Forall_insert.
      * by apply Hlog'.
      * apply Forall_app. split; [done|]. by repeat constructor.
  - (* the sleep is over *)
    assert (Hflag : is_processing (handler w) = true).
    { pose proof (active_task_is_counted _ k _ Hk eq_refl) as Hone.
      destruct (is_processing (handler w)); [done|lia]. }
    rewrite Hflag in Hcount.
    destruct (the_active_task _ k _ DrainCreated Hk Hcount) as (Hbefore & _).
    rewrite Hbefore in Hfiles. cbn [batch_of app] in Hfiles.
    unfold advance. rewrite Hk.
    by eapply loop_head_keeps.
  - unfold advance. by rewrite Hk.
Qed.

Lemma run_keeps (schedule : list step) :
  well_run upload_body (run ADMIN_IDS upload_body idle_loop schedule)
    (admin_files ADMIN_IDS (arrived schedule)).
Proof.
  induction schedule as [|s schedule IH] using rev_ind.
  - unfold well_run. cbn. by split_and!.
  - unfold run, arrived, admin_files in *.
    rewrite foldl_app, !omap_app. cbn [foldl].
    destruct s as [u|i|k]; cbn [exec omap list_omap].
    + by apply arrive_keeps.
    + rewrite app_nil_r. by apply replied_keeps.
    + rewrite app_nil_r. by apply advance_keeps.
Qed.

(** Every file an admin sends is ingested at most once, in arrival order,
    and none is lost.  Start from an idle handler with an empty queue and
    let updates arrive, replies come back and drain tasks take their steps
    in any order.  At every point the items already dispatched, followed by
    the batch being gathered and by the queue, are the files of the admins'
    updates in arrival order, also those whose confirmation failed; nothing
    of a non-admin is among them.  [get_queue_status] reports
    [is_processing] exactly while one drain task is between its first pop
    and its end, and there are never two.  Every batch of the log holds
    between one and five items and has one result per item, and every sleep
    is [BULK_UPLOAD_DELAY] long. *)
Theorem admin_files_are_ingested_once_in_order (schedule : list step) :
  let w := run ADMIN_IDS upload_body idle_loop schedule in
  dispatched (log w) ++ in_flight w ++ upload_queue (handler w)
    = admin_files ADMIN_IDS (arrived schedule)
  ∧ length (filter (λ d, active d = true) (drains w))
    = (if (get_queue_status (handler w)).2 then 1 else 0)%nat
  ∧ Forall (λ b, (1 ≤ length b ≤ 5)%nat) (batches (log w))
  ∧ Forall (λ e, match e with
                 | EBatch b r => r = (λ it, GValue (succeeds upload_body it)) <$> b
                 | ESleep delay => delay = BULK_UPLOAD_DELAY
                 end) (log w).
Proof.
  destruct (run_keeps schedule) as (Hfiles & Hcount & _ & Hlog & Hres).
  by split_and!.
Qed.

End WithItems.

Lemma string_app_inv_head (s a b : string) : s +:+ a = s +:+ b → a = b.
Proof.
  induction s as [|c s IH]; [done|]. intros H.
  change (String c (s +:+ a) = String c (s +:+ b)) in H.
  injection H as H. by apply IH.
Qed.

Lemma get_link_is_not_download_link (bot file_id : string) :
  get_link bot file_id ≠ download_link bot file_id.
Proof.
  unfold get_link, download_link. intros H.
  apply (string_app_inv_head "https://t.me/") in H.
  apply string_app_inv_head in H. cbv [String.append] in H. congruence.
Qed.

(** The link stored for an uploaded file is never the plain download link
    and never empty.  It is the [get_] link of the file whenever the
    shortener gave nothing usable, and otherwise the trimmed answer of the
    shortener, which starts with [http]. *)
Theorem stored_link_is_get_link_or_the_short_url
    (api_token bot file_id : string) (resp : get_outcome) :
  let link := stored_link api_token bot file_id resp in
  link ≠ download_link bot file_id
  ∧ link ≠ ""
  ∧ (link = get_link bot file_id
     ∨ ∃ body, resp = GetResponse 200 (Returned body)
               ∧ link = strip body ∧ String.prefix "http" link = true)
  ∧ (shorten_url api_token (download_link bot file_id) resp
     = download_link bot file_id → link = get_link bot file_id).
Proof.
  cbv zeta. unfold stored_link.
  assert (Hget : get_link bot file_id ≠ "")
    by (unfold get_link; cbv [String.append]; congruence).
  set (original := download_link bot file_id).
  set (short := shorten_url api_token original resp).
  case_bool_decide as Hempty; cbn [orb].
  { split_and!; [apply get_link_is_not_download_link|done|by left|done]. }
  case_bool_decide as Hsame.
  { split_and!; [apply get_link_is_not_download_link|done|by left|done]. }
  split_and!; [done|done| |done].
  right. subst short. unfold shorten_url in *.
  case_bool_decide; [done|].
  destruct resp as [e|status [body|e]]; try done;
    destruct (Z.eqb_spec status 200) as [->|]; try done.
  destruct (negb (bool_decide (strip body = "")) && String.prefix "http" (strip body))
    eqn:Hok; [|done].
  apply andb_true_iff in Hok as [_ Hpre]. by exists body.
Qed.

End BulkUploadEntryFacts.

(** ** utils.py: captions and truncated text *)

Module UtilsFacts.
Import Shortener Utils.

Lemma length_append (a b : string) :
  String.length (a +:+ b) = (String.length a + String.length b)%nat.
Proof.
  induction a as [|c a IH]; [done|].
  change (String c a +:+ b) with (String c (a +:+ b)). cbn. by rewrite IH.
Qed.

Lemma length_substring (n : nat) (s : string) :
  String.length (String.substring 0 n s) = Nat.min n (String.length s).
Proof.
  revert n. induction s as [|c s IH]; intros [|n]; cbn; try done.
  by rewrite IH.
Qed.

Lemma substring_is_prefix (n : nat) (s : string) :
  String.prefix (String.substring 0 n s) s = true.
Proof.
  revert n. induction s as [|c s IH]; intros [|n]; cbn; try done.
  destruct (ascii_dec c c); [apply IH|done].
Qed.

(** [truncate_text] keeps to a bound of three or more: a text within the bound
    is returned as it is, a longer one becomes a head of the text followed
    by three dots, exactly [max_length] long. *)
Theorem truncated_text_is_within_the_bound (text : string) (max_length : Z) :
  3 ≤ max_length →
  let out := truncate_text text max_length in
  len out ≤ max_length
  ∧ (len text ≤ max_length → out = text)
  ∧ (max_length < len text →
     len out = max_length
     ∧ ∃ head, out = head +:+ "..." ∧ String.prefix head text = true).
Proof.
  intros Hmax. cbv zeta. unfold truncate_text.
  destruct (Z.leb_spec (len text) max_length) as [Hle|Hgt].
  { split_and!; [done|done|lia]. }
  assert (Hlen : len (slice_to text (max_length - 3) +:+ "...") = max_length).
  { unfold len, slice_to in *. rewrite length_append, length_substring.
    destruct (Z.ltb_spec (max_length - 3) 0); [lia|]. cbn [String.length]. lia. }
  split_and!; [lia|lia|].
  intros _. split; [done|].
  eexists. split; [done|]. apply substring_is_prefix.
Qed.

Lemma truncated_text_is_within_the_bound_witness :
  let out := truncate_text "The Shawshank Redemption" 10 in
  len out ≤ 10
  ∧ (len "The Shawshank Redemption" ≤ 10 → out = "The Shawshank Redemption"%string)
  ∧ (10 < len "The Shawshank Redemption" →
     len out = 10
     ∧ ∃ head, out = head +:+ "..."
               ∧ String.prefix head "The Shawshank Redemption" = true).
Proof. apply (truncated_text_is_within_the_bound "The Shawshank Redemption" 10). lia. Defined.

(** Below three the bound is not kept: the three dots alone are longer than
    [max_length], and a negative slice end counts from the end of the text. *)
Theorem truncated_text_exceeds_a_bound_below_three (text : string) (max_length : Z) :
  max_length < 3 → max_length < len text →
  max_length < len (truncate_text text max_length)
  ∧ len (truncate_text text max_length) = Z.max (len text + max_length) 3.
Proof.
  intros Hmax Hlong. unfold truncate_text.
  destruct (Z.leb_spec (len text) max_length) as [Hle|Hgt]; [lia|].
  unfold len, slice_to in *. rewrite length_append, length_substring.
  destruct (Z.ltb_spec (max_length - 3) 0); [|lia].
  cbn [String.length]. unfold len. lia.
Qed.

Lemma truncated_text_exceeds_a_bound_below_three_witness :
  2 < len (truncate_text "Heat" 2)
  ∧ len (truncate_text "Heat" 2) = Z.max (len "Heat" + 2) 3.
Proof.
  apply (truncated_text_exceeds_a_bound_below_three "Heat" 2); [lia|vm_compute; reflexivity].
Defined.

(** *** Whitespace at the two ends *)

Lemma append_assoc (a b c : string) : (a +:+ b) +:+ c = a +:+ (b +:+ c).
Proof.
  induction a as [|x a IH]; [done|].
  change (String x a +:+ b) with (String x (a +:+ b)).
  change (String x (a +:+ b) +:+ c) with (String x ((a +:+ b) +:+ c)).
  by rewrite IH.
Qed.

Lemma lstrip_head (s : string) :
  lstrip s = "" ∨ ∃ c r, lstrip s = String c r ∧ is_space c = false.
Proof.
  induction s as [|c s IH]; cbn; [by left|].
  destruct (is_space c) eqn:Hc; [done|]. right. by exists c, s.
Qed.

Lemma rstrip_head (c : ascii) (s : string) :
  rstrip (String c s) = "" ∨ ∃ r, rstrip (String c s) = String c r.
Proof.
  cbn. destruct (rstrip s); [destruct (is_space c)|]; eauto.
Qed.

Lemma rstrip_rstrip (s : string) : rstrip (rstrip s) = rstrip s.
Proof.
  induction s as [|c s IH]; [done|]. cbn.
  destruct (rstrip s) as [|d r] eqn:Hr.
  - destruct (is_space c) eqn:Hc; [done|]. cbn. by rewrite Hc.
  - cbn in IH |- *. by rewrite IH.
Qed.

Lemma lstrip_of_stripped (s : string) : lstrip (strip s) = strip s.
Proof.
  unfold strip. destruct (lstrip_head s) as [-> | (c & r & -> & Hc)]; [done|].
  destruct (rstrip_head c r) as [-> | [r' ->]]; [done|]. cbn. by rewrite Hc.
Qed.

Lemma rstrip_of_stripped (s : string) : rstrip (strip s) = strip s.
Proof. apply rstrip_rstrip. Qed.

Lemma lstrip_app (s x : string) :
  s ≠ "" → lstrip s = s → lstrip (s +:+ x) = s +:+ x.
Proof.
  intros Hne Hs. destruct (lstrip_head s) as [He | (c & r & Hr & Hc)]; [congruence|].
  rewrite Hs in Hr. subst s.
  change (String c r +:+ x) with (String c (r +:+ x)). cbn. by rewrite Hc.
Qed.

Lemma rstrip_app_space (s : string) : rstrip (s +:+ " ") = rstrip s.
Proof.
  induction s as [|c s IH]; [done|].
  change (String c s +:+ " ") with (String c (s +:+ " ")). cbn. by rewrite IH.
Qed.

Lemma strip_between_spaces (s : string) :
  s ≠ "" → lstrip s = s → rstrip s = s → strip (" " +:+ s +:+ " ") = s.
Proof.
  intros Hne Hl Hr. unfold strip.
  change (" " +:+ s +:+ " ") with (String " " (s +:+ " ")).
  change (lstrip (String " " (s +:+ " "))) with (lstrip (s +:+ " ")).
  by rewrite lstrip_app, rstrip_app_space.
Qed.

Lemma strip_before_space (s : string) :
  s ≠ "" → lstrip s = s → rstrip s = s → strip (s +:+ " ") = s.
Proof.
  intros Hne Hl Hr. unfold strip. by rewrite lstrip_app, rstrip_app_space.
Qed.

Lemma strip_after_space (s : string) :
  lstrip s = s → rstrip s = s → strip (" " +:+ s) = s.
Proof.
  intros Hl Hr. unfold strip.
  change (lstrip (" " +:+ s)) with (lstrip s). by rewrite Hl.
Qed.

(** *** The separator *)

Lemma has_char_app (c : ascii) (a b : string) :
  has_char c (a +:+ b) = has_char c a || has_char c b.
Proof.
  induction a as [|x a IH]; [done|].
  change (String x a +:+ b) with (String x (a +:+ b)).
  unfold has_char in *. cbn. by rewrite IH, orb_assoc.
Qed.

Lemma has_char_lstrip (c : ascii) (s : string) :
  has_char c s = false → has_char c (lstrip s) = false.
Proof.
  induction s as [|x s IH]; [done|]. cbn [lstrip].
  destruct (is_space x); [|done].
  unfold has_char in *. cbn. intros [_ ?]%orb_false_iff. by apply IH.
Qed.

Lemma has_char_rstrip (c : ascii) (s : string) :
  has_char c s = false → has_char c (rstrip s) = false.
Proof.
  induction s as [|x s IH]; [done|].
  unfold has_char in *. cbn. intros [Hx Hs]%orb_false_iff.
  specialize (IH Hs). destruct (rstrip s) as [|d r].
  - destruct (is_space x); [done|]. cbn. by rewrite Hx.
  - cbn in IH |- *. by rewrite Hx, IH.
Qed.

Lemma has_char_strip (c : ascii) (s : string) :
  has_char c s = false → has_char c (strip s) = false.
Proof. intros. by apply has_char_rstrip, has_char_lstrip. Qed.

Lemma split_parts_app (sep : ascii) (a b : string) :
  has_char sep a = false →
  split_parts sep (a +:+ b) = ((a +:+ (split_parts sep b).1), (split_parts sep b).2).
Proof.
  induction a as [|x a IH].
  { intros _. cbv [String.append]. by destruct (split_parts sep b). }
  change (String x a +:+ b) with (String x (a +:+ b)).
  unfold has_char in *. cbn. intros [Hx Ha]%orb_false_iff.
  rewrite (IH Ha). rewrite eqb_sym in Hx. by rewrite Hx.
Qed.

Lemma split_app (sep : ascii) (a rest : string) :
  has_char sep a = false →
  split sep (a +:+ String sep rest) = a :: split sep rest.
Proof.
  intros Ha. unfold split. rewrite (split_parts_app _ _ _ Ha). cbn.
  destruct (split_parts sep rest) as [p ps]. rewrite Ascii.eqb_refl. cbn.
  f_equal. clear. induction a as [|x a IH]; [done|].
  change (String x a +:+ "") with (String x (a +:+ "")). by rewrite IH.
Qed.

Lemma split_one (sep : ascii) (a : string) :
  has_char sep a = false → split sep a = [a].
Proof.
  intros Ha. unfold split. induction a as [|x a IH]; [done|].
  unfold has_char in *. cbn in *. apply orb_false_iff in Ha as [Hx Ha].
  specialize (IH Ha). destruct (split_parts sep a) as [p ps].
  rewrite eqb_sym in Hx. rewrite Hx. injection IH as -> ->. done.
Qed.

Lemma split_fields (sep : ascii) (s : string) :
  Forall (λ p, has_char sep p = false) (split sep s).
Proof.
  unfold split. induction s as [|x s IH]; [by repeat constructor|].
  cbn. destruct (split_parts sep s) as [p ps].
  apply Forall_cons in IH as [Hp Hps].
  destruct (Ascii.eqb_spec x sep) as [->|Hne].
  - by repeat constructor.
  - constructor; [|done]. unfold has_char in *. cbn. rewrite Hp, orb_false_r.
    apply eqb_neq. congruence.
Qed.

(** *** The year *)

Lemma digit_facts (k : Z) :
  0 ≤ k < 10 →
  is_digit (digit k) = true ∧ digit_value (digit k) = k
  ∧ is_space (digit k) = false ∧ Ascii.eqb "|" (digit k) = false.
Proof.
  intros Hk.
  assert (Hcases : k = 0 ∨ k = 1 ∨ k = 2 ∨ k = 3 ∨ k = 4 ∨ k = 5 ∨ k = 6
                   ∨ k = 7 ∨ k = 8 ∨ k = 9) by lia.
  destruct_or!; subst k; vm_compute; done.
Qed.

Ltac year_digits n :=
  destruct (digit_facts (n / 1000)) as (Hd1 & Hv1 & Hs1 & Hp1); [Z.div_mod_to_equations; lia|];
  destruct (digit_facts (n / 100 mod 10)) as (Hd2 & Hv2 & Hs2 & Hp2); [Z.div_mod_to_equations; lia|];
  destruct (digit_facts (n / 10 mod 10)) as (Hd3 & Hv3 & Hs3 & Hp3); [Z.div_mod_to_equations; lia|];
  destruct (digit_facts (n mod 10)) as (Hd4 & Hv4 & Hs4 & Hp4); [Z.div_mod_to_equations; lia|].

Lemma search_year_of_year_text (n : Z) :
  0 ≤ n ≤ 9999 → search_year (year_text n) = Some n.
Proof.
  intros Hn. year_digits n.
  unfold year_text. cbn [search_year leading_year].
  rewrite Hd1, Hd2, Hd3, Hd4, Hv1, Hv2, Hv3, Hv4. cbn [andb]. f_equal.
  Z.div_mod_to_equations. lia.
Qed.

Lemma year_text_is_clean (n : Z) : 0 ≤ n ≤ 9999 → clean_field (year_text n).
Proof.
  intros Hn. year_digits n. unfold clean_field, year_text. split_and!.
  - done.
  - cbn [lstrip]. by rewrite Hs1.
  - cbn [rstrip]. by rewrite Hs4.
  - unfold has_char. cbn [list_ascii_of_string existsb].
    by rewrite Hp1, Hp2, Hp3, Hp4.
Qed.

Lemma leading_year_bounds (s : string) (y : Z) :
  leading_year s = Some y → 0 ≤ y ≤ 9999.
Proof.
  destruct s as [|a [|b [|c [|d s]]]]; try done. cbn.
  destruct (is_digit a) eqn:Ha; [|done]. destruct (is_digit b) eqn:Hb; [|done].
  destruct (is_digit c) eqn:Hc; [|done]. destruct (is_digit d) eqn:Hd; [|done].
  cbn. intros [= <-]. unfold is_digit, digit_value in *.
  repeat match goal with
         | H : _ && _ = true |- _ => apply andb_true_iff in H as [?%Nat.leb_le ?%Nat.leb_le]
         end.
  lia.
Qed.

Lemma search_year_bounds (s : string) (y : Z) :
  search_year s = Some y → 0 ≤ y ≤ 9999.
Proof.
  induction s as [|c s IH]; [done|].
  cbn [search_year]. destruct (leading_year (String c s)) as [y'|] eqn:Hy.
  - intros [= <-]. by eapply leading_year_bounds.
  - done.
Qed.

(** *** Captions *)

Lemma caption_fields (t y q p : string) :
  caption_of t y q p
  = (t +:+ " ") +:+ String "|" ((" " +:+ y +:+ " ")
      +:+ String "|" ((" " +:+ q +:+ " ") +:+ String "|" (" " +:+ p))).
Proof. unfold caption_of. rewrite !append_assoc. reflexivity. Qed.

Lemma short_caption_fields (t y q : string) :
  t +:+ " | " +:+ y +:+ " | " +:+ q
  = (t +:+ " ") +:+ String "|" ((" " +:+ y +:+ " ") +:+ String "|" (" " +:+ q)).
Proof. rewrite !append_assoc. reflexivity. Qed.

Lemma spaced_field_has_no_separator (s : string) :
  has_char "|" s = false →
  has_char "|" (s +:+ " ") = false
  ∧ has_char "|" (" " +:+ s +:+ " ") = false
  ∧ has_char "|" (" " +:+ s) = false.
Proof. intros Hs. rewrite !has_char_app, Hs. done. Qed.

Lemma caption_is_not_empty (t rest : string) : t ≠ "" → t +:+ rest ≠ "".
Proof. destruct t; [done|]. intros _. cbv [String.append]. congruence. Qed.

Lemma parse_clean_fields (t y q p : string) :
  clean_field t → clean_field y → clean_field q → clean_field p →
  parse_upload_caption (caption_of t y q p)
  = Some (mkCaption t (search_year y) q p)
  ∧ parse_upload_caption (t +:+ " | " +:+ y +:+ " | " +:+ q)
    = Some (mkCaption t (search_year y) q "Complete").
Proof.
  intros (Ht & Htl & Htr & Hts) (Hy & Hyl & Hyr & Hys) (Hq & Hql & Hqr & Hqs)
    (Hp & Hpl & Hpr & Hps).
  destruct (spaced_field_has_no_separator t Hts) as (Ht1 & _ & _).
  destruct (spaced_field_has_no_separator y Hys) as (_ & Hy1 & _).
  destruct (spaced_field_has_no_separator q Hqs) as (_ & Hq1 & Hq2).
  destruct (spaced_field_has_no_separator p Hps) as (_ & _ & Hp1).
  split; unfold parse_upload_caption.
  - rewrite bool_decide_eq_false_2 by by apply caption_is_not_empty.
    rewrite caption_fields, !split_app, split_one by done.
    cbn [fmap list_fmap length Nat.ltb Nat.leb lookup list_lookup default].
    rewrite strip_before_space, !strip_between_spaces, strip_after_space by done.
    by rewrite !bool_decide_eq_false_2 by done.
  - rewrite bool_decide_eq_false_2 by by apply caption_is_not_empty.
    rewrite short_caption_fields, !split_app, split_one by done.
    cbn [fmap list_fmap length Nat.ltb Nat.leb lookup list_lookup default].
    rewrite strip_before_space, strip_between_spaces, strip_after_space by done.
    by rewrite !bool_decide_eq_false_2 by done.
Qed.

(** A caption written as [Title | Year | Quality | Part], with fields that
    have no blank at either end and no separator inside, is read back field
    by field, the four digits of the year as a number; without the fourth
    field the part is [Complete]. *)
Theorem caption_round_trip (t q p : string) (n : Z) :
  clean_field t → clean_field q → clean_field p → 0 ≤ n ≤ 9999 →
  parse_upload_caption (caption_of t (year_text n) q p)
  = Some (mkCaption t (Some n) q p)
  ∧ parse_upload_caption (t +:+ " | " +:+ year_text n +:+ " | " +:+ q)
    = Some (mkCaption t (Some n) q "Complete").
Proof.
  intros Ht Hq Hp Hn.
  rewrite <- (search_year_of_year_text n Hn).
  apply parse_clean_fields; try done. by apply year_text_is_clean.
Qed.

Lemma caption_round_trip_witness :
  parse_upload_caption (caption_of "Heat" (year_text 1995) "1080p" "Part 1")
  = Some (mkCaption "Heat" (Some 1995) "1080p" "Part 1")
  ∧ parse_upload_caption ("Heat" +:+ " | " +:+ year_text 1995 +:+ " | " +:+ "1080p")
    = Some (mkCaption "Heat" (Some 1995) "1080p" "Complete").
Proof.
  apply (caption_round_trip "Heat" "1080p" "Part 1" 1995);
    [by vm_compute..|lia].
Defined.

Lemma strip_of_stripped (s : string) : strip (strip s) = strip s.
Proof.
  unfold strip at 1. by rewrite lstrip_of_stripped, rstrip_of_stripped.
Qed.

(** What [parse_upload_caption] returns has a title, a quality and a part
    that are not empty, have no blank at either end and hold no separator;
    a year is between 0 and 9999; and the caption had at least two
    separators. *)
Theorem parsed_caption_has_clean_fields (caption : string) (r : Caption) :
  parse_upload_caption caption = Some r →
  Forall (λ f, f ≠ "" ∧ strip f = f ∧ has_char "|" f = false)
    [title r; quality r; part_season_episode r]
  ∧ (∀ y, year r = Some y → 0 ≤ y ≤ 9999)
  ∧ (3 ≤ length (split "|" caption))%nat.
Proof.
  unfold parse_upload_caption. case_bool_decide as Hcap; [done|].
  pose proof (split_fields "|" caption) as Hfields.
  rewrite length_fmap.
  destruct (split "|" caption) as [|f0 [|f1 [|f2 rest]]]; try done.
  apply Forall_cons in Hfields as [H0 Hfields].
  apply Forall_cons in Hfields as [H1 Hfields].
  apply Forall_cons in Hfields as [H2 Hfields].
  cbn [fmap list_fmap length Nat.ltb Nat.leb lookup list_lookup default].
  case_bool_decide as Htitle; [done|]. case_bool_decide as Hquality; [done|].
  cbn [orb]. intros [= <-]. cbn [title year quality part_season_episode].
  split_and!.
  - repeat constructor; try done; try apply strip_of_stripped;
      try by apply has_char_strip.
    + case_bool_decide; [done|].
      destruct rest as [|f3 rest]; [done|]. cbn in *. done.
    + case_bool_decide; [done|].
      destruct rest as [|f3 rest]; [done|]. cbn. apply strip_of_stripped.
    + case_bool_decide; [done|].
      destruct rest as [|f3 rest]; [done|]. cbn.
      apply Forall_cons in Hfields as [H3 _]. by apply has_char_strip.
  - intros y. case_bool_decide; [done|]. apply search_year_bounds.
  - cbn. lia.
Qed.

Lemma parsed_caption_has_clean_fields_witness :
  Forall (λ f, f ≠ ""%string ∧ strip f = f ∧ has_char "|" f = false)
    ["Heat"%string; "1080p"%string; "Complete"%string]
  ∧ (∀ y, Some 1995 = Some y → 0 ≤ y ≤ 9999)
  ∧ (3 ≤ length (split "|" "  Heat|(1995)|1080p "))%nat.
Proof.
  apply (parsed_caption_has_clean_fields "  Heat|(1995)|1080p "
           (mkCaption "Heat" (Some 1995) "1080p" "Complete")).
  vm_compute. reflexivity.
Defined.

End UtilsFacts.
